(** * AOD imputation pipeline (02_first_stage_ML/AOD_impute.py)

    A shallow embedding of the three functions of the script,
    [load_and_sample_df], [run_outer_cv] and [main], over a small model of
    the pandas / scikit-learn operations they call, and the properties of
    the pipeline stated on that embedding.

    Layout: exceptions and the error monad; cells, series and data frames
    with the pandas operations the script uses; the grouped sampler;
    GroupKFold; the world (files, environment, call trace) and the state
    and error monad the script runs in; the script; the theorems.

    What is taken as given: the cell-level conversions of pandas, Python's
    [int], numpy's seeded generator (any function with the contract of a
    draw without replacement), what the operating system answers when a
    path is opened for writing, the regressor and the two metrics (any
    functions, each free to raise).  The [print] statements are left out,
    but for the column lookups two of them evaluate. *)

From Stdlib Require Import QArith.
From Corelib Require Import PrimFloat SpecFloat FloatOps.
From stdpp Require Import base option list strings gmap sorting lexico pretty.

Set Default Proof Using "Type".

(** ** Exceptions and results *)

Inductive exn : Type :=
| KeyError (key : string)
| ValueError (msg : string)
| IndexError
| FileNotFoundError (path : string)
| OSError (msg : string)
| LibraryError (msg : string).

Inductive result (A : Type) : Type :=
| Ok (a : A)
| Err (e : exn).
Arguments Ok {A} a.
Arguments Err {A} e.

#[global] Instance exn_eq_dec : EqDecision exn.
Proof. solve_decision. Defined.
#[global] Instance result_eq_dec {A} `{EqDecision A} : EqDecision (result A).
Proof. solve_decision. Defined.

Definition is_ok {A} (r : result A) : bool :=
  match r with Ok _ => true | Err _ => false end.

#[global] Instance result_ret : MRet result := λ A a, Ok a.
#[global] Instance result_bind : MBind result := λ A B f r,
  match r with Ok a => f a | Err e => Err e end.

(** ** Cells, series, data frames *)

(** A cell of a table.  The script never computes on a cell itself, it only
    moves cells around and hands them to library calls, so a numeric cell is
    carried as an integer. [VNull] is pandas' missing value (NaN, None, NaT). *)
Inductive value : Type :=
| VNull
| VNum (z : Z)
| VStr (s : string)
| VTime (t : Z).

#[global] Instance value_eq_dec : EqDecision value.
Proof. solve_decision. Defined.
#[global] Instance value_inhabited : Inhabited value := populate VNull.

Definition isna (v : value) : bool :=
  match v with VNull => true | _ => false end.

(** The order numpy and pandas sort cells by: numbers by value, strings by
    code point.  The leading tag only makes the order total on mixed columns. *)
Definition ascii_code (a : Ascii.ascii) : Z := Z.of_N (Ascii.N_of_ascii a).

Definition value_enc (v : value) : Z * list Z :=
  match v with
  | VNull => (0, [])
  | VNum z => (1, [z])
  | VStr s => (2, ascii_code <$> String.list_ascii_of_string s)
  | VTime t => (3, [t])
  end%Z.

Definition value_le (a b : value) : Prop :=
  lexico (value_enc a) (value_enc b) ∨ a = b.

#[global] Instance value_le_dec : RelDecision value_le.
Proof. intros a b. unfold value_le. apply _. Defined.

Definition key_le (a b : list value) : Prop :=
  lexico (value_enc <$> a) (value_enc <$> b) ∨ a = b.

#[global] Instance key_le_dec : RelDecision key_le.
Proof. intros a b. unfold key_le. apply _. Defined.

Definition Series : Type := list value.

(** A data frame: the length of its index and its columns in order.  A frame
    with no column still has rows, hence [nrows]. *)
Record DataFrame : Type := mkDF {
  nrows : nat;
  columns : list (string * Series)
}.

#[global] Instance DataFrame_eq_dec : EqDecision DataFrame.
Proof. solve_decision. Defined.

Definition col_names (df : DataFrame) : list string := (columns df).*1.

Fixpoint assoc (c : string) (cols : list (string * Series)) : option Series :=
  match cols with
  | [] => None
  | (c', s) :: cols => if decide (c' = c) then Some s else assoc c cols
  end.

(** [df[c]] *)
Definition getitem (df : DataFrame) (c : string) : result Series :=
  match assoc c (columns df) with
  | Some s => Ok s
  | None => Err (KeyError c)
  end.

(** [df[[c1, ..., cn]]]: the first absent label is the one reported. *)
Definition getitem_list (df : DataFrame) (cs : list string) : result DataFrame :=
  cols ← mapM (λ c, s ← getitem df c; mret (c, s)) cs;
  mret (mkDF (nrows df) cols).

Fixpoint set_col (c : string) (s : Series) (cols : list (string * Series))
  : list (string * Series) :=
  match cols with
  | [] => [(c, s)]
  | (c', s') :: cols =>
      if decide (c' = c) then (c, s) :: cols else (c', s') :: set_col c s cols
  end.

(** [df[c] = s]: an existing column is overwritten in place, a new one is
    appended; the values must be as many as the rows. *)
Definition setitem (df : DataFrame) (c : string) (s : Series) : result DataFrame :=
  if decide (length s = nrows df)
  then Ok (mkDF (nrows df) (set_col c s (columns df)))
  else Err (ValueError "Length of values does not match length of index").

Definition take_at {A} `{Inhabited A} (s : list A) (idx : list nat) : list A :=
  (λ i, s !!! i) <$> idx.

(** [s.iloc[idx]] and [df.iloc[idx]]: positional selection, out of range raises. *)
Definition iloc_series (n : nat) (s : Series) (idx : list nat) : result Series :=
  if decide (Forall (λ i, i < n) idx) then Ok (take_at s idx) else Err IndexError.

Definition iloc (df : DataFrame) (idx : list nat) : result DataFrame :=
  if decide (Forall (λ i, i < nrows df) idx)
  then Ok (mkDF (length idx) (prod_map id (λ s, take_at s idx) <$> columns df))
  else Err IndexError.

(** [df.drop(columns=cs, errors='ignore')] *)
Definition drop_columns (cs : list string) (df : DataFrame) : DataFrame :=
  mkDF (nrows df) (filter (λ p, p.1 ∉ cs) (columns df)).

(** [df.rename(columns={old: new})] *)
Definition rename_column (old new : string) (df : DataFrame) : DataFrame :=
  mkDF (nrows df)
    (prod_map (λ c, if decide (c = old) then new else c) id <$> columns df).

(** Every column has as many cells as the frame has rows. *)
Definition wf_df (df : DataFrame) : Prop :=
  Forall (λ p, length p.2 = nrows df) (columns df).

#[global] Instance wf_df_dec df : Decision (wf_df df).
Proof. unfold wf_df. apply _. Defined.

(** ** Left merge *)

(** For every left row, in order, the right rows with an equal key, in
    order; a left row with no partner is kept once, with no right row. *)
Definition match_rows (nl : nat) (lk : Series) (nr : nat) (rk : Series)
  : list (nat * option nat) :=
  i ← seq 0 nl;
  match filter (λ j, rk !!! j = lk !!! i) (seq 0 nr) with
  | [] => [(i, None)]
  | js => (λ j, (i, Some j)) <$> js
  end.

Definition gather_left (pairs : list (nat * option nat)) (s : Series) : Series :=
  (λ p, s !!! p.1) <$> pairs.

Definition gather_right (pairs : list (nat * option nat)) (s : Series) : Series :=
  (λ p, match p.2 with Some j => s !!! j | None => VNull end) <$> pairs.

(** [pd.merge(l, r, how='left', on=key)]: the left columns, then the right
    columns but the key; a label on both sides gets the suffixes _x and _y. *)
Definition merge_left (l r : DataFrame) (key : string) : result DataFrame :=
  lk ← getitem l key;
  rk ← getitem r key;
  let pairs := match_rows (nrows l) lk (nrows r) rk in
  let rcols := filter (λ p, p.1 ≠ key) (columns r) in
  let lname c := if decide (c ≠ key ∧ c ∈ rcols.*1) then c +:+ "_x" else c in
  let rname c := if decide (c ∈ col_names l) then c +:+ "_y" else c in
  mret (mkDF (length pairs)
          ((prod_map lname (gather_left pairs) <$> columns l) ++
           (prod_map rname (gather_right pairs) <$> rcols))).

(** ** Grouped sampling *)

(** Python's [round] read on an exact value: to the nearest integer, a tie
    to the even one.  The sampler does not compute with it (it works in
    binary64, below); it is what the statements compare the sampler with. *)
Definition py_round (x : Q) : Z :=
  let n := Qnum x in
  let d := Z.pos (Qden x) in
  let q := (n / d)%Z in
  let r := (n mod d)%Z in
  if decide (2 * r < d)%Z then q
  else if decide (d < 2 * r)%Z then (q + 1)%Z
  else if Z.even q then q else (q + 1)%Z.

(** The computation as pandas runs it, in binary64: the product of the
    fraction (0.03 is read as the double nearest to it) and the size,
    rounded to the nearest integer, a tie to the even one (adding and
    subtracting 2^52 does that rounding for a double below 2^51).  A size
    becomes a double exactly as long as it is below 2^53. *)
Fixpoint float_of_pos (p : positive) : float :=
  match p with
  | xH => 1
  | xO p => 2 * float_of_pos p
  | xI p => 2 * float_of_pos p + 1
  end%float.

Definition float_of_Z (z : Z) : float :=
  match z with
  | Z0 => 0
  | Zpos p => float_of_pos p
  | Zneg p => - float_of_pos p
  end%float.

Definition binary64_round (x : float) : float :=
  ((x + 0x1p+52) - 0x1p+52)%float.

Definition binary64_sample_size (n : Z) : float :=
  binary64_round (0x1.eb851eb851eb8p-6 * float_of_Z n)%float.

(** The integer a double with an integral value stands for. *)
Definition Z_of_float (x : float) : Z :=
  match Prim2SF x with
  | S754_finite s m e =>
      let z := Z.shiftl (Z.pos m) e in if s then (- z)%Z else z
  | _ => 0%Z
  end.

(** Python's [round] of a double that is not negative: a double from 2^52 on
    is an integer already. *)
Definition py_round_float (x : float) : Z :=
  Z_of_float (if (x <? 0x1p+52)%float then binary64_round x else x).

(** [round(frac * n)], the product taken in binary64. *)
Definition round_product (frac : float) (n : Z) : Z :=
  py_round_float (frac * float_of_Z n).

(** The size [DataFrame.sample(frac=f, replace=False)] asks for on [n] rows. *)
Definition sample_size (frac : float) (n : nat) : result nat :=
  if (1 <? frac)%float then
    Err (ValueError
           "Replace has to be set to `True` when upsampling the population `frac` > 1.")
  else if (frac <? 0)%float then
    Err (ValueError
           "A negative number of rows requested. Please provide `frac` >= 0.")
  else if is_nan frac then
    Err (ValueError "cannot convert float NaN to integer")
  else Ok (Z.to_nat (round_product frac (Z.of_nat n))).

(** The generator behind [sample]: [choice seed n k] is what
    [RandomState(seed).choice(n, size=k, replace=False)] returns. *)
Definition Choice : Type := Z → nat → nat → list nat.

(** numpy's contract for a draw without replacement. *)
Definition choice_ok (choice : Choice) : Prop :=
  ∀ seed n k, k ≤ n →
    length (choice seed n k) = k ∧ NoDup (choice seed n k) ∧
    Forall (λ i, i < n) (choice seed n k).

Definition row_key (ks : list Series) (i : nat) : list value :=
  (λ s : Series, s !!! i) <$> ks.

Definition notna_key (k : list value) : Prop := Forall (λ v, v ≠ VNull) k.

(** The cells of [groupby(keys)]: the distinct keys with no null in them
    (dropna), sorted. *)
Definition group_keys (ks : list Series) (n : nat) : list (list value) :=
  merge_sort key_le (remove_dups (filter notna_key (row_key ks <$> seq 0 n))).

(** The rows of one cell, in the frame's order. *)
Definition group_rows (ks : list Series) (n : nat) (k : list value) : list nat :=
  filter (λ i, row_key ks i = k) (seq 0 n).

(** [x.sample(frac=f, random_state=seed, replace=False)] on the cell whose
    rows are [rows]: a fresh generator per call, so the positions drawn
    depend on the seed and the cell's size only.  The generator refuses a
    size above the population. *)
Definition sample_rows (choice : Choice) (frac : float) (seed : Z) (rows : list nat)
  : result (list nat) :=
  k ← sample_size frac (length rows);
  if decide (k ≤ length rows)
  then mret (take_at rows (choice seed (length rows) k))
  else Err (ValueError
              "Cannot take a larger sample than population when 'replace=False'").

(** The rows each cell contributes, cell by cell. *)
Definition sample_cells (choice : Choice) (frac : float) (seed : Z)
    (ks : list Series) (n : nat) : result (list (list value * list nat)) :=
  mapM (λ k, r ← sample_rows choice frac seed (group_rows ks n k); mret (k, r))
       (group_keys ks n).

(** [df.groupby(keys).apply(lambda x: x.sample(frac=f, random_state=seed,
    replace=False)).reset_index(drop=True)] *)
Definition groupby_sample (choice : Choice) (frac : float) (seed : Z)
    (df : DataFrame) (keys : list string) : result DataFrame :=
  ks ← mapM (getitem df) keys;
  cells ← sample_cells choice frac seed ks (nrows df);
  iloc df (concat cells.*2).

(** ** GroupKFold *)

(** [np.unique]: the distinct values, sorted. *)
Definition np_unique (groups : Series) : list value :=
  merge_sort value_le (remove_dups groups).

(** The position of a group in [np.unique]'s result (return_inverse). *)
Definition index_of (u : list value) (g : value) : nat :=
  default 0 (fst <$> list_find (λ x, x = g) u).

(** [np.bincount] of the inverse: the number of rows of every group. *)
Definition group_counts (groups : Series) : list nat :=
  (λ g, length (filter (λ x, x = g) groups)) <$> np_unique groups.

Fixpoint insert_by (w : nat → nat) (i : nat) (l : list nat) : list nat :=
  match l with
  | [] => [i]
  | j :: l' => if decide (w i ≤ w j) then i :: l else j :: insert_by w i l'
  end.

(** [np.argsort]: positions by increasing count, equal counts in position
    order. *)
Definition argsort (counts : list nat) : list nat :=
  foldr (insert_by (λ i, counts !!! i)) [] (seq 0 (length counts)).

Definition min_list (l : list nat) : nat := foldr Nat.min (hd 0 l) l.

(** [np.argmin]: the first position of the least element. *)
Definition argmin (l : list nat) : nat :=
  default 0 (fst <$> list_find (λ x, x = min_list l) l).

(** One turn of the assignment loop: the group goes to the lightest fold. *)
Definition assign_step (counts : list nat) (st : list nat * list nat) (gi : nat)
  : list nat * list nat :=
  let lightest := argmin st.1 in
  (alter (λ x, x + counts !!! gi) lightest st.1, <[gi := lightest]> st.2).

(** The fold of every group: groups by decreasing size, each to the fold
    that is lightest so far. *)
Definition group_to_fold (n_splits : nat) (counts : list nat) : list nat :=
  (foldl (assign_step counts)
         (replicate n_splits 0, replicate (length counts) 0)
         (reverse (argsort counts))).2.

(** The fold a group's rows are validated in. *)
Definition fold_of_group (n_splits : nat) (groups : Series) (g : value) : nat :=
  group_to_fold n_splits (group_counts groups) !!! index_of (np_unique groups) g.

Definition test_indices (n_splits : nat) (groups : Series) (f : nat) : list nat :=
  filter (λ i, fold_of_group n_splits groups (groups !!! i) = f)
         (seq 0 (length groups)).

Definition train_indices (n_splits : nat) (groups : Series) (f : nat) : list nat :=
  filter (λ i, fold_of_group n_splits groups (groups !!! i) ≠ f)
         (seq 0 (length groups)).

(** [list(GroupKFold(n_splits).split(X, y, groups))]: the (train, test)
    index pairs, fold by fold. *)
Definition GroupKFold_split (n_splits : nat) (groups : Series)
  : result (list (list nat * list nat)) :=
  if decide (n_splits < 2) then
    Err (ValueError "k-fold cross-validation requires at least one train/test split")
  else if decide (length (np_unique groups) < n_splits) then
    Err (ValueError "Cannot have number of splits greater than the number of groups")
  else Ok ((λ f, (train_indices n_splits groups f, test_indices n_splits groups f))
             <$> seq 0 n_splits).

Example argsort_ties : reverse (argsort [1; 1; 2]) = [2; 1; 0].
Proof. reflexivity. Qed.

Example py_round_ties :
  py_round (0.03 * inject_Z 50) = 2%Z ∧ py_round (0.03 * inject_Z 150) = 4%Z ∧
  py_round (0.03 * inject_Z 100) = 3%Z ∧ py_round (0.03 * inject_Z 1) = 0%Z.
Proof. vm_compute. done. Qed.

(** ** The world the script runs in *)

(** What the script does to the outside: calls into the regressor and files
    written, in the order they happen. *)
Inductive event : Type :=
| EvFit
| EvPredict
| EvWrite (path : string).

#[global] Instance event_eq_dec : EqDecision event.
Proof. solve_decision. Defined.

(** Files hold the table handed to [to_csv] (the text encoding of a CSV file
    is outside the model).  The store maps paths to tables; whether a path
    can be written is the operating system's answer, see [write_error]. *)
Record World : Type := mkWorld {
  files : gmap string DataFrame;
  environ : gmap string string;
  trace : list event
}.

(** State and exceptions: a raised exception keeps the effects done so far. *)
Definition M (A : Type) : Type := World → result A * World.

#[global] Instance M_ret : MRet M := λ A a w, (Ok a, w).
#[global] Instance M_bind : MBind M := λ A B f c w,
  match c w with
  | (Ok a, w') => f a w'
  | (Err e, w') => (Err e, w')
  end.

Definition lift {A} (r : result A) : M A := λ w, (r, w).

Definition emit (e : event) : M unit := λ w,
  (Ok (), mkWorld (files w) (environ w) (trace w ++ [e])).

(** [pd.read_csv(path)] *)
Definition read_csv (path : string) : M DataFrame := λ w,
  match files w !! path with
  | Some df => (Ok df, w)
  | None => (Err (FileNotFoundError path), w)
  end.

(** [os.path.exists(path)] *)
Definition path_exists (path : string) : M bool := λ w,
  (Ok (bool_decide (is_Some (files w !! path))), w).

Definition starts_with_slash (s : string) : bool :=
  match s with
  | String a _ => bool_decide (String a "" = "/")
  | EmptyString => false
  end.

Fixpoint ends_with_slash (s : string) : bool :=
  match s with
  | EmptyString => false
  | String a EmptyString => bool_decide (String a "" = "/")
  | String _ s' => ends_with_slash s'
  end.

(** One step of [posixpath.join]: an absolute component starts over; a
    separator is put in unless the path so far is empty or ends in one. *)
Definition join2 (path b : string) : string :=
  if starts_with_slash b then b
  else if bool_decide (path = "") || ends_with_slash path then path +:+ b
  else path +:+ "/" +:+ b.

(** [os.path.join(p, *ps)] *)
Definition path_join (parts : list string) : string :=
  match parts with
  | [] => ""
  | p :: ps => foldl join2 p ps
  end.

(** ** Library calls taken as given *)

(** Cell-level conversions of pandas, Python's [int], numpy's generator, and
    the exception, if any, that opening a path for writing raises (a missing
    directory, a directory in the file's place, no permission, a full disk). *)
Record Externals : Type := {
  to_datetime : value → result value;   (* pd.to_datetime, one cell *)
  strftime_Ym : value → value;          (* .dt.strftime('%Y-%m'), one cell *)
  astype_int : value → result value;    (* .astype(int), one cell *)
  astype_str : value → value;           (* .astype(str), one cell *)
  py_int : string → result Z;           (* int(s) *)
  choice : Choice;
  write_error : string → option exn
}.

(** [df.to_csv(path, index=False)]: a path the system refuses raises and
    leaves the store as it was. *)
Definition to_csv (E : Externals) (df : DataFrame) (path : string) : M unit := λ w,
  match write_error E path with
  | Some e => (Err e, w)
  | None =>
      (Ok (), mkWorld (<[path := df]> (files w)) (environ w)
                (trace w ++ [EvWrite path]))
  end.

Inductive hyper : Type :=
| HInt (z : Z)
| HFloat (q : Q)
| HStr (s : string).

Definition hyperparams : Type := list (string * hyper).

(** XGBRegressor and the two sklearn metrics: an interface, any of whose
    calls may raise. *)
Record Learner : Type := {
  Model : Type;
  fit : hyperparams → DataFrame → Series → result Model;
  predict : Model → DataFrame → result Series;
  feature_importances : Model → Series;
  r2_score : Series → Series → result value;
  mean_squared_error : Series → Series → result value;
  math_sqrt : value → result value
}.

(** ** The script *)

Definition path_to_data : string := "path_to_data".

Definition feature_cols : list string :=
  ["aot_daily"; "co_daily"; "v_wind"; "u_wind"; "rainfall"; "temp";
   "pressure"; "thermal_radiation"; "low_veg"; "high_veg"; "dewpoint_temp";
   "month"; "day_of_year"; "cos_day_of_year"; "monsoon"; "lon"; "lat";
   "wind_degree"; "RH"; "aot_rolling"; "co_rolling"; "omi_no2_rolling";
   "v_wind_rolling"; "u_wind_rolling"; "rainfall_rolling"; "temp_rolling";
   "wind_degree_rolling"; "RH_rolling"; "thermal_radiation_rolling";
   "dewpoint_temp_rolling"; "aot_daily_annual"; "co_daily_annual";
   "omi_no2_annual"; "v_wind_annual"; "u_wind_annual"; "rainfall_annual";
   "thermal_radiation_annual"; "low_veg_annual"; "high_veg_annual";
   "dewpoint_temp_annual"; "wind_degree_annual"; "RH_annual";
   "co_daily_allyears"].

Definition target_col : string := "aod".

Definition best_params_XGB : hyperparams :=
  [("subsample", HFloat 0.8); ("n_estimators", HInt 1000);
   ("min_child_weight", HInt 1); ("max_depth", HInt 20);
   ("lambda", HInt 100); ("gamma", HFloat 0.8); ("eta", HFloat 0.1);
   ("booster", HStr "gbtree")].

Definition drop_cols : list string :=
  ["date"; "grid_id"; "grid_id_50km"; "year_month"].

(** [df[c] = f(df[c])] for a cell-wise conversion that may raise *)
Definition convert_column (f : value → result value) (c : string) (df : DataFrame)
  : result DataFrame :=
  s ← getitem df c;
  s' ← mapM f s;
  setitem df c s'.

(** [pd.DataFrame({'feature': names, 'importance': imp})
      .sort_values(by='importance', ascending=False)].  Rows of equal
    importance come in the order [merge_sort] leaves them; the default sort
    of pandas is not stable and fixes none. *)
Definition importance_frame (names : list string) (imp : Series) : result DataFrame :=
  if decide (length names = length imp) then
    let rows := merge_sort (λ a b : value * value, value_le b.2 a.2)
                  (zip (VStr <$> names) imp) in
    Ok (mkDF (length rows) [("feature", rows.*1); ("importance", rows.*2)])
  else Err (ValueError "All arrays must be of the same length").

Section Script.
Context (E : Externals) (L : Learner).

(** [frac=0.03], as Python reads it: the double nearest to 0.03. *)
Definition sampling_frac : float := 0x1.eb851eb851eb8p-6.
Definition sampling_seed : Z := 42.

Definition input_file : string :=
  path_join [path_to_data; "ML_full_model"; "df_for_imputation.csv"].
Definition grid_file : string :=
  path_join [path_to_data; "ML_full_model"; "grid_intersect_with_50km.csv"].
Definition output_sampled : string :=
  path_join [path_to_data; "ML_full_model"; "aod_ml_df_sampled.csv"].

(** The body of [if os.path.exists(grid_file)]. *)
Definition merge_grid (df : DataFrame) : M DataFrame :=
  grid_50km ← read_csv grid_file;
  let grid_50km := rename_column "grid_id_10km" "grid_id" grid_50km in
  g ← lift (getitem grid_50km "grid_id");
  g ← lift (mapM (astype_int E) g);
  grid_50km ← lift (setitem grid_50km "grid_id" (astype_str E <$> g));
  d ← lift (getitem df "grid_id");
  d ← lift (mapM (astype_int E) d);
  df ← lift (setitem df "grid_id" (astype_str E <$> d));
  lift (merge_left df grid_50km "grid_id").

Definition load_and_sample_df : M DataFrame :=
  df ← read_csv input_file;
  df ← lift (convert_column (to_datetime E) "date" df);
  has_grid ← path_exists grid_file;
  df ← (if has_grid : bool then merge_grid df else mret df);
  d ← lift (getitem df "date");
  df ← lift (setitem df "year_month" (strftime_Ym E <$> d));
  df_sampled ← lift (groupby_sample (choice E) sampling_frac sampling_seed df
                       ["grid_id_50km"; "year_month"]);
  _ ← lift (getitem df_sampled "grid_id");
  _ ← lift (getitem df_sampled "grid_id_50km");
  _ ← to_csv E df_sampled output_sampled;
  mret df_sampled.

(** [int(os.getenv("SLURM_CPUS_PER_TASK", 4))] *)
Definition n_jobs : M Z := λ w,
  match environ w !! "SLURM_CPUS_PER_TASK" with
  | Some s => (py_int E s, w)
  | None => (Ok 4%Z, w)
  end.

(** The keyword arguments of the [XGBRegressor] constructor: the fixed
    parameters unpacked, then [n_jobs] and [tree_method='gpu_hist']. *)
Definition best_params_of (params : hyperparams) (jobs : Z) : hyperparams :=
  params ++ [("n_jobs", HInt jobs); ("tree_method", HStr "gpu_hist")].

Definition call_fit (params : hyperparams) (X : DataFrame) (y : Series)
  : M (Model L) :=
  _ ← emit EvFit; lift (fit L params X y).

Definition call_predict (m : Model L) (X : DataFrame) : M Series :=
  _ ← emit EvPredict; lift (predict L m X).

(** What the loop of [run_outer_cv] carries from fold to fold. *)
Record cv_state : Type := mkCV {
  dfs_importance : list DataFrame;
  train_dfs : list DataFrame;
  eval_dfs : list DataFrame;
  model_xgb : option (Model L)
}.

(** One turn of [for fold, (trn_idx, val_idx) in enumerate(outer_cv)]. *)
Definition train_fold (X : DataFrame) (y : Series) (params : hyperparams)
    (trn_idx val_idx : list nat) (st : cv_state) : M cv_state :=
  X_trn ← lift (iloc X trn_idx);
  X_val ← lift (iloc X val_idx);
  y_trn ← lift (iloc_series (length y) y trn_idx);
  y_val ← lift (iloc_series (length y) y val_idx);
  train_df ← lift (getitem_list X_trn ["date"; "grid_id"]);
  train_df ← lift (setitem train_df "y_trn" y_trn);
  eval_df ← lift (getitem_list X_val ["date"; "grid_id"]);
  eval_df ← lift (setitem eval_df "y_val" y_val);
  let X_trn_model := drop_columns drop_cols X_trn in
  let X_val_model := drop_columns drop_cols X_val in
  jobs ← n_jobs;
  model ← call_fit (best_params_of params jobs) X_trn_model y_trn;
  imp_df ← lift (importance_frame (col_names X_trn_model)
                   (feature_importances L model));
  y_trn_pred ← call_predict model X_trn_model;
  _ ← lift (r2_score L y_trn y_trn_pred);
  mse ← lift (mean_squared_error L y_trn y_trn_pred);
  _ ← lift (math_sqrt L mse);
  train_df ← lift (setitem train_df "trn_y_pred" y_trn_pred);
  y_val_pred ← call_predict model X_val_model;
  eval_df ← lift (setitem eval_df "y_pred" y_val_pred);
  _ ← lift (r2_score L y_val y_val_pred);
  mse ← lift (mean_squared_error L y_val y_val_pred);
  _ ← lift (math_sqrt L mse);
  mret (mkCV (dfs_importance st ++ [imp_df]) (train_dfs st ++ [train_df])
             (eval_dfs st ++ [eval_df]) (Some model)).

(** The training loop over the folds, in order. *)
Fixpoint cv_loop (X : DataFrame) (y : Series) (params : hyperparams)
    (outer_cv : list (list nat * list nat)) (st : cv_state) : M cv_state :=
  match outer_cv with
  | [] => mret st
  | (trn_idx, val_idx) :: rest =>
      st ← train_fold X y params trn_idx val_idx st;
      cv_loop X y params rest st
  end.

Definition list_get {A} (l : list A) (i : nat) : result A :=
  match l !! i with Some x => Ok x | None => Err IndexError end.

Definition fold_file (output_dir : string) (i : nat) (suffix : string) : string :=
  path_join [output_dir; "fold_" +:+ pretty (i + 1) +:+ suffix].

(** [for i in range(len(outer_cv))]: the three files of every fold. *)
Fixpoint save_loop (output_dir : string) (st : cv_state) (fold_ids : list nat) : M unit :=
  match fold_ids with
  | [] => mret ()
  | i :: rest =>
      imp ← lift (list_get (dfs_importance st) i);
      _ ← to_csv E imp (fold_file output_dir i "_XGB_feature_importance.csv");
      trn ← lift (list_get (train_dfs st) i);
      _ ← to_csv E trn (fold_file output_dir i "_XGB_traindf.csv");
      evl ← lift (list_get (eval_dfs st) i);
      _ ← to_csv E evl (fold_file output_dir i "_XGB_evaldf.csv");
      save_loop output_dir st rest
  end.

Definition run_outer_cv (df : DataFrame) (features : list string)
    (target group_col : string) (params : hyperparams) (output_dir : string)
  : M (Model L) :=
  X ← lift (getitem_list df features);
  y ← lift (getitem df target);
  groups ← lift (getitem df group_col);
  outer_cv ← lift (GroupKFold_split 10 groups);
  st ← cv_loop X y params outer_cv (mkCV [] [] [] None);
  _ ← save_loop output_dir st (seq 0 (length outer_cv));
  match model_xgb st with
  | Some m => mret m
  | None => lift (Err (LibraryError "UnboundLocalError: model_xgb"))
  end.

Definition ml_input_file : string :=
  path_join [path_to_data; "ML_full_model"; "aod_ml_df_sampled.csv"].
Definition OUTPUT_ML_DIR : string :=
  path_join [path_to_data; "ML_full_model"; "AOD_impute"].
Definition missing_file : string :=
  path_join [path_to_data; "ML_full_model"; "aod_missing_to_be_imputed.csv"].
Definition imputed_out : string :=
  path_join [OUTPUT_ML_DIR; "aod_imputed_XGB.csv"].

(** Step 4 of [main]: final imputation on the missing AOD data. *)
Definition final_imputation (final_model : Model L) : M unit :=
  df_missing ← read_csv missing_file;
  df_missing ← lift (convert_column (to_datetime E) "date" df_missing);
  X_fin ← lift (getitem_list df_missing feature_cols);
  pred ← call_predict final_model X_fin;
  df_missing ← lift (setitem df_missing "AOD_imputed" pred);
  to_csv E df_missing imputed_out.

Definition main : M unit :=
  _ ← load_and_sample_df;
  df_ml ← read_csv ml_input_file;
  df_ml ← lift (convert_column (to_datetime E) "date" df_ml);
  g ← lift (getitem df_ml "grid_id");
  df_ml ← lift (setitem df_ml "grid_id" (astype_str E <$> g));
  final_model ← run_outer_cv df_ml feature_cols target_col "grid_id_50km"
                   best_params_XGB OUTPUT_ML_DIR;
  final_imputation final_model.
End Script.

(** ** Vocabulary of the statements *)

(** The calls into the regressor, among the events. *)
Definition is_call (e : event) : Prop := e = EvFit ∨ e = EvPredict.

Definition add_event (e : event) (w : World) : World :=
  mkWorld (files w) (environ w) (trace w ++ [e]).

(** A block that writes no file: it only calls into the regressor. *)
Definition only_calls {A} (c : M A) : Prop :=
  ∀ w r w', c w = (r, w') →
    files w' = files w ∧ environ w' = environ w ∧
    ∃ calls, trace w' = trace w ++ calls ∧ Forall is_call calls.

(** The calls of one fold, and the writes of one fold. *)
Definition fold_calls : list event := [EvFit; EvPredict; EvPredict].

Definition fold_writes (output_dir : string) (i : nat) : list event :=
  [EvWrite (fold_file output_dir i "_XGB_feature_importance.csv");
   EvWrite (fold_file output_dir i "_XGB_traindf.csv");
   EvWrite (fold_file output_dir i "_XGB_evaldf.csv")].

(** The three paths of one fold. *)
Definition fold_paths (output_dir : string) (i : nat) : list string :=
  [fold_file output_dir i "_XGB_feature_importance.csv";
   fold_file output_dir i "_XGB_traindf.csv";
   fold_file output_dir i "_XGB_evaldf.csv"].

(** The three files of one fold with the tables the save loop puts in them,
    and the writing of a list of files in order. *)
#[global] Instance DataFrame_inhabited : Inhabited DataFrame := populate (mkDF 0 []).

Definition fold_tables (L : Learner) (output_dir : string) (st : cv_state L)
    (i : nat) : list (string * DataFrame) :=
  [(fold_file output_dir i "_XGB_feature_importance.csv", dfs_importance L st !!! i);
   (fold_file output_dir i "_XGB_traindf.csv", train_dfs L st !!! i);
   (fold_file output_dir i "_XGB_evaldf.csv", eval_dfs L st !!! i)].

Fixpoint write_all (E : Externals) (l : list (string * DataFrame)) : M unit :=
  match l with
  | [] => mret ()
  | (path, df) :: l => _ ← to_csv E df path; write_all E l
  end.

(** The names of the three files of one fold, and the separator
    [os.path.join] puts after a directory. *)
Definition fold_names (i : nat) : list string :=
  ["fold_" +:+ pretty (i + 1) +:+ "_XGB_feature_importance.csv";
   "fold_" +:+ pretty (i + 1) +:+ "_XGB_traindf.csv";
   "fold_" +:+ pretty (i + 1) +:+ "_XGB_evaldf.csv"].

Definition path_sep (dir : string) : string :=
  if bool_decide (dir = "") || ends_with_slash dir then "" else "/".

(** What one fold records: the model [m] is fitted on the training rows and
    on the columns that are left once the identifying columns are dropped;
    the training table and the validation table hold, for the rows of their
    side, the date, the fine identifier, the observed target and what that
    model predicts. *)
Definition fold_record (L : Learner) (X : DataFrame) (y : Series)
    (params : hyperparams) (trn_idx val_idx : list nat) (m : Model L)
    (imp_df train_df eval_df : DataFrame) : Prop :=
  ∃ X_trn X_val date gid jobs pred_trn pred_val,
    iloc X trn_idx = Ok X_trn ∧ iloc X val_idx = Ok X_val ∧
    getitem X "date" = Ok date ∧ getitem X "grid_id" = Ok gid ∧
    fit L (best_params_of params jobs) (drop_columns drop_cols X_trn)
      (take_at y trn_idx) = Ok m ∧
    predict L m (drop_columns drop_cols X_trn) = Ok pred_trn ∧
    predict L m (drop_columns drop_cols X_val) = Ok pred_val ∧
    importance_frame (col_names (drop_columns drop_cols X_trn))
      (feature_importances L m) = Ok imp_df ∧
    train_df = mkDF (length trn_idx)
      [("date", take_at date trn_idx); ("grid_id", take_at gid trn_idx);
       ("y_trn", take_at y trn_idx); ("trn_y_pred", pred_trn)] ∧
    eval_df = mkDF (length val_idx)
      [("date", take_at date val_idx); ("grid_id", take_at gid val_idx);
       ("y_val", take_at y val_idx); ("y_pred", pred_val)].

(** Whether the exact rounding of 0.03 n and the binary64 one agree on the
    [count] sizes from [n] on. *)
Fixpoint binary64_agrees_from (n : Z) (count : nat) : bool :=
  match count with
  | O => true
  | S count =>
      PrimFloat.eqb (binary64_sample_size n)
        (float_of_Z (py_round (0.03 * inject_Z n)))
      && binary64_agrees_from (n + 1) count
  end.

(** Whether [round_product] with the fraction of the script is the exact
    rounding of 0.03 n, on the [count] sizes from [n] on. *)
Fixpoint round_product_agrees_from (n : Z) (count : nat) : bool :=
  match count with
  | O => true
  | S count =>
      (round_product sampling_frac n =? py_round (0.03 * inject_Z n))%Z
      && round_product_agrees_from (n + 1) count
  end.

(** An ordered draw of [k] different positions below [n], and an ordered
    choice of [k] different rows of a cell. *)
Definition is_draw (n k : nat) (a : list nat) : Prop :=
  length a = k ∧ NoDup a ∧ Forall (λ i, i < n) a.

Definition is_pick (cell : list nat) (k : nat) (rows : list nat) : Prop :=
  length rows = k ∧ NoDup rows ∧ rows ⊆ cell.

(** How many of the seeds satisfy [P]. *)
Definition seed_count (P : Z → Prop) `{∀ s, Decision (P s)} (seeds : list Z) : nat :=
  length (filter P seeds).

(** A generator is uniform on a family of seeds, for draws of [k] of [n],
    when every ordered draw comes from the same number of seeds. *)
Definition uniform_draw (draw : Choice) (seeds : list Z) (n k : nat) : Prop :=
  ∀ a b, is_draw n k a → is_draw n k b →
    seed_count (λ s, draw s n k = a) seeds = seed_count (λ s, draw s n k = b) seeds.

(** The order of first appearance of the values of a column. *)
Definition first_appearance (l : Series) : list value :=
  reverse (remove_dups (reverse l)).

(** The inverse of [value_enc]. *)
Definition value_dec (p : Z * list Z) : value :=
  match p with
  | (1, [z]) => VNum z
  | (2, codes) =>
      VStr (String.string_of_list_ascii
              ((λ c, Ascii.ascii_of_N (Z.to_N c)) <$> codes))
  | (3, [t]) => VTime t
  | _ => VNull
  end%Z.

(** [t['grid_id'] = t['grid_id'].astype(int).astype(str)], as the loader
    does it to both tables before the join. *)
Definition cast_grid_id (E : Externals) (t : DataFrame) : result DataFrame :=
  g ← getitem t "grid_id";
  g ← mapM (astype_int E) g;
  setitem t "grid_id" (astype_str E <$> g).

(** What [load_and_sample_df] computes from the contents of its two input
    files, with no world around it. *)
Definition merge_grid_of (E : Externals) (df grid : DataFrame) : result DataFrame :=
  let grid_50km := rename_column "grid_id_10km" "grid_id" grid in
  g ← getitem grid_50km "grid_id";
  g ← mapM (astype_int E) g;
  grid_50km ← setitem grid_50km "grid_id" (astype_str E <$> g);
  d ← getitem df "grid_id";
  d ← mapM (astype_int E) d;
  df ← setitem df "grid_id" (astype_str E <$> d);
  merge_left df grid_50km "grid_id".

Definition sample_of_inputs (E : Externals) (input grid : option DataFrame)
  : result DataFrame :=
  match input with
  | None => Err (FileNotFoundError input_file)
  | Some df =>
      df ← convert_column (to_datetime E) "date" df;
      df ← match grid with Some g => merge_grid_of E df g | None => Ok df end;
      d ← getitem df "date";
      df ← setitem df "year_month" (strftime_Ym E <$> d);
      df_sampled ← groupby_sample (choice E) sampling_frac sampling_seed df
                     ["grid_id_50km"; "year_month"];
      _ ← getitem df_sampled "grid_id";
      _ ← getitem df_sampled "grid_id_50km";
      Ok df_sampled
  end.

(** ** Test doubles

    A small calendar, a generator and a regressor to run the script on
    concrete tables: a date cell holds a day number and a month has thirty
    days; the generator draws the last positions first; the regressor
    remembers its training data and predicts the first training target. *)
Module Demo.
Definition ext : Externals := {|
  to_datetime v :=
    match v with
    | VStr _ => Err (ValueError "unknown datetime string format")
    | VNum z => Ok (VTime z)
    | _ => Ok v
    end;
  strftime_Ym v :=
    match v with VTime t => VStr (pretty (t / 30)%Z) | _ => VNull end;
  astype_int v :=
    match v with
    | VNum _ => Ok v
    | _ => Err (ValueError "cannot convert to integer")
    end;
  astype_str v := match v with VNum z => VStr (pretty z) | _ => v end;
  py_int _ := Ok 1%Z;
  choice _ n k := take k (reverse (seq 0 n));
  write_error _ := None
|}.

Definition lrn : Learner := {|
  Model := DataFrame * Series;
  fit _ X y :=
    if decide (nrows X = 0) then Err (LibraryError "empty training set")
    else Ok (X, y);
  predict m X := Ok (replicate (nrows X) (hd VNull m.2));
  feature_importances m := (λ _, VNum 1) <$> columns m.1;
  r2_score _ _ := Ok (VNum 0);
  mean_squared_error _ _ := Ok (VNum 0);
  math_sqrt v := Ok v
|}.

(** A generator whose draw depends on the seed: the positions from the
    seed on, around the clock. *)
Definition rng : Choice := λ seed n k, take k (rotate (Z.to_nat seed) (seq 0 n)).

(** The same regressor, but its fit fails on a training set whose first
    target is 11 (with [df_ml] below, the one of the tenth fold). *)
Definition lrn_failing : Learner := {|
  Model := DataFrame * Series;
  fit _ X y :=
    if decide (hd VNull y = VNum 11) then Err (LibraryError "fit failed")
    else Ok (X, y);
  predict m X := Ok (replicate (nrows X) (hd VNull m.2));
  feature_importances m := (λ _, VNum 1) <$> columns m.1;
  r2_score _ _ := Ok (VNum 0);
  mean_squared_error _ _ := Ok (VNum 0);
  math_sqrt v := Ok v
|}.

(** Eleven records in ten coarse groups. *)
Definition df_ml : DataFrame := mkDF 11
  [("date", VTime <$> [1; 2; 3; 4; 5; 6; 7; 8; 9; 10; 11]%Z);
   ("grid_id", VStr <$> ["a"; "b"; "c"; "d"; "e"; "f"; "g"; "h"; "i"; "j"; "k"]);
   ("grid_id_50km", VNum <$> [0; 1; 2; 3; 4; 5; 6; 7; 8; 9; 9]%Z);
   ("aod", VNum <$> [10; 11; 12; 13; 14; 15; 16; 17; 18; 19; 20]%Z);
   ("f1", VNum <$> [5; 5; 5; 5; 5; 5; 5; 5; 5; 5; 5]%Z)].

(** Ten records in ten coarse groups, with every column [main] asks for. *)
Definition df_full : DataFrame := mkDF 10
  (("date", replicate 10 (VTime 5)) ::
   ("grid_id", VNum <$> [1; 2; 3; 4; 5; 6; 7; 8; 9; 10]%Z) ::
   ("grid_id_50km", VNum <$> [0; 1; 2; 3; 4; 5; 6; 7; 8; 9]%Z) ::
   ("aod", replicate 10 (VNum 3)) ::
   ((λ c, (c, replicate 10 (VNum 1))) <$> feature_cols)).

(** A feature list that keeps the identifying columns in [X]. *)
Definition features : list string := ["date"; "grid_id"; "f1"].

(** Two records to impute, with every feature column. *)
Definition df_missing : DataFrame := mkDF 2
  (("date", [VTime 40; VTime 41]%Z) ::
   ((λ c, (c, [VNum 1; VNum 2]%Z)) <$> feature_cols)).

Definition w0 : World := mkWorld {[ missing_file := df_missing ]} ∅ [].

(** The same table without the [lat] column. *)
Definition w_nolat : World :=
  mkWorld {[ missing_file := drop_columns ["lat"] df_missing ]} ∅ [].

(** The same table when it already has an [AOD_imputed] column, and its
    dates are numbers. *)
Definition df_again : DataFrame := mkDF 2
  (("date", [VNum 40; VNum 41]%Z) :: ("AOD_imputed", [VNum 7; VNum 8]%Z) ::
   ((λ c, (c, [VNum 1; VNum 2]%Z)) <$> feature_cols)).

Definition w_again : World := mkWorld {[ missing_file := df_again ]} ∅ [].

(** The model of the last fold of [df_ml]: fitted on the rows 1 to 10. *)
Definition cv_model : Model lrn :=
  (mkDF 10 [("f1", replicate 10 (VNum 5))],
   VNum <$> [11; 12; 13; 14; 15; 16; 17; 18; 19; 20]%Z).

(** A model fitted on the 43 covariates of the ten records of [df_full]. *)
Definition full_model : Model lrn :=
  (mkDF 10 ((λ c, (c, replicate 10 (VNum 1))) <$> feature_cols),
   replicate 10 (VNum 3)).

(** One cell of fifty records and one of a single record. *)
Definition df_cells : DataFrame := mkDF 51
  [("grid_id_50km", replicate 50 (VNum 1) ++ [VNum 2]);
   ("year_month", replicate 51 (VStr "2020-01"))].

(** Forty records of one month, twenty in the fine cell 1 and twenty in the
    fine cell 3; a mapping table that knows the fine cells 1 and 2 only. *)
Definition df_forty : DataFrame := mkDF 40
  [("date", replicate 40 (VTime 5));
   ("grid_id", replicate 20 (VNum 1) ++ replicate 20 (VNum 3));
   ("aod", VNum <$> (Z.of_nat <$> seq 0 40))].

Definition grid_half : DataFrame := mkDF 2
  [("grid_id_10km", [VNum 1; VNum 2]);
   ("grid_id_50km", [VNum 100; VNum 100])].

Definition w_grid : World :=
  mkWorld {[ input_file := df_forty; grid_file := grid_half ]} ∅ [].

(** The same two files in a world with another file, a CPU budget and a
    trace of earlier calls. *)
Definition w_grid_later : World :=
  mkWorld {[ input_file := df_forty; grid_file := grid_half;
             missing_file := df_missing ]}
          {[ "SLURM_CPUS_PER_TASK" := "8" ]} [EvFit; EvPredict].

(** What is sampled from it: one of the twenty mapped records. *)
Definition df_forty_sampled : DataFrame := mkDF 1
  [("date", [VTime 5]); ("grid_id", [VStr "1"]); ("aod", [VNum 19]);
   ("grid_id_50km", [VNum 100]); ("year_month", [VStr "0"])].

(** The primary table: six records of the fine cells 1, 2 and 3, none with a
    coarse group of its own; and the world that holds it alone. *)
Definition df_fine : DataFrame := mkDF 6
  [("date", VTime <$> [1; 2; 3; 31; 32; 33]%Z);
   ("grid_id", VNum <$> [1; 2; 3; 1; 2; 3]%Z);
   ("aod", VNum <$> [10; 11; 12; 13; 14; 15]%Z)].

Definition w_nogrid : World := mkWorld {[ input_file := df_fine ]} ∅ [].

(** Three records and a mapping table that lists every fine cell once. *)
Definition df_three : DataFrame := mkDF 3
  [("grid_id", [VStr "1"; VStr "3"; VStr "1"]);
   ("aod", [VNum 10; VNum 11; VNum 12])].

Definition grid_once : DataFrame := mkDF 2
  [("grid_id", [VStr "1"; VStr "2"]);
   ("grid_id_50km", [VNum 100; VNum 100])].

Definition df_three_merged : DataFrame := mkDF 3
  [("grid_id", [VStr "1"; VStr "3"; VStr "1"]);
   ("aod", [VNum 10; VNum 11; VNum 12]);
   ("grid_id_50km", [VNum 100; VNull; VNum 100])].

(** A system that refuses the second file of the first fold, and a loop
    state with the three tables of one fold. *)
Definition ext_locked : Externals := {|
  to_datetime := to_datetime ext;
  strftime_Ym := strftime_Ym ext;
  astype_int := astype_int ext;
  astype_str := astype_str ext;
  py_int := py_int ext;
  choice := choice ext;
  write_error path :=
    if decide (path = "out/fold_1_XGB_traindf.csv")
    then Some (OSError "Cannot save file into a non-existent directory")
    else None
|}.

Definition st_one : cv_state lrn :=
  mkCV lrn [df_three] [df_three_merged] [df_fine] None.

End Demo.

Abbreviation demo_cv_run :=
  (run_outer_cv Demo.ext Demo.lrn Demo.df_ml Demo.features "aod" "grid_id_50km"
     best_params_XGB "out" Demo.w0) (only parsing).

(** * Properties *)

(** ** The two monads *)

Lemma result_bind_Ok {A B} (f : A → result B) (r : result A) (b : B) :
  r ≫= f = Ok b ↔ ∃ a, r = Ok a ∧ f a = Ok b.
Proof.
  destruct r as [a|e]; simpl; split.
  - eauto.
  - by intros (a' & [= <-] & ?).
  - done.
  - by intros (a' & ? & _).
Qed.

Lemma mapM_Ok {A B} (f : A → result B) (l : list A) (k : list B) :
  mapM f l = Ok k ↔ Forall2 (λ x y, f x = Ok y) l k.
Proof.
  revert k. induction l as [|x l IH]; intros k; simpl.
  - split; [intros [= <-]; constructor | by inversion 1].
  - rewrite result_bind_Ok. split.
    + intros (y & Hy & Hk). apply result_bind_Ok in Hk as (k' & Hk' & [= <-]).
      constructor; [done | by apply IH].
    + inversion 1 as [|? y ? k' Hy Hk']; subst. exists y. split; [done|].
      apply result_bind_Ok. exists k'. split; [by apply IH | done].
Qed.

Lemma M_bind_Ok {A B} (f : A → M B) (c : M A) w b w' :
  (c ≫= f) w = (Ok b, w') ↔ ∃ a w1, c w = (Ok a, w1) ∧ f a w1 = (Ok b, w').
Proof.
  unfold mbind, M_bind. destruct (c w) as [[a|e] w1]; split.
  - eauto.
  - by intros (? & ? & [= <- <-] & ?).
  - done.
  - by intros (? & ? & ? & _).
Qed.

Lemma M_bind_Err {A B} (f : A → M B) (c : M A) w e w' :
  (c ≫= f) w = (Err e, w') ↔
  c w = (Err e, w') ∨ ∃ a w1, c w = (Ok a, w1) ∧ f a w1 = (Err e, w').
Proof.
  unfold mbind, M_bind. destruct (c w) as [[a|e1] w1]; split.
  - eauto.
  - intros [? | (? & ? & [= <- <-] & ?)]; done.
  - intros [= <- <-]. by left.
  - intros [[= <- <-] | (? & ? & ? & _)]; done.
Qed.

(** A run that succeeds, split into its value and its final world. *)
Lemma run_fst_eq {A} (r : result A * World) (a : A) :
  r.1 = Ok a → r = (Ok a, r.2).
Proof. destruct r as [r w]; simpl. by intros ->. Qed.

Lemma lift_Ok {A} (r : result A) w a w' :
  lift r w = (Ok a, w') ↔ r = Ok a ∧ w' = w.
Proof. unfold lift. split; [by intros [= -> ->] | by intros [-> ->]]. Qed.

Lemma lift_Err {A} (r : result A) w e w' :
  lift r w = (Err e, w') ↔ r = Err e ∧ w' = w.
Proof. unfold lift. split; [by intros [= -> ->] | by intros [-> ->]]. Qed.

Lemma M_ret_Ok {A} (a b : A) w w' :
  mret (M := M) a w = (Ok b, w') ↔ a = b ∧ w' = w.
Proof. unfold mret, M_ret. split; [by intros [= -> ->] | by intros [-> ->]]. Qed.

(** Invert a successful run of a block, statement by statement. *)
Ltac inv_run :=
  repeat match goal with
  | H : (_ ≫= _) _ = (Ok _, _) |- _ =>
      apply M_bind_Ok in H as (? & ? & ? & H)
  | H : lift _ _ = (Ok _, _) |- _ => apply lift_Ok in H as [H ->]
  | H : mret _ _ = (Ok _, _) |- _ => apply M_ret_Ok in H as [<- ->]
  | H : _ ≫= _ = Ok _ |- _ => apply result_bind_Ok in H as (? & ? & H)
  | H : mret _ = Ok _ |- _ => injection H as <-
  end.

(** ** Data frames *)

Lemma assoc_Some_names c cols s : assoc c cols = Some s → c ∈ cols.*1.
Proof.
  induction cols as [|[c' s'] cols IH]; simpl; [done|].
  case_decide; [intros _; subst; left | intros ?; right; auto].
Qed.

Lemma assoc_None_names c cols : assoc c cols = None ↔ c ∉ cols.*1.
Proof.
  induction cols as [|[c' s'] cols IH]; simpl.
  - split; [intros _; apply not_elem_of_nil | done].
  - rewrite not_elem_of_cons. case_decide as Hc; subst.
    + split; [done | by intros [? _]].
    + rewrite IH. split; [by intros ?; split; [congruence|] | by intros [_ ?]].
Qed.

Lemma getitem_Ok_names df c s : getitem df c = Ok s → c ∈ col_names df.
Proof.
  unfold getitem, col_names. destruct (assoc c (columns df)) eqn:Hc; [|done].
  intros _. by eapply assoc_Some_names.
Qed.

Lemma getitem_present df c : c ∈ col_names df → ∃ s, getitem df c = Ok s.
Proof.
  unfold getitem, col_names. intros Hc.
  destruct (assoc c (columns df)) as [s|] eqn:Hs; [by eexists|].
  by apply assoc_None_names in Hs.
Qed.

Lemma getitem_absent df c : c ∉ col_names df → getitem df c = Err (KeyError c).
Proof.
  unfold getitem, col_names. intros Hc. apply assoc_None_names in Hc. by rewrite Hc.
Qed.

Lemma getitem_list_Ok df cs X :
  getitem_list df cs = Ok X →
  col_names X = cs ∧ nrows X = nrows df ∧ Forall (λ c, c ∈ col_names df) cs.
Proof.
  unfold getitem_list. intros H. inv_run. simpl.
  match goal with H : mapM _ _ = Ok _ |- _ => apply mapM_Ok in H; rename H into HF end.
  unfold col_names; simpl. split; [|split; [done|]].
  - induction HF as [|c [c' s] cs k Hc _ IH]; simpl; [done|].
    apply result_bind_Ok in Hc as (? & _ & [= <- _]). by f_equal.
  - induction HF as [|c [c' s] cs k Hc _ IH]; constructor; [|done].
    apply result_bind_Ok in Hc as (? & Hc & _). by eapply getitem_Ok_names.
Qed.

Lemma getitem_getitem_list df cs X c :
  getitem_list df cs = Ok X → c ∈ cs → getitem X c = getitem df c.
Proof.
  unfold getitem_list. intros H Hc.
  apply result_bind_Ok in H as (cols & Hcols & [= <-]).
  apply mapM_Ok in Hcols. unfold getitem at 1. simpl.
  induction Hcols as [|c0 [c1 s1] cs cols Hc0 _ IH]; [by apply elem_of_nil in Hc|].
  apply result_bind_Ok in Hc0 as (s0 & Hs0 & [= <- <-]). simpl.
  destruct (decide (c0 = c)) as [->|Hne]; [by rewrite Hs0|].
  apply IH. by apply elem_of_cons in Hc as [->|Hc].
Qed.

Lemma getitem_list_absent df cs c :
  c ∈ cs → c ∉ col_names df → ∃ e, getitem_list df cs = Err e.
Proof.
  intros Hin Hc. destruct (getitem_list df cs) as [X|e] eqn:HX; [|eauto].
  apply getitem_list_Ok in HX as (_ & _ & HF).
  rewrite Forall_forall in HF. by destruct Hc; apply HF.
Qed.

Lemma iloc_Ok df idx X :
  iloc df idx = Ok X →
  col_names X = col_names df ∧ nrows X = length idx ∧
  Forall (λ i, i < nrows df) idx ∧
  columns X = prod_map id (λ s, take_at s idx) <$> columns df.
Proof.
  unfold iloc. case_decide; [|done]. intros [= <-]. unfold col_names; simpl.
  split; [|done]. rewrite <-list_fmap_compose. by apply list_fmap_ext; intros ? [].
Qed.

Lemma set_col_names c s cols :
  (set_col c s cols).*1 = if decide (c ∈ cols.*1) then cols.*1 else cols.*1 ++ [c].
Proof.
  induction cols as [|[c' s'] cols IH].
  - destruct (decide (c ∈ [].*1)) as [Hin|_]; [by apply elem_of_nil in Hin | done].
  - destruct (decide (c ∈ ((c', s') :: cols).*1)) as [Hin|Hnin];
      cbn [set_col]; destruct (decide (c' = c)) as [->|Hne]; cbn [fmap list_fmap fst].
    + done.
    + rewrite IH. apply elem_of_cons in Hin as [->|Hin]; [done|].
      by rewrite decide_True.
    + destruct Hnin. left.
    + rewrite IH. rewrite decide_False; [done|]. intros ?. apply Hnin. by right.
Qed.

Lemma assoc_set_col c c' s cols :
  assoc c (set_col c' s cols) = if decide (c' = c) then Some s else assoc c cols.
Proof.
  induction cols as [|[c0 s0] cols IH]; simpl.
  - by destruct (decide (c' = c)).
  - destruct (decide (c0 = c')) as [->|Hne]; simpl.
    + by destruct (decide (c' = c)).
    + rewrite IH. repeat case_decide; congruence.
Qed.

Lemma setitem_Ok df c s df' :
  setitem df c s = Ok df' →
  length s = nrows df ∧ nrows df' = nrows df ∧
  columns df' = set_col c s (columns df).
Proof. unfold setitem. case_decide; [|done]. by intros [= <-]. Qed.

Lemma getitem_setitem df c s df' c' :
  setitem df c s = Ok df' →
  getitem df' c' = if decide (c = c') then Ok s else getitem df c'.
Proof.
  intros (_ & _ & Hcols)%setitem_Ok. unfold getitem. rewrite Hcols, assoc_set_col.
  by destruct (decide (c = c')).
Qed.

Lemma setitem_names df c s df' :
  setitem df c s = Ok df' →
  col_names df' =
    if decide (c ∈ col_names df) then col_names df else col_names df ++ [c].
Proof.
  intros (_ & _ & Hcols)%setitem_Ok. unfold col_names. by rewrite Hcols, set_col_names.
Qed.

Lemma convert_column_Ok f c df df' :
  convert_column f c df = Ok df' →
  ∃ s s', getitem df c = Ok s ∧ mapM f s = Ok s' ∧ setitem df c s' = Ok df'.
Proof. unfold convert_column. intros H. inv_run. eauto. Qed.

Lemma convert_column_names f c df df' :
  convert_column f c df = Ok df' → col_names df' = col_names df.
Proof.
  intros (s & s' & Hs & _ & Hset)%convert_column_Ok.
  rewrite (setitem_names _ _ _ _ Hset). rewrite decide_True; [done|].
  by eapply getitem_Ok_names.
Qed.

(** ** The training tables need the identifying columns (C1) *)

Lemma lift_bind {A B} (r : result A) (k : A → M B) w :
  (lift r ≫= k) w = match r with Ok a => k a w | Err e => (Err e, w) end.
Proof. unfold mbind, M_bind, lift. by destruct r. Qed.

Section FoldTables.
Context (E : Externals) (L : Learner).

(** A fold whose feature matrix has no [date] column stops at the lookup of
    the identifying columns, before anything is fitted or written. *)
Lemma train_fold_needs_date X y params trn_idx val_idx st w :
  "date" ∉ col_names X →
  ∃ e, train_fold E L X y params trn_idx val_idx st w = (Err e, w).
Proof.
  intros Hdate. unfold train_fold.
  rewrite lift_bind. destruct (iloc X trn_idx) as [X_trn|e] eqn:HX; [|eauto].
  rewrite lift_bind. destruct (iloc X val_idx) as [X_val|e]; [|eauto].
  rewrite lift_bind. destruct (iloc_series _ y trn_idx) as [y_trn|e]; [|eauto].
  rewrite lift_bind. destruct (iloc_series _ y val_idx) as [y_val|e]; [|eauto].
  rewrite lift_bind.
  destruct (getitem_list_absent X_trn ["date"; "grid_id"] "date") as [e ->];
    [left | | eauto].
  apply iloc_Ok in HX as (-> & _). done.
Qed.

Lemma GroupKFold_split_length n groups folds :
  GroupKFold_split n groups = Ok folds → length folds = n.
Proof.
  unfold GroupKFold_split. repeat case_decide; try done.
  intros [= <-]. by rewrite length_fmap, length_seq.
Qed.

Lemma run_outer_cv_needs_date df features target group_col params output_dir w :
  "date" ∉ features →
  ∃ e, run_outer_cv E L df features target group_col params output_dir w
       = (Err e, w).
Proof.
  intros Hdate. unfold run_outer_cv.
  rewrite lift_bind. destruct (getitem_list df features) as [X|e] eqn:HX; [|eauto].
  rewrite lift_bind. destruct (getitem df target) as [y|e]; [|eauto].
  rewrite lift_bind. destruct (getitem df group_col) as [groups|e]; [|eauto].
  rewrite lift_bind.
  destruct (GroupKFold_split 10 groups) as [folds|e] eqn:Hf; [|eauto].
  apply GroupKFold_split_length in Hf.
  destruct folds as [|[trn_idx val_idx] rest]; [done|].
  apply getitem_list_Ok in HX as (HX & _).
  destruct (train_fold_needs_date X y params trn_idx val_idx (mkCV L [] [] [] None) w)
    as [e He]; [by rewrite HX|].
  exists e. unfold mbind at 1, M_bind at 1. cbn [cv_loop].
  unfold mbind at 1, M_bind at 1. by rewrite He.
Qed.
End FoldTables.

(** C1: the per-fold training and validation tables are built from the
    feature matrix [X = df[features]], so they can carry the date and the
    fine identifier only if those are among the features.  With the feature
    list that [main] passes, which holds neither, [run_outer_cv] raises on
    every input, whatever the learner, before any table is built or written:
    the world is left as it was. *)
Theorem run_outer_cv_feature_cols_raises :
  ∀ (E : Externals) (L : Learner) (df : DataFrame) (target group_col : string)
    (params : hyperparams) (output_dir : string) (w : World),
  ∃ e, run_outer_cv E L df feature_cols target group_col params output_dir w
       = (Err e, w).
Proof.
  intros. apply run_outer_cv_needs_date.
  by apply (bool_decide_unpack _); vm_compute.
Qed.

(** On a table with every column and ten groups, the run stops at the
    lookup of [date] in the feature matrix of the first fold. *)
Example run_outer_cv_feature_cols_KeyError :
  run_outer_cv Demo.ext Demo.lrn Demo.df_full feature_cols target_col
    "grid_id_50km" best_params_XGB "out" Demo.w0
  = (Err (KeyError "date"), Demo.w0).
Proof. vm_compute. reflexivity. Qed.

(** ** What a run does to the world *)

Lemma only_calls_ret {A} (a : A) : only_calls (mret a).
Proof.
  intros w r w' [= <- <-]. repeat split. exists []. by rewrite app_nil_r.
Qed.

Lemma only_calls_lift {A} (r : result A) : only_calls (lift r).
Proof.
  intros w r' w' [= <- <-]. repeat split. exists []. by rewrite app_nil_r.
Qed.

Lemma only_calls_bind {A B} (c : M A) (k : A → M B) :
  only_calls c → (∀ a, only_calls (k a)) → only_calls (c ≫= k).
Proof.
  intros Hc Hk w r w'. unfold mbind, M_bind.
  destruct (c w) as [[a|e] w1] eqn:Hcw.
  - intros Hka. destruct (Hc _ _ _ Hcw) as (Hf1 & He1 & l1 & Ht1 & Hl1).
    destruct (Hk a _ _ _ Hka) as (Hf2 & He2 & l2 & Ht2 & Hl2).
    split; [congruence|]. split; [congruence|].
    exists (l1 ++ l2). rewrite Ht2, Ht1, (assoc_L (++)). by rewrite Forall_app.
  - intros [= <- <-]. eauto.
Qed.

Lemma only_calls_emit e : is_call e → only_calls (emit e).
Proof.
  intros He w r w' [= <- <-]. simpl. repeat split. exists [e]. by rewrite Forall_singleton.
Qed.

Section Runs.
Context (E : Externals) (L : Learner).

Lemma only_calls_n_jobs : only_calls (n_jobs E).
Proof.
  intros w r w'. unfold n_jobs.
  destruct (environ w !! _); intros [= <- <-]; repeat split;
    exists []; by rewrite app_nil_r.
Qed.

Lemma only_calls_call_fit params X y : only_calls (call_fit L params X y).
Proof.
  apply only_calls_bind; [apply only_calls_emit; by left | intros; apply only_calls_lift].
Qed.

Lemma only_calls_call_predict m X : only_calls (call_predict L m X).
Proof.
  apply only_calls_bind; [apply only_calls_emit; by right | intros; apply only_calls_lift].
Qed.

Lemma only_calls_train_fold X y params trn_idx val_idx st :
  only_calls (train_fold E L X y params trn_idx val_idx st).
Proof.
  unfold train_fold.
  repeat first
    [ apply only_calls_lift | apply only_calls_ret | apply only_calls_n_jobs
    | apply only_calls_call_fit | apply only_calls_call_predict
    | apply only_calls_bind; [|intros ?] ].
Qed.

Lemma only_calls_cv_loop X y params outer_cv st :
  only_calls (cv_loop E L X y params outer_cv st).
Proof.
  revert st. induction outer_cv as [|[trn_idx val_idx] rest IH]; intros st; simpl.
  - apply only_calls_ret.
  - apply only_calls_bind; [apply only_calls_train_fold | intros; apply IH].
Qed.

Lemma n_jobs_Ok w j w' : n_jobs E w = (Ok j, w') → w' = w.
Proof. unfold n_jobs. by destruct (environ w !! _); intros [= _ <-]. Qed.

Lemma call_fit_Ok params X y w m w' :
  call_fit L params X y w = (Ok m, w') ↔
  fit L params X y = Ok m ∧ w' = add_event EvFit w.
Proof.
  unfold call_fit, emit, lift, mbind, M_bind, add_event. simpl.
  split; [by intros [= -> <-] | by intros [-> ->]].
Qed.

Lemma call_predict_Ok m X w s w' :
  call_predict L m X w = (Ok s, w') ↔
  predict L m X = Ok s ∧ w' = add_event EvPredict w.
Proof.
  unfold call_predict, emit, lift, mbind, M_bind, add_event. simpl.
  split; [by intros [= -> <-] | by intros [-> ->]].
Qed.

(** What a fold that completes has done. *)
Lemma train_fold_Ok X y params trn_idx val_idx st w st' w' :
  train_fold E L X y params trn_idx val_idx st w = (Ok st', w') →
  ∃ X_trn X_val y_trn y_val ids_trn ids_val jobs m imp_df y_trn_pred y_val_pred
    train0 train_df eval0 eval_df,
    iloc X trn_idx = Ok X_trn ∧ iloc X val_idx = Ok X_val ∧
    iloc_series (length y) y trn_idx = Ok y_trn ∧
    iloc_series (length y) y val_idx = Ok y_val ∧
    getitem_list X_trn ["date"; "grid_id"] = Ok ids_trn ∧
    setitem ids_trn "y_trn" y_trn = Ok train0 ∧
    getitem_list X_val ["date"; "grid_id"] = Ok ids_val ∧
    setitem ids_val "y_val" y_val = Ok eval0 ∧
    fit L (best_params_of params jobs) (drop_columns drop_cols X_trn) y_trn = Ok m ∧
    importance_frame (col_names (drop_columns drop_cols X_trn))
      (feature_importances L m) = Ok imp_df ∧
    predict L m (drop_columns drop_cols X_trn) = Ok y_trn_pred ∧
    setitem train0 "trn_y_pred" y_trn_pred = Ok train_df ∧
    predict L m (drop_columns drop_cols X_val) = Ok y_val_pred ∧
    setitem eval0 "y_pred" y_val_pred = Ok eval_df ∧
    st' = mkCV L (dfs_importance L st ++ [imp_df]) (train_dfs L st ++ [train_df])
                 (eval_dfs L st ++ [eval_df]) (Some m) ∧
    w' = add_event EvPredict (add_event EvPredict (add_event EvFit w)).
Proof.
  unfold train_fold. intros H. inv_run.
  repeat match goal with
  | H : n_jobs _ _ = (Ok _, _) |- _ => apply n_jobs_Ok in H as ->
  | H : call_fit _ _ _ _ _ = (Ok _, _) |- _ => apply call_fit_Ok in H as [H ->]
  | H : call_predict _ _ _ _ = (Ok _, _) |- _ => apply call_predict_Ok in H as [H ->]
  | H : lift _ _ = (Ok _, _) |- _ => apply lift_Ok in H as [H ->]
  | H : (_ ≫= _) _ = (Ok _, _) |- _ => apply M_bind_Ok in H as (? & ? & ? & H)
  | H : mret _ _ = (Ok _, _) |- _ => apply M_ret_Ok in H as [<- ->]
  end.
  repeat eexists; eauto.
Qed.
End Runs.

(** A fold that completes (so [date] and [grid_id] are among the features)
    leaves the two tables of the claim: the identifying columns, the
    observed and the predicted target, for the rows of its partition. *)
Lemma train_fold_tables E L X y params trn_idx val_idx st w st' w' :
  train_fold E L X y params trn_idx val_idx st w = (Ok st', w') →
  ∃ train_df eval_df,
    last (train_dfs L st') = Some train_df ∧
    last (eval_dfs L st') = Some eval_df ∧
    col_names train_df = ["date"; "grid_id"; "y_trn"; "trn_y_pred"] ∧
    col_names eval_df = ["date"; "grid_id"; "y_val"; "y_pred"] ∧
    nrows train_df = length trn_idx ∧ nrows eval_df = length val_idx.
Proof.
  intros (X_trn & X_val & y_trn & y_val & ids_trn & ids_val & jobs & m & imp &
          ptrn & pval & train0 & train_df & eval0 & eval_df &
          HXt & HXv & _ & _ & Hit & Ht0 & Hiv & He0 & _ & _ & _ & Ht & _ & He &
          -> & _)%train_fold_Ok.
  exists train_df, eval_df. simpl. rewrite !last_snoc.
  apply getitem_list_Ok in Hit as (Hnt & Hrt & _), Hiv as (Hnv & Hrv & _).
  apply iloc_Ok in HXt as (_ & HXt & _), HXv as (_ & HXv & _).
  split; [done|]. split; [done|].
  rewrite (setitem_names _ _ _ _ Ht), (setitem_names _ _ _ _ Ht0), Hnt.
  rewrite (setitem_names _ _ _ _ He), (setitem_names _ _ _ _ He0), Hnv.
  apply setitem_Ok in Ht as (_ & -> & _), Ht0 as (_ & -> & _).
  apply setitem_Ok in He as (_ & -> & _), He0 as (_ & -> & _).
  split; [done|]. split; [done|]. split; congruence.
Qed.

(** ** The training loop and the save loop (C10) *)

Lemma M_bind_run_Ok {A B} (c : M A) (k : A → M B) w a w1 :
  c w = (Ok a, w1) → (c ≫= k) w = k a w1.
Proof. unfold mbind, M_bind. by intros ->. Qed.

Lemma M_bind_run_Err {A B} (c : M A) (k : A → M B) w e w1 :
  c w = (Err e, w1) → (c ≫= k) w = (Err e, w1).
Proof. unfold mbind, M_bind. by intros ->. Qed.

Section Loops.
Context (E : Externals) (L : Learner).

Lemma cv_loop_Ok X y params outer_cv st w st' w' :
  cv_loop E L X y params outer_cv st w = (Ok st', w') →
  length (dfs_importance L st') = length (dfs_importance L st) + length outer_cv ∧
  length (train_dfs L st') = length (train_dfs L st) + length outer_cv ∧
  length (eval_dfs L st') = length (eval_dfs L st) + length outer_cv ∧
  trace w' = trace w ++ concat (replicate (length outer_cv) fold_calls) ∧
  ∀ trn_idx val_idx, last outer_cv = Some (trn_idx, val_idx) →
    ∃ st0 w0, train_fold E L X y params trn_idx val_idx st0 w0 = (Ok st', w').
Proof.
  revert st w. induction outer_cv as [|[trn val] rest IH]; intros st w; simpl.
  - intros [<- ->]%M_ret_Ok. rewrite !Nat.add_0_r, app_nil_r. done.
  - intros (st1 & w1 & H1 & Hrest)%M_bind_Ok.
    destruct (IH _ _ Hrest) as (Hi & Ht & He & Htr & Hlast).
    pose proof H1 as Hfold.
    apply train_fold_Ok in H1
      as (?&?&?&?&?&?&?&?&?&?&?&?&?&?&?&_&_&_&_&_&_&_&_&_&_&_&_&_&_&->&->).
    simpl in *. rewrite length_app in Hi, Ht, He. simpl in *.
    repeat split; [lia.. | |].
    + rewrite Htr. unfold fold_calls. by rewrite <-!(assoc_L (++)).
    + intros trn_idx val_idx Hl. destruct rest as [|p rest].
      * injection Hl as <- <-. apply M_ret_Ok in Hrest as [<- ->]. eauto.
      * by apply Hlast.
Qed.

Lemma cv_loop_model X y params outer_cv st w st' w' :
  cv_loop E L X y params outer_cv st w = (Ok st', w') → outer_cv ≠ [] →
  is_Some (model_xgb L st').
Proof.
  intros Hrun Hne. destruct (last outer_cv) as [[trn val]|] eqn:Hl.
  - apply cv_loop_Ok in Hrun as (_ & _ & _ & _ & Hlast).
    destruct (Hlast _ _ Hl) as (st0 & w0 & Hf).
    apply train_fold_Ok in Hf
      as (?&?&?&?&?&?&?&?&?&?&?&?&?&?&?&_&_&_&_&_&_&_&_&_&_&_&_&_&_&->&_).
    by eexists.
  - by apply last_None in Hl.
Qed.

Lemma to_csv_Ok df path w w' :
  to_csv E df path w = (Ok (), w') ↔
  write_error E path = None ∧
  w' = mkWorld (<[path := df]> (files w)) (environ w) (trace w ++ [EvWrite path]).
Proof.
  unfold to_csv. destruct (write_error E path); split;
    [done | by intros [? _] | by intros [= <-] | by intros [_ ->]].
Qed.

Lemma to_csv_bind {B} df path (k : unit → M B) w :
  (to_csv E df path ≫= k) w =
  match write_error E path with
  | Some e => (Err e, w)
  | None => k () (mkWorld (<[path := df]> (files w)) (environ w)
                    (trace w ++ [EvWrite path]))
  end.
Proof. unfold mbind, M_bind, to_csv. by destruct (write_error E path). Qed.

(** The save loop, however it ends: the paths written are the first of the
    paths of the folds, in their order; every other path is as it was; and
    the loop returns only when every path has been written. *)
Lemma save_loop_run output_dir st fold_ids w :
  ∃ written,
    trace (save_loop E L output_dir st fold_ids w).2
      = trace w ++ (EvWrite <$> written) ∧
    environ (save_loop E L output_dir st fold_ids w).2 = environ w ∧
    written `prefix_of` concat (fold_paths output_dir <$> fold_ids) ∧
    (∀ p, p ∉ written →
       files (save_loop E L output_dir st fold_ids w).2 !! p = files w !! p) ∧
    ((save_loop E L output_dir st fold_ids w).1 = Ok () →
       written = concat (fold_paths output_dir <$> fold_ids)).
Proof.
  revert w. induction fold_ids as [|i rest IH]; intros w.
  { exists []. simpl. rewrite app_nil_r.
    split; [done|]. split; [done|]. split; [done|]. done. }
  cbn [save_loop fmap list_fmap concat fold_paths app].
  set (p1 := fold_file output_dir i "_XGB_feature_importance.csv").
  set (p2 := fold_file output_dir i "_XGB_traindf.csv").
  set (p3 := fold_file output_dir i "_XGB_evaldf.csv").
  set (ps := concat (fold_paths output_dir <$> rest)).
  assert (Hstop0 : ∀ e : exn, ∃ written : list string,
    trace (Err (A := unit) e, w).2 = trace w ++ (EvWrite <$> written) ∧
    environ (Err (A := unit) e, w).2 = environ w ∧
    written `prefix_of` p1 :: p2 :: p3 :: ps ∧
    (∀ p, p ∉ written → files (Err (A := unit) e, w).2 !! p = files w !! p) ∧
    ((Err (A := unit) e, w).1 = Ok () → written = p1 :: p2 :: p3 :: ps)).
  { intros e. exists []. simpl. rewrite app_nil_r.
    split; [done|]. split; [done|]. split; [apply prefix_nil|]. done. }
  rewrite lift_bind. destruct (list_get (dfs_importance L st) i) as [imp|e];
    [|apply Hstop0].
  rewrite to_csv_bind.
  destruct (write_error E p1) as [e|]; [apply Hstop0|]. clear Hstop0.
  set (w1 := mkWorld (<[p1:=imp]> (files w)) (environ w) (trace w ++ [EvWrite p1])).
  assert (Hstop1 : ∀ e : exn, ∃ written : list string,
    trace (Err (A := unit) e, w1).2 = trace w ++ (EvWrite <$> written) ∧
    environ (Err (A := unit) e, w1).2 = environ w ∧
    written `prefix_of` p1 :: p2 :: p3 :: ps ∧
    (∀ p, p ∉ written → files (Err (A := unit) e, w1).2 !! p = files w !! p) ∧
    ((Err (A := unit) e, w1).1 = Ok () → written = p1 :: p2 :: p3 :: ps)).
  { intros e. exists [p1]. simpl.
    split; [done|]. split; [done|]. split; [apply prefix_cons, prefix_nil|].
    split; [|done]. intros p Hp. apply not_elem_of_cons in Hp as [Hp _].
    by rewrite lookup_insert_ne. }
  rewrite lift_bind. destruct (list_get (train_dfs L st) i) as [trn|e];
    [|apply Hstop1].
  rewrite to_csv_bind.
  destruct (write_error E p2) as [e|]; [apply Hstop1|]. clear Hstop1.
  set (w2 := mkWorld (<[p2:=trn]> (files w1)) (environ w1) (trace w1 ++ [EvWrite p2])).
  assert (Hstop2 : ∀ e : exn, ∃ written : list string,
    trace (Err (A := unit) e, w2).2 = trace w ++ (EvWrite <$> written) ∧
    environ (Err (A := unit) e, w2).2 = environ w ∧
    written `prefix_of` p1 :: p2 :: p3 :: ps ∧
    (∀ p, p ∉ written → files (Err (A := unit) e, w2).2 !! p = files w !! p) ∧
    ((Err (A := unit) e, w2).1 = Ok () → written = p1 :: p2 :: p3 :: ps)).
  { intros e. exists [p1; p2]. simpl. rewrite <-(assoc_L (++)).
    split; [done|]. split; [done|].
    split; [apply prefix_cons, prefix_cons, prefix_nil|].
    split; [|done]. intros p Hp. apply not_elem_of_cons in Hp as [Hp1 Hp].
    apply not_elem_of_cons in Hp as [Hp2 _].
    by rewrite !lookup_insert_ne. }
  rewrite lift_bind. destruct (list_get (eval_dfs L st) i) as [evl|e];
    [|apply Hstop2].
  rewrite to_csv_bind.
  destruct (write_error E p3) as [e|]; [apply Hstop2|]. clear Hstop2.
  set (w3 := mkWorld (<[p3:=evl]> (files w2)) (environ w2) (trace w2 ++ [EvWrite p3])).
  destruct (IH w3) as (written & Htr & Henv & Hpre & Hfiles & Hok).
  exists (p1 :: p2 :: p3 :: written).
  split; [|split; [done|split; [|split]]].
  - rewrite Htr. simpl. by rewrite <-!(assoc_L (++)).
  - by do 3 apply prefix_cons.
  - intros p Hp. apply not_elem_of_cons in Hp as [Hp1 Hp].
    apply not_elem_of_cons in Hp as [Hp2 Hp].
    apply not_elem_of_cons in Hp as [Hp3 Hp].
    rewrite Hfiles by done. simpl. by rewrite !lookup_insert_ne.
  - intros Hres. by rewrite (Hok Hres).
Qed.
End Loops.

(** C10: no per-fold file is written before every fold has been fitted and
    evaluated.  The trace of a run of [run_outer_cv] is: calls into the
    regressor, then writes; if there is a write at all, the thirty calls of
    the ten folds are before it, and what is written are the first of the
    thirty paths of the folds, all of them when the run returns; nothing
    else in the store changes.  When the training loop raises (a fit, a
    predict, a metric or a lookup failed in some fold), so does the run,
    with that exception, and it has written nothing: the store is the one
    of before. *)
Theorem run_outer_cv_all_or_nothing :
  ∀ (E : Externals) (L : Learner) (df : DataFrame) (features : list string)
    (target group_col : string) (params : hyperparams) (output_dir : string)
    (w : World),
  let res := run_outer_cv E L df features target group_col params output_dir w in
  (∃ calls written,
     trace res.2 = trace w ++ calls ++ (EvWrite <$> written) ∧
     Forall is_call calls ∧
     written `prefix_of` concat (fold_paths output_dir <$> seq 0 10) ∧
     (written ≠ [] → calls = concat (replicate 10 fold_calls)) ∧
     (∀ p, p ∉ written → files res.2 !! p = files w !! p) ∧
     (∀ m, res.1 = Ok m →
        written = concat (fold_paths output_dir <$> seq 0 10))) ∧
  (∀ X y groups outer_cv e w1,
     getitem_list df features = Ok X → getitem df target = Ok y →
     getitem df group_col = Ok groups →
     GroupKFold_split 10 groups = Ok outer_cv →
     cv_loop E L X y params outer_cv (mkCV L [] [] [] None) w = (Err e, w1) →
     res = (Err e, w1) ∧ files w1 = files w ∧
     ∃ calls, trace w1 = trace w ++ calls ∧ Forall is_call calls).
Proof.
  intros. subst res. split.
  - unfold run_outer_cv.
    assert (Hstop : ∀ e : exn, ∃ (calls : list event) (written : list string),
      trace (Err (A := Model L) e, w).2 = trace w ++ calls ++ (EvWrite <$> written) ∧
      Forall is_call calls ∧
      written `prefix_of` concat (fold_paths output_dir <$> seq 0 10) ∧
      (written ≠ [] → calls = concat (replicate 10 fold_calls)) ∧
      (∀ p, p ∉ written → files (Err (A := Model L) e, w).2 !! p = files w !! p) ∧
      (∀ m, (Err (A := Model L) e, w).1 = Ok m →
         written = concat (fold_paths output_dir <$> seq 0 10))).
    { intros e. exists [], []. simpl. rewrite app_nil_r.
      split; [done|]. split; [done|]. split; [apply prefix_nil|]. done. }
    rewrite lift_bind. destruct (getitem_list df features) as [X|e]; [|apply Hstop].
    rewrite lift_bind. destruct (getitem df target) as [y|e]; [|apply Hstop].
    rewrite lift_bind. destruct (getitem df group_col) as [groups|e]; [|apply Hstop].
    rewrite lift_bind.
    destruct (GroupKFold_split 10 groups) as [outer_cv|e] eqn:Hsplit; [|apply Hstop].
    apply GroupKFold_split_length in Hsplit.
    destruct (cv_loop E L X y params outer_cv (mkCV L [] [] [] None) w)
      as [[st|e] w1] eqn:Hloop.
    + rewrite (M_bind_run_Ok _ _ _ _ _ Hloop).
      pose proof (cv_loop_model _ _ _ _ _ _ _ _ _ _ Hloop) as [m Hm].
      { by destruct outer_cv. }
      pose proof (only_calls_cv_loop _ _ _ _ _ _ _ _ _ _ Hloop) as (Hfw & _).
      apply cv_loop_Ok in Hloop as (_ & _ & _ & Htr & _).
      destruct (save_loop_run E L output_dir st (seq 0 (length outer_cv)) w1)
        as (written & Htr2 & _ & Hpre & Hfiles & Hok).
      unfold mbind, M_bind.
      destruct (save_loop E L output_dir st (seq 0 (length outer_cv)) w1)
        as [[[]|e] w2] eqn:Hsave; rewrite ?Hm; simpl in *;
        exists (concat (replicate 10 fold_calls)), written;
        rewrite Hsplit in *.
      * split; [by rewrite Htr2, Htr, <-(assoc_L (++))|].
        split; [|split; [done|split; [done|split]]].
        -- apply Forall_concat, Forall_replicate. unfold fold_calls.
           repeat apply Forall_cons_2; [by left | by right | by right | done].
        -- intros p Hp. by rewrite Hfiles, Hfw.
        -- intros _ _. by apply Hok.
      * split; [by rewrite Htr2, Htr, <-(assoc_L (++))|].
        split; [|split; [done|split; [done|split; [|done]]]].
        -- apply Forall_concat, Forall_replicate. unfold fold_calls.
           repeat apply Forall_cons_2; [by left | by right | by right | done].
        -- intros p Hp. by rewrite Hfiles, Hfw.
    + rewrite (M_bind_run_Err _ _ _ _ _ Hloop). simpl.
      apply only_calls_cv_loop in Hloop as (Hf & _ & calls & Htr & Hcalls).
      exists calls, []. simpl. rewrite app_nil_r.
      split; [done|]. split; [done|]. split; [apply prefix_nil|].
      split; [done|]. split; [|done]. intros p _. by rewrite Hf.
  - intros X y groups outer_cv e w1 HX Hy Hg Hsplit Hloop.
    unfold run_outer_cv. rewrite lift_bind, HX, lift_bind, Hy, lift_bind, Hg.
    rewrite lift_bind, Hsplit. rewrite (M_bind_run_Err _ _ _ _ _ Hloop).
    split; [done|].
    apply only_calls_cv_loop in Hloop as (Hf & _ & calls & Htr & Hcalls). eauto.
Qed.

(** Nine folds fitted and evaluated, the fit of the tenth raises: the trace
    holds the calls, no file is written. *)
Example run_outer_cv_failing_fit_writes_nothing :
  run_outer_cv Demo.ext Demo.lrn_failing Demo.df_ml Demo.features "aod"
    "grid_id_50km" best_params_XGB "out" Demo.w0
  = (Err (LibraryError "fit failed"),
     mkWorld (files Demo.w0) (environ Demo.w0)
       (concat (replicate 9 fold_calls) ++ [EvFit])).
Proof. vm_compute. reflexivity. Qed.

(** X1: [main] never reaches the imputation; it raises on every world and
    with every learner, at the latest in the first fold of [run_outer_cv]. *)
Lemma main_raises (E : Externals) (L : Learner) (w : World) :
  ∃ e w', main E L w = (Err e, w').
Proof.
  unfold main.
  destruct (load_and_sample_df E w) as [[df_sampled|e] w1] eqn:Hload;
    [|rewrite (M_bind_run_Err _ _ _ _ _ Hload); eauto].
  rewrite (M_bind_run_Ok _ _ _ _ _ Hload).
  unfold mbind at 1, M_bind at 1, read_csv at 1.
  destruct (files w1 !! ml_input_file) as [df_ml|]; [|eauto].
  rewrite lift_bind. destruct (convert_column _ _ _) as [df1|e]; [|eauto].
  rewrite lift_bind. destruct (getitem df1 "grid_id") as [g|e]; [|eauto].
  rewrite lift_bind. destruct (setitem df1 _ _) as [df2|e]; [|eauto].
  destruct (run_outer_cv_needs_date E L df2 feature_cols target_col "grid_id_50km"
              best_params_XGB OUTPUT_ML_DIR w1) as [e He].
  { by apply (bool_decide_unpack _); vm_compute. }
  rewrite (M_bind_run_Err _ _ _ _ _ He). eauto.
Qed.

(** ** The imputation step (C5, C8) *)

Section Imputation.
Context (E : Externals) (L : Learner).

Lemma read_csv_Ok path w df w' :
  read_csv path w = (Ok df, w') ↔ files w !! path = Some df ∧ w' = w.
Proof.
  unfold read_csv. destruct (files w !! path) as [df'|]; split;
    [by intros [= <- <-] | by intros [[= <-] ->] | done | by intros [? _]].
Qed.

Lemma final_imputation_Ok m w w' :
  final_imputation E L m w = (Ok (), w') →
  ∃ df_missing df_dated X_fin pred df_out,
    files w !! missing_file = Some df_missing ∧
    convert_column (to_datetime E) "date" df_missing = Ok df_dated ∧
    getitem_list df_dated feature_cols = Ok X_fin ∧
    predict L m X_fin = Ok pred ∧
    setitem df_dated "AOD_imputed" pred = Ok df_out ∧
    files w' = <[imputed_out := df_out]> (files w) ∧
    environ w' = environ w ∧
    trace w' = trace w ++ [EvPredict; EvWrite imputed_out].
Proof.
  unfold final_imputation. intros H.
  apply M_bind_Ok in H as (df_missing & ? & [Hread ->]%read_csv_Ok & H).
  apply M_bind_Ok in H as (df_dated & ? & [Hdate ->]%lift_Ok & H).
  apply M_bind_Ok in H as (X_fin & ? & [HX ->]%lift_Ok & H).
  apply M_bind_Ok in H as (pred & ? & [Hpred ->]%call_predict_Ok & H).
  apply M_bind_Ok in H as (df_out & ? & [Hset ->]%lift_Ok & H).
  apply to_csv_Ok in H as [_ ->]. exists df_missing, df_dated, X_fin, pred, df_out.
  simpl. by rewrite <-(assoc_L (++)).
Qed.

End Imputation.

(** C5: a missing-target table that lacks a feature column makes the
    imputation step raise at the selection of the feature columns, before
    [predict] is called: the world, and so the trace of calls and the files,
    is the one the step started in. *)
Theorem final_imputation_missing_feature :
  ∀ (E : Externals) (L : Learner) (m : Model L) (w : World)
    (df_missing : DataFrame) (c : string),
  files w !! missing_file = Some df_missing →
  c ∈ feature_cols → c ∉ col_names df_missing →
  ∃ e, final_imputation E L m w = (Err e, w).
Proof.
  intros * Hfile Hc Habs. unfold final_imputation.
  rewrite (M_bind_run_Ok _ _ _ df_missing w) by (by apply read_csv_Ok).
  rewrite lift_bind.
  destruct (convert_column (to_datetime E) "date" df_missing) as [df_dated|e] eqn:Hd;
    [|eauto].
  rewrite lift_bind. apply convert_column_names in Hd.
  destruct (getitem_list_absent df_dated feature_cols c) as [e ->]; [done | | eauto].
  by rewrite Hd.
Qed.

Lemma final_imputation_missing_feature_witness :
  ∃ e, final_imputation Demo.ext Demo.lrn Demo.cv_model Demo.w_nolat
       = (Err e, Demo.w_nolat).
Proof.
  apply (final_imputation_missing_feature Demo.ext Demo.lrn Demo.cv_model
           Demo.w_nolat (drop_columns ["lat"] Demo.df_missing) "lat").
  - apply lookup_singleton_eq.
  - by apply (bool_decide_unpack _); vm_compute.
  - by apply (bool_decide_unpack _); vm_compute.
Defined.

(** C8, as stated, fails: on a table that already has an [AOD_imputed]
    column the step adds no column, it overwrites that one, so a
    pre-existing column does not keep its values and there is no
    new column; and a date column held as numbers comes out as timestamps. *)
Lemma final_imputation_overwrites_existing_column :
  (final_imputation Demo.ext Demo.lrn Demo.full_model Demo.w_again).1 = Ok () ∧
  files Demo.w_again !! missing_file = Some Demo.df_again ∧
  ∃ df_out,
    files (final_imputation Demo.ext Demo.lrn Demo.full_model Demo.w_again).2
      !! imputed_out = Some df_out ∧
    getitem Demo.df_again "AOD_imputed" = Ok [VNum 7; VNum 8] ∧
    getitem df_out "AOD_imputed" = Ok [VNum 3; VNum 3] ∧
    col_names df_out = col_names Demo.df_again ∧
    getitem Demo.df_again "date" = Ok [VNum 40; VNum 41] ∧
    getitem df_out "date" = Ok [VTime 40; VTime 41].
Proof.
  split; [by vm_compute|]. split; [apply lookup_singleton_eq|].
  exists (mkDF 2
    (("date", [VTime 40; VTime 41]%Z) :: ("AOD_imputed", [VNum 3; VNum 3]%Z) ::
     ((λ c, (c, [VNum 1; VNum 2]%Z)) <$> feature_cols))).
  repeat split; by vm_compute.
Qed.

(** C8, amended: the imputation step writes one file, the missing-target
    table with the same rows, in which every column other than [date] and
    [AOD_imputed] is the input's; [date] holds the input's dates converted
    by [to_datetime]; [AOD_imputed] holds the prediction, as a new last
    column when the input has none of that name and in place otherwise.
    The prediction is what the model it is given returns, in one call of
    [predict], on the 43 feature columns of the input, which reach it with
    the input's values. *)
Theorem final_imputation_frame :
  ∀ (E : Externals) (L : Learner) (m : Model L) (w w' : World),
  final_imputation E L m w = (Ok (), w') →
  ∃ df_in X_fin pred df_out,
    files w !! missing_file = Some df_in ∧
    col_names X_fin = feature_cols ∧ nrows X_fin = nrows df_in ∧
    (∀ c, c ∈ feature_cols → getitem X_fin c = getitem df_in c) ∧
    predict L m X_fin = Ok pred ∧
    trace w' = trace w ++ [EvPredict; EvWrite imputed_out] ∧
    files w' = <[imputed_out := df_out]> (files w) ∧
    nrows df_out = nrows df_in ∧
    (∀ c, c ≠ "date" → c ≠ "AOD_imputed" → getitem df_out c = getitem df_in c) ∧
    (∃ d d', getitem df_in "date" = Ok d ∧ mapM (to_datetime E) d = Ok d' ∧
             getitem df_out "date" = Ok d') ∧
    getitem df_out "AOD_imputed" = Ok pred ∧ length pred = nrows df_in ∧
    col_names df_out =
      (if decide ("AOD_imputed" ∈ col_names df_in) then col_names df_in
       else col_names df_in ++ ["AOD_imputed"]).
Proof.
  intros * H. apply final_imputation_Ok in H
    as (df_in & df_dated & X_fin & pred & df_out & Hin & Hdate & HX & Hpred & Hset &
        Hf & _ & Htr).
  exists df_in, X_fin, pred, df_out. split; [done|].
  pose proof (convert_column_names _ _ _ _ Hdate) as Hnames.
  apply convert_column_Ok in Hdate as (d & d' & Hd & Hd' & Hsetd).
  pose proof (setitem_Ok _ _ _ _ Hset) as (Hlen & Hrows & _).
  pose proof (setitem_Ok _ _ _ _ Hsetd) as (_ & Hrows' & _).
  pose proof (getitem_list_Ok _ _ _ HX) as (HXn & HXr & _).
  split; [done|]. split; [congruence|]. split.
  { intros c Hc. rewrite (getitem_getitem_list _ _ _ _ HX Hc).
    rewrite (getitem_setitem _ _ _ _ c Hsetd), decide_False; [done|].
    intros <-. revert Hc. by apply (bool_decide_unpack _); vm_compute. }
  split; [done|]. split; [done|]. split; [done|].
  split; [congruence|]. split; [|split; [|split; [|split; [congruence|]]]].
  - intros c Hc1 Hc2.
    rewrite (getitem_setitem _ _ _ _ c Hset), decide_False by done.
    by rewrite (getitem_setitem _ _ _ _ c Hsetd), decide_False.
  - exists d, d'. split; [done|]. split; [done|].
    rewrite (getitem_setitem _ _ _ _ "date" Hset), decide_False by done.
    by rewrite (getitem_setitem _ _ _ _ "date" Hsetd), decide_True.
  - by rewrite (getitem_setitem _ _ _ _ "AOD_imputed" Hset), decide_True.
  - by rewrite (setitem_names _ _ _ _ Hset), Hnames.
Qed.

Lemma final_imputation_frame_witness :
  final_imputation Demo.ext Demo.lrn Demo.full_model Demo.w0
    = (Ok (), (final_imputation Demo.ext Demo.lrn Demo.full_model Demo.w0).2) ∧
  ∃ df_in X_fin pred df_out,
    files Demo.w0 !! missing_file = Some df_in ∧
    predict Demo.lrn Demo.full_model X_fin = Ok pred ∧
    files (final_imputation Demo.ext Demo.lrn Demo.full_model Demo.w0).2
      = <[imputed_out := df_out]> (files Demo.w0) ∧
    getitem df_out "AOD_imputed" = Ok pred ∧
    getitem df_out "lat" = getitem df_in "lat".
Proof.
  assert (H : final_imputation Demo.ext Demo.lrn Demo.full_model Demo.w0
    = (Ok (), (final_imputation Demo.ext Demo.lrn Demo.full_model Demo.w0).2)).
  { refine (run_fst_eq (final_imputation Demo.ext Demo.lrn Demo.full_model Demo.w0)
              () _). vm_compute. reflexivity. }
  split; [exact H|].
  destruct (final_imputation_frame Demo.ext Demo.lrn Demo.full_model Demo.w0
              (final_imputation Demo.ext Demo.lrn Demo.full_model Demo.w0).2 H)
    as (df_in & X_fin & pred & df_out & Hin & _ & _ & _ & Hpred & _ & Hout & _ &
        Hframe & _ & Himp & _).
  exists df_in, X_fin, pred, df_out. split; [exact Hin|]. split; [exact Hpred|].
  split; [exact Hout|]. split; [exact Himp|].
  apply Hframe; discriminate.
Defined.

(** ** GroupKFold (C3) *)

Lemma argmin_lt (l : list nat) : l ≠ [] → argmin l < length l.
Proof.
  intros Hl. unfold argmin.
  destruct (list_find (λ x, x = min_list l) l) as [[i x]|] eqn:Hf; simpl.
  - apply list_find_Some in Hf as (Hi & _). by eapply lookup_lt_Some.
  - destruct l; [done | simpl; lia].
Qed.

Lemma assign_step_inv n counts st gi :
  0 < n → length st.1 = n → Forall (λ f, f < n) st.2 →
  length (assign_step counts st gi).1 = n ∧
  Forall (λ f, f < n) (assign_step counts st gi).2.
Proof.
  intros Hn Hlen Hall. unfold assign_step; simpl. split.
  - by rewrite length_alter.
  - destruct (decide (gi < length st.2)) as [Hgi|Hgi].
    + apply Forall_insert; [done|]. rewrite <-Hlen. apply argmin_lt.
      intros Hnil. rewrite Hnil in Hlen. simpl in Hlen. lia.
    + rewrite list_insert_ge by lia. done.
Qed.

Lemma group_to_fold_lt n counts i : 0 < n → group_to_fold n counts !!! i < n.
Proof.
  intros Hn. unfold group_to_fold.
  assert (Hinv : ∀ order st, length st.1 = n → Forall (λ f, f < n) st.2 →
            Forall (λ f, f < n) (foldl (assign_step counts) st order).2).
  { induction order as [|gi order IH]; intros st Hlen Hall; simpl; [done|].
    destruct (assign_step_inv n counts st gi Hn Hlen Hall). by apply IH. }
  specialize (Hinv (reverse (argsort counts))
                (replicate n 0, replicate (length counts) 0)).
  simpl in Hinv. rewrite length_replicate in Hinv.
  specialize (Hinv eq_refl).
  assert (Hz : Forall (λ f, f < n) (replicate (length counts) 0))
    by (by apply Forall_replicate).
  specialize (Hinv Hz).
  rewrite list_lookup_total_alt.
  match goal with |- default _ (?l !! i) < _ => destruct (l !! i) as [f|] eqn:Hi end;
    simpl; [|done].
  by eapply Forall_lookup_1 in Hinv.
Qed.

Lemma fold_of_group_lt n groups g : 0 < n → fold_of_group n groups g < n.
Proof. intros. by apply group_to_fold_lt. Qed.

Lemma elem_of_test_indices n groups f i :
  i ∈ test_indices n groups f ↔
  i < length groups ∧ fold_of_group n groups (groups !!! i) = f.
Proof.
  unfold test_indices. rewrite list_elem_of_filter, elem_of_seq. intuition lia.
Qed.

Lemma elem_of_train_indices n groups f i :
  i ∈ train_indices n groups f ↔
  i < length groups ∧ fold_of_group n groups (groups !!! i) ≠ f.
Proof.
  unfold train_indices. rewrite list_elem_of_filter, elem_of_seq. intuition lia.
Qed.

Lemma GroupKFold_split_lookup n groups outer_cv f trn val :
  GroupKFold_split n groups = Ok outer_cv → outer_cv !! f = Some (trn, val) →
  f < n ∧ 2 ≤ n ∧ trn = train_indices n groups f ∧ val = test_indices n groups f.
Proof.
  unfold GroupKFold_split. repeat case_decide; try done. intros [= <-].
  rewrite list_lookup_fmap. intros Hf.
  destruct (seq 0 n !! f) as [f'|] eqn:Hseq; [|done].
  apply lookup_seq in Hseq as [-> ?]. simpl in Hf. injection Hf as <- <-.
  repeat split; [done | lia].
Qed.

(** C3: the ten validation sets of a GroupKFold partition are pairwise
    disjoint and cover the index set (every row is in the validation set of
    exactly one fold), the training set of a fold is the rest of the rows,
    no group has rows on both sides of a fold, and every group is validated
    in exactly one fold. *)
Theorem GroupKFold_split_partition :
  ∀ (groups : Series) (outer_cv : list (list nat * list nat)),
  GroupKFold_split 10 groups = Ok outer_cv →
  length outer_cv = 10 ∧
  (∀ i, i < length groups →
     ∃ f, f < 10 ∧ ∀ f' trn val, outer_cv !! f' = Some (trn, val) →
       (i ∈ val ↔ f' = f)) ∧
  (∀ f trn val, outer_cv !! f = Some (trn, val) →
     NoDup val ∧ NoDup trn ∧
     (∀ i, i ∈ val → i < length groups) ∧
     (∀ i, i ∈ trn ↔ i < length groups ∧ i ∉ val)) ∧
  (∀ f trn val i j, outer_cv !! f = Some (trn, val) →
     i ∈ trn → j ∈ val → groups !!! i ≠ groups !!! j) ∧
  (∀ g, g ∈ groups →
     ∃ f, f < 10 ∧ ∀ f' trn val, outer_cv !! f' = Some (trn, val) →
       ((∃ j, j ∈ val ∧ groups !!! j = g) ↔ f' = f)).
Proof.
  intros groups outer_cv Hsplit.
  split; [by eapply GroupKFold_split_length|].
  split; [|split; [|split]].
  - intros i Hi. exists (fold_of_group 10 groups (groups !!! i)).
    split; [apply fold_of_group_lt; lia|]. intros f' trn val Hf'.
    destruct (GroupKFold_split_lookup _ _ _ _ _ _ Hsplit Hf') as (_ & _ & _ & ->).
    rewrite elem_of_test_indices. split; [by intros [_ <-] | by intros ->].
  - intros f trn val Hf.
    destruct (GroupKFold_split_lookup _ _ _ _ _ _ Hsplit Hf) as (_ & _ & -> & ->).
    split; [apply NoDup_filter, NoDup_seq|].
    split; [apply NoDup_filter, NoDup_seq|].
    split; intros i; rewrite ?elem_of_train_indices, elem_of_test_indices; tauto.
  - intros f trn val i j Hf.
    destruct (GroupKFold_split_lookup _ _ _ _ _ _ Hsplit Hf) as (_ & _ & -> & ->).
    rewrite elem_of_train_indices, elem_of_test_indices.
    intros [_ Hi] [_ Hj] Heq. by rewrite Heq in Hi.
  - intros g Hg. exists (fold_of_group 10 groups g).
    split; [apply fold_of_group_lt; lia|]. intros f' trn val Hf'.
    destruct (GroupKFold_split_lookup _ _ _ _ _ _ Hsplit Hf') as (_ & _ & _ & ->).
    split.
    + intros (j & Hj & <-). by apply elem_of_test_indices in Hj as [_ ?].
    + intros ->. apply list_elem_of_lookup in Hg as [j Hj]. exists j.
      rewrite elem_of_test_indices, (list_lookup_total_correct _ _ _ Hj).
      split; [|done]. split; [by eapply lookup_lt_Some | done].
Qed.

Lemma GroupKFold_split_partition_witness :
  ∃ outer_cv,
    GroupKFold_split 10 (VNum <$> [0; 0; 1; 2; 3; 4; 5; 6; 7; 8; 9; 10]%Z)
      = Ok outer_cv ∧
    length outer_cv = 10 ∧
    ∀ f trn val i j, outer_cv !! f = Some (trn, val) → i ∈ trn → j ∈ val →
      (VNum <$> [0; 0; 1; 2; 3; 4; 5; 6; 7; 8; 9; 10]%Z) !!! i
      ≠ (VNum <$> [0; 0; 1; 2; 3; 4; 5; 6; 7; 8; 9; 10]%Z) !!! j.
Proof.
  eexists. split; [vm_compute; reflexivity|].
  match goal with |- length ?cv = _ ∧ _ =>
    destruct (GroupKFold_split_partition
                (VNum <$> [0; 0; 1; 2; 3; 4; 5; 6; 7; 8; 9; 10]%Z) cv)
      as (Hlen & _ & _ & Hsep & _) end.
  - vm_compute; reflexivity.
  - split; [exact Hlen | exact Hsep].
Defined.

(** ** Loading without the mapping table (C9) *)

Lemma groupby_sample_absent_key choice frac seed df key keys :
  key ∉ col_names df →
  groupby_sample choice frac seed df (key :: keys) = Err (KeyError key).
Proof.
  intros Hkey. unfold groupby_sample. simpl. by rewrite (getitem_absent _ _ Hkey).
Qed.

(** C9: with no mapping file the merge is skipped, the table goes on as it
    was loaded, and when it has no [grid_id_50km] column the grouping raises
    KeyError on that label: [load_and_sample_df] and [main] stop there, with
    nothing written. *)
Theorem load_and_sample_df_without_grid :
  ∀ (E : Externals) (w : World) (df df_dated : DataFrame),
  files w !! input_file = Some df →
  files w !! grid_file = None →
  convert_column (to_datetime E) "date" df = Ok df_dated →
  "grid_id_50km" ∉ col_names df →
  load_and_sample_df E w = (Err (KeyError "grid_id_50km"), w) ∧
  ∀ L : Learner, main E L w = (Err (KeyError "grid_id_50km"), w).
Proof.
  intros * Hin Hgrid Hdate Hcol.
  assert (Hload : load_and_sample_df E w = (Err (KeyError "grid_id_50km"), w)).
  { unfold load_and_sample_df.
    rewrite (M_bind_run_Ok _ _ _ df w) by (by apply read_csv_Ok).
    rewrite lift_bind, Hdate.
    rewrite (M_bind_run_Ok (path_exists grid_file) _ _ false w)
      by (unfold path_exists; by rewrite Hgrid).
    rewrite (M_bind_run_Ok (mret df_dated) _ _ df_dated w) by done.
    pose proof (convert_column_names _ _ _ _ Hdate) as Hnames.
    apply convert_column_Ok in Hdate as (d & d' & Hd & Hd' & Hset).
    rewrite lift_bind, (getitem_setitem _ _ _ _ "date" Hset), decide_True by done.
    apply setitem_Ok in Hset as (Hlen & Hrows & _).
    rewrite lift_bind. unfold setitem at 1.
    rewrite decide_True by (by rewrite length_fmap, Hrows).
    rewrite lift_bind, groupby_sample_absent_key; [done|].
    unfold col_names; simpl. rewrite set_col_names. fold (col_names df_dated).
    rewrite Hnames. case_decide; [done|].
    rewrite not_elem_of_app, not_elem_of_cons. split; [done|]. split; [done|].
    apply not_elem_of_nil. }
  split; [done|]. intros L. unfold main. by rewrite (M_bind_run_Err _ _ _ _ _ Hload).
Qed.

Lemma load_and_sample_df_without_grid_witness :
  load_and_sample_df Demo.ext Demo.w_nogrid
    = (Err (KeyError "grid_id_50km"), Demo.w_nogrid) ∧
  ∀ L : Learner, main Demo.ext L Demo.w_nogrid
    = (Err (KeyError "grid_id_50km"), Demo.w_nogrid).
Proof.
  apply (load_and_sample_df_without_grid Demo.ext Demo.w_nogrid Demo.df_fine
           Demo.df_fine).
  - apply lookup_singleton_eq.
  - by vm_compute.
  - by vm_compute.
  - by apply (bool_decide_unpack _); vm_compute.
Defined.

(** ** The grouped sampler (C2, C7) *)

(** The exact rounding of a fraction of [n] is between nothing and [n]. *)
Lemma py_round_range (frac : Q) (n : nat) :
  (0 <= frac)%Q → (frac <= 1)%Q →
  (0 ≤ py_round (frac * inject_Z (Z.of_nat n)) ≤ Z.of_nat n)%Z.
Proof.
  destruct frac as [a b]. unfold Qle, py_round; simpl.
  rewrite Pos.mul_1_r, !Z.mul_1_r. intros Ha Hb.
  pose proof (Z.div_mod (a * Z.of_nat n) (Z.pos b) ltac:(lia)) as Hdm.
  pose proof (Z.mod_pos_bound (a * Z.of_nat n) (Z.pos b) ltac:(lia)) as Hr.
  set (q := (a * Z.of_nat n / Z.pos b)%Z) in *.
  set (r := (a * Z.of_nat n mod Z.pos b)%Z) in *.
  assert (0 ≤ q)%Z by (apply Z.div_pos; nia).
  assert (q ≤ Z.of_nat n)%Z by nia.
  assert (q = Z.of_nat n → r = 0)%Z by nia.
  repeat case_decide; try lia; destruct (Z.even q); lia.
Qed.

(** X2: the exact rounding of 0.03 n that the model uses is what pandas
    computes in binary64, for every cell of up to a hundred thousand rows. *)
Lemma py_round_is_binary64 :
  binary64_agrees_from 0 (Z.to_nat 100001) = true.
Proof. vm_compute. reflexivity. Qed.

(** The size the sampler asks for with the script's fraction is the exact
    rounding of 0.03 n, on every size up to a hundred thousand: by
    computation, size by size. *)
Lemma round_product_agrees_from_spec (count : nat) :
  ∀ n m : Z, round_product_agrees_from n count = true →
    (n ≤ m < n + Z.of_nat count)%Z →
    round_product sampling_frac m = py_round (0.03 * inject_Z m).
Proof.
  induction count as [|count IH]; intros n m Hcheck Hm; [lia|].
  cbn [round_product_agrees_from] in Hcheck.
  apply andb_prop in Hcheck as [Hn Hrest].
  destruct (decide (m = n)) as [->|Hne]; [by apply Z.eqb_eq|].
  apply (IH (n + 1)%Z); [done | lia].
Qed.

Lemma round_product_checked :
  round_product_agrees_from 0 (Z.to_nat 100001) = true.
Proof. vm_compute. reflexivity. Qed.

Lemma sample_size_run (n : nat) :
  sample_size sampling_frac n
  = Ok (Z.to_nat (round_product sampling_frac (Z.of_nat n))).
Proof. reflexivity. Qed.

Lemma sample_size_exact (n : nat) :
  (Z.of_nat n ≤ 100000)%Z →
  sample_size sampling_frac n
  = Ok (Z.to_nat (py_round (0.03 * inject_Z (Z.of_nat n)))).
Proof.
  intros Hn. rewrite sample_size_run. do 2 f_equal.
  apply (round_product_agrees_from_spec _ 0 _ round_product_checked). lia.
Qed.

Lemma sample_size_exact_le (n : nat) :
  (Z.of_nat n ≤ 100000)%Z → ∃ k, sample_size sampling_frac n = Ok k ∧ k ≤ n ∧
    Z.of_nat k = py_round (0.03 * inject_Z (Z.of_nat n)).
Proof.
  intros Hn. eexists. split; [by apply sample_size_exact|].
  pose proof (py_round_range 0.03 n) as Hr.
  assert (0 ≤ py_round (0.03 * inject_Z (Z.of_nat n)) ≤ Z.of_nat n)%Z
    by (apply Hr; by vm_compute).
  lia.
Qed.

Lemma mapM_total {A B} (f : A → result B) (l : list A) :
  Forall (λ x, ∃ y, f x = Ok y) l → ∃ k, mapM f l = Ok k.
Proof.
  induction 1 as [|x l [y Hy] _ [k Hk]]; simpl; [by eexists|].
  rewrite Hy; simpl. rewrite Hk; simpl. by eexists.
Qed.

Lemma elem_of_concat {A} (x : A) (ls : list (list A)) :
  x ∈ concat ls ↔ ∃ l, l ∈ ls ∧ x ∈ l.
Proof.
  induction ls as [|l ls IH]; simpl.
  - split; [by intros ?%elem_of_nil | by intros (? & ?%elem_of_nil & _)].
  - rewrite elem_of_app, IH. split.
    + intros [Hx | (l' & Hl' & Hx)].
      * exists l. split; [left | done].
      * exists l'. split; [by right | done].
    + intros (l' & [-> | Hl']%elem_of_cons & Hx); [by left | right; eauto].
Qed.

Lemma take_at_subseteq (rows idx : list nat) :
  Forall (λ i, i < length rows) idx → take_at rows idx ⊆ rows.
Proof.
  intros Hidx x (i & -> & Hi)%list_elem_of_fmap.
  rewrite Forall_forall in Hidx. apply Hidx in Hi.
  apply lookup_lt_is_Some_2 in Hi as [r Hr].
  rewrite (list_lookup_total_correct _ _ _ Hr). by eapply list_elem_of_lookup_2.
Qed.

Lemma take_at_NoDup (rows idx : list nat) :
  NoDup rows → NoDup idx → Forall (λ i, i < length rows) idx →
  NoDup (take_at rows idx).
Proof.
  intros Hrows Hidx Hlt. apply NoDup_fmap_2_strong; [|done].
  rewrite Forall_forall in Hlt. intros i j Hi Hj Heq.
  apply Hlt in Hi, Hj.
  apply lookup_lt_is_Some_2 in Hi as [x Hx], Hj as [y Hy].
  rewrite (list_lookup_total_correct _ _ _ Hx),
          (list_lookup_total_correct _ _ _ Hy) in Heq. subst y.
  exact (NoDup_lookup rows i j x Hrows Hx Hy).
Qed.

(** Positions are told apart by the rows they select. *)
Lemma take_at_inj (rows a b : list nat) :
  NoDup rows → Forall (λ i, i < length rows) a → Forall (λ i, i < length rows) b →
  take_at rows a = take_at rows b → a = b.
Proof.
  intros Hrows Ha. revert b. induction Ha as [|i a Hi _ IH]; intros b Hb Heq.
  - destruct b; [done | discriminate Heq].
  - destruct Hb as [|j b Hj Hb]; [discriminate Heq|].
    injection Heq as Hij Heq. f_equal; [|by apply IH].
    apply lookup_lt_is_Some_2 in Hi as [x Hx], Hj as [y Hy].
    rewrite (list_lookup_total_correct _ _ _ Hx),
            (list_lookup_total_correct _ _ _ Hy) in Hij. subst y.
    exact (NoDup_lookup rows i j x Hrows Hx Hy).
Qed.

(** Every ordered choice of rows of a cell is selected by one draw. *)
Lemma is_pick_draw (cell rows : list nat) (k : nat) :
  is_pick cell k rows →
  ∃ a, is_draw (length cell) k a ∧ take_at cell a = rows.
Proof.
  intros (Hlen & Hnd & Hsub). subst k.
  assert (Hex : ∃ a, length a = length rows ∧
            Forall (λ i, i < length cell) a ∧ take_at cell a = rows).
  { clear Hnd. induction rows as [|x rows IH]; [by exists []|].
    destruct IH as (a & Hla & Ha & Htk).
    { intros y Hy. apply Hsub. by right. }
    assert (Hx : x ∈ cell) by (apply Hsub; left).
    apply list_elem_of_lookup in Hx as [i Hi].
    exists (i :: a). simpl. split; [by rewrite Hla|]. split.
    - constructor; [by eapply lookup_lt_Some | done].
    - by rewrite (list_lookup_total_correct _ _ _ Hi), Htk. }
  destruct Hex as (a & Hla & Ha & Htk). exists a.
  split; [|done]. split; [done|]. split; [|done].
  apply (NoDup_fmap_1 (λ i, cell !!! i)). unfold take_at in Htk. by rewrite Htk.
Qed.

Lemma sample_size_Ok frac n k :
  sample_size frac n = Ok k → k = Z.to_nat (round_product frac (Z.of_nat n)).
Proof.
  unfold sample_size.
  destruct (1 <? frac)%float; [done|]. destruct (frac <? 0)%float; [done|].
  destruct (is_nan frac); [done|]. by intros [= <-].
Qed.

Lemma sample_rows_Ok choice frac seed rows picked :
  choice_ok choice → NoDup rows →
  sample_rows choice frac seed rows = Ok picked →
  ∃ k, sample_size frac (length rows) = Ok k ∧ k ≤ length rows ∧
       picked = take_at rows (choice seed (length rows) k) ∧
       is_pick rows k picked.
Proof.
  intros Hch Hnd. unfold sample_rows. intros H.
  apply result_bind_Ok in H as (k & Hk & H).
  destruct (decide (k ≤ length rows)) as [Hle|]; [|done].
  injection H as <-. exists k.
  destruct (Hch seed (length rows) k Hle) as (Hlen & Hnd' & Hlt).
  split; [done|]. split; [done|]. split; [done|]. split; [|split].
  - unfold take_at. by rewrite length_fmap, Hlen.
  - by apply take_at_NoDup.
  - by apply take_at_subseteq.
Qed.

Lemma sample_rows_run choice frac seed rows k :
  sample_size frac (length rows) = Ok k → k ≤ length rows →
  sample_rows choice frac seed rows
  = Ok (take_at rows (choice seed (length rows) k)).
Proof. intros Hk Hle. unfold sample_rows. rewrite Hk; simpl. by rewrite decide_True. Qed.

Lemma elem_of_group_rows ks n k i :
  i ∈ group_rows ks n k ↔ i < n ∧ row_key ks i = k.
Proof. unfold group_rows. rewrite list_elem_of_filter, elem_of_seq. intuition lia. Qed.

Lemma NoDup_group_rows ks n k : NoDup (group_rows ks n k).
Proof. apply NoDup_filter, NoDup_seq. Qed.

Lemma length_group_rows ks n k : length (group_rows ks n k) ≤ n.
Proof.
  unfold group_rows. etrans; [apply length_filter|]. by rewrite length_seq.
Qed.

Lemma elem_of_group_keys ks n k :
  k ∈ group_keys ks n ↔ notna_key k ∧ ∃ i, i < n ∧ row_key ks i = k.
Proof.
  unfold group_keys. rewrite merge_sort_Permutation, elem_of_remove_dups.
  rewrite list_elem_of_filter, list_elem_of_fmap. split.
  - intros [Hk (i & -> & Hi%elem_of_seq)]. split; [done|]. exists i. split; [lia|done].
  - intros [Hk (i & Hi & <-)]. split; [done|]. exists i. split; [done|].
    apply elem_of_seq. lia.
Qed.

Lemma NoDup_group_keys ks n : NoDup (group_keys ks n).
Proof. unfold group_keys. rewrite merge_sort_Permutation. apply NoDup_remove_dups. Qed.

Lemma sample_cells_Ok choice frac seed ks n cells :
  sample_cells choice frac seed ks n = Ok cells →
  cells.*1 = group_keys ks n ∧
  Forall (λ c, sample_rows choice frac seed (group_rows ks n c.1) = Ok c.2) cells.
Proof.
  unfold sample_cells. intros HF%mapM_Ok.
  induction HF as [|k [k' rows] keys cells Hk _ [IH1 IH2]]; simpl; [done|].
  apply result_bind_Ok in Hk as (rows' & Hrows & [= <- <-]).
  split; [by f_equal|]. by constructor.
Qed.

(** Rows drawn from cells with different keys are different rows. *)
Lemma NoDup_cells ks n (cells : list (list value * list nat)) :
  NoDup cells.*1 →
  Forall (λ c, c.2 ⊆ group_rows ks n c.1 ∧ NoDup c.2) cells →
  NoDup (concat cells.*2).
Proof.
  induction cells as [|[k rows] cells IH]; simpl; [constructor|].
  intros [Hk Hks]%NoDup_cons [[Hsub Hnd] Hall]%Forall_cons. simpl in *.
  apply NoDup_app. split; [done|]. split; [|by apply IH].
  intros i Hi (rows' & Hrows' & Hi')%elem_of_concat.
  apply list_elem_of_fmap in Hrows' as ([k' r'] & -> & Hc). simpl in *.
  rewrite Forall_forall in Hall. destruct (Hall _ Hc) as [Hsub' _]. simpl in *.
  apply Hsub, elem_of_group_rows in Hi as [_ Hki].
  apply Hsub', elem_of_group_rows in Hi' as [_ Hki'].
  apply Hk. apply list_elem_of_fmap. exists (k', r'). split; [simpl; congruence|done].
Qed.

(** What a grouped sample that returns is made of. *)
Lemma groupby_sample_Ok draw frac seed df keys ks out :
  choice_ok draw → mapM (getitem df) keys = Ok ks →
  groupby_sample draw frac seed df keys = Ok out →
  ∃ cells,
    sample_cells draw frac seed ks (nrows df) = Ok cells ∧
    cells.*1 = group_keys ks (nrows df) ∧
    iloc df (concat cells.*2) = Ok out ∧
    NoDup (concat cells.*2) ∧
    ∀ key sampled, (key, sampled) ∈ cells →
      ∃ k, sample_size frac (length (group_rows ks (nrows df) key)) = Ok k ∧
           k ≤ length (group_rows ks (nrows df) key) ∧
           sampled = take_at (group_rows ks (nrows df) key)
                       (draw seed (length (group_rows ks (nrows df) key)) k) ∧
           is_pick (group_rows ks (nrows df) key) k sampled.
Proof.
  intros Hch Hks. unfold groupby_sample. rewrite Hks; simpl. intros H.
  apply result_bind_Ok in H as (cells & Hcells & Hiloc).
  pose proof (sample_cells_Ok _ _ _ _ _ _ Hcells) as [Hkeys Hall].
  assert (Hper : ∀ key sampled, (key, sampled) ∈ cells →
    ∃ k, sample_size frac (length (group_rows ks (nrows df) key)) = Ok k ∧
         k ≤ length (group_rows ks (nrows df) key) ∧
         sampled = take_at (group_rows ks (nrows df) key)
                     (draw seed (length (group_rows ks (nrows df) key)) k) ∧
         is_pick (group_rows ks (nrows df) key) k sampled).
  { intros key sampled Hin. rewrite Forall_forall in Hall.
    specialize (Hall _ Hin); simpl in Hall.
    apply sample_rows_Ok in Hall; [done | done | apply NoDup_group_rows]. }
  exists cells. split; [done|]. split; [done|]. split; [done|]. split; [|done].
  apply (NoDup_cells ks (nrows df)); [rewrite Hkeys; apply NoDup_group_keys|].
  apply Forall_forall. intros [key sampled] Hin.
  destruct (Hper _ _ Hin) as (k & _ & _ & _ & _ & Hnd & Hsub). done.
Qed.

(** C2: what the sampler draws.  Whatever the fraction, a grouped sample
    that returns has taken, from every cell of the grouping, the rows at the
    positions the seeded generator draws for the cell's size and for the
    size round(f x cell size) that pandas computes (in binary64): that many
    rows of the cell, none twice, and no row is in two cells.  With the
    fraction of the script the sampler returns on every table whose cells
    have at most a hundred thousand rows, the number of rows of a cell is
    the rounding of 0.03 x size to the nearest integer, a tie to the even
    one, and a cell of one row gives nothing.  The draw itself is the
    generator's: on every family of seeds on which the generator is uniform,
    every ordered choice of that many rows of the cell is the sample for the
    same number of seeds. *)
Theorem groupby_sample_cells :
  ∀ (draw : Choice) (seed : Z) (df : DataFrame) (keys : list string)
    (ks : list Series),
  choice_ok draw →
  mapM (getitem df) keys = Ok ks →
  (∀ frac out, groupby_sample draw frac seed df keys = Ok out →
     ∃ cells,
       cells.*1 = group_keys ks (nrows df) ∧
       iloc df (concat cells.*2) = Ok out ∧
       NoDup (concat cells.*2) ∧
       ∀ key sampled, (key, sampled) ∈ cells →
         ∃ k, sample_size frac (length (group_rows ks (nrows df) key)) = Ok k ∧
              sampled = take_at (group_rows ks (nrows df) key)
                          (draw seed (length (group_rows ks (nrows df) key)) k) ∧
              length sampled = k ∧ NoDup sampled ∧
              sampled ⊆ group_rows ks (nrows df) key) ∧
  (Forall (λ key, (Z.of_nat (length (group_rows ks (nrows df) key)) ≤ 100000)%Z)
          (group_keys ks (nrows df)) →
   ∃ cells out,
     groupby_sample draw sampling_frac seed df keys = Ok out ∧
     cells.*1 = group_keys ks (nrows df) ∧
     iloc df (concat cells.*2) = Ok out ∧
     ∀ key sampled, (key, sampled) ∈ cells →
       Z.of_nat (length sampled)
         = py_round (0.03 * inject_Z
                       (Z.of_nat (length (group_rows ks (nrows df) key)))) ∧
       (length (group_rows ks (nrows df) key) = 1 → sampled = [])) ∧
  (∀ frac seeds key k,
     sample_size frac (length (group_rows ks (nrows df) key)) = Ok k →
     k ≤ length (group_rows ks (nrows df) key) →
     uniform_draw draw seeds (length (group_rows ks (nrows df) key)) k →
     ∀ rows1 rows2,
       is_pick (group_rows ks (nrows df) key) k rows1 →
       is_pick (group_rows ks (nrows df) key) k rows2 →
       seed_count (λ s, sample_rows draw frac s (group_rows ks (nrows df) key)
                        = Ok rows1) seeds
       = seed_count (λ s, sample_rows draw frac s (group_rows ks (nrows df) key)
                          = Ok rows2) seeds).
Proof.
  intros * Hch Hks. split; [|split].
  - intros frac out Hout.
    destruct (groupby_sample_Ok _ _ _ _ _ _ _ Hch Hks Hout)
      as (cells & _ & Hkeys & Hiloc & Hnd & Hper).
    exists cells. split; [done|]. split; [done|]. split; [done|].
    intros key sampled Hin.
    destruct (Hper _ _ Hin) as (k & Hk & _ & Htake & Hlen & Hnd' & Hsub).
    by exists k.
  - intros Hsmall.
    destruct (mapM_total
      (λ k, r ← sample_rows draw sampling_frac seed (group_rows ks (nrows df) k);
            mret (k, r))
      (group_keys ks (nrows df))) as [cells Hcells].
    { eapply Forall_impl; [exact Hsmall|]. intros key Hle; simpl in Hle.
      destruct (sample_size_exact_le _ Hle) as (k & Hk & Hkn & _).
      rewrite (sample_rows_run _ _ _ _ _ Hk Hkn). simpl. by eexists. }
    fold (sample_cells draw sampling_frac seed ks (nrows df)) in Hcells.
    pose proof (sample_cells_Ok _ _ _ _ _ _ Hcells) as [Hkeys Hall].
    assert (Hidx : Forall (λ i, i < nrows df) (concat cells.*2)).
    { apply Forall_forall. intros i (rows & Hrows & Hi)%elem_of_concat.
      apply list_elem_of_fmap in Hrows as ([k r] & -> & Hc).
      rewrite Forall_forall in Hall. specialize (Hall _ Hc); simpl in Hall.
      apply sample_rows_Ok in Hall as (? & _ & _ & _ & _ & _ & Hsub);
        [|done|apply NoDup_group_rows].
      by apply Hsub, elem_of_group_rows in Hi as [? _]. }
    exists cells, (mkDF (length (concat cells.*2))
      (prod_map id (λ s, take_at s (concat cells.*2)) <$> columns df)).
    assert (Hiloc : iloc df (concat cells.*2) = Ok (mkDF (length (concat cells.*2))
      (prod_map id (λ s, take_at s (concat cells.*2)) <$> columns df))).
    { unfold iloc. by rewrite decide_True. }
    split; [|split; [done|split; [done|]]].
    { unfold groupby_sample. rewrite Hks; simpl. by rewrite Hcells. }
    intros key sampled Hin.
    assert (Hkey : key ∈ group_keys ks (nrows df)).
    { rewrite <-Hkeys. apply list_elem_of_fmap. by exists (key, sampled). }
    rewrite Forall_forall in Hsmall. specialize (Hsmall _ Hkey).
    rewrite Forall_forall in Hall. specialize (Hall _ Hin); simpl in Hall.
    apply sample_rows_Ok in Hall as (k & Hk & _ & _ & Hlen & _);
      [|done|apply NoDup_group_rows].
    destruct (sample_size_exact_le _ Hsmall) as (k' & Hk' & _ & Hround).
    rewrite Hk in Hk'. injection Hk' as <-. rewrite Hlen.
    split; [done|]. intros Hone. rewrite Hone in Hround.
    assert (Hz : py_round (0.03 * inject_Z (Z.of_nat 1)) = 0%Z)
      by (vm_compute; reflexivity).
    rewrite Hz in Hround. assert (k = 0) as -> by lia.
    by destruct sampled.
  - intros frac seeds key k Hk Hle Huni rows1 rows2 H1 H2.
    set (cell := group_rows ks (nrows df) key) in *.
    assert (Hcell : NoDup cell) by apply NoDup_group_rows.
    destruct (is_pick_draw _ _ _ H1) as (a & Ha & Hta).
    destruct (is_pick_draw _ _ _ H2) as (b & Hb & Htb).
    assert (Hiff : ∀ c rows, is_draw (length cell) k c → take_at cell c = rows →
      ∀ s, sample_rows draw frac s cell = Ok rows ↔ draw s (length cell) k = c).
    { intros c rows (_ & _ & Hc) <- s.
      rewrite (sample_rows_run _ _ _ _ _ Hk Hle).
      destruct (Hch s (length cell) k Hle) as (_ & _ & Hs). split.
      - intros [= Heq]. by apply (take_at_inj cell).
      - by intros ->. }
    unfold seed_count.
    rewrite (list_filter_iff _ _ _ (Hiff a rows1 Ha Hta)).
    rewrite (list_filter_iff _ _ _ (Hiff b rows2 Hb Htb)).
    by apply Huni.
Qed.

(** The fraction matters for the smallest cells: with 0.6, which the script
    does not pass, a cell of one row would keep its row. *)
Example sample_size_above_half :
  sample_size 0x1.3333333333333p-1 1 = Ok 1 ∧ sample_size sampling_frac 1 = Ok 0.
Proof. split; by vm_compute. Qed.

Lemma demo_choice_ok : choice_ok (choice Demo.ext).
Proof.
  intros seed n k Hk. simpl. split; [|split].
  - rewrite length_take, length_reverse, length_seq. lia.
  - apply (sublist_NoDup _ (reverse (seq 0 n))); [|apply sublist_take].
    rewrite reverse_Permutation. apply NoDup_seq.
  - apply Forall_take. rewrite reverse_Permutation.
    apply Forall_forall. intros i Hi%elem_of_seq. lia.
Qed.

Lemma rotate_Permutation {A} (r : nat) (l : list A) : rotate r l ≡ₚ l.
Proof.
  unfold rotate. rewrite Permutation_app_comm. by rewrite take_drop.
Qed.

Lemma demo_rng_ok : choice_ok Demo.rng.
Proof.
  intros seed n k Hk. unfold Demo.rng. split; [|split].
  - rewrite length_take, length_rotate, length_seq. lia.
  - apply (sublist_NoDup _ (rotate (Z.to_nat seed) (seq 0 n))); [|apply sublist_take].
    rewrite rotate_Permutation. apply NoDup_seq.
  - apply Forall_take. rewrite rotate_Permutation.
    apply Forall_forall. intros i Hi%elem_of_seq. lia.
Qed.

(** On the seeds 0 and 1 that generator is uniform for a draw of one of two
    positions: each position comes from one seed. *)
Example demo_rng_uniform : uniform_draw Demo.rng [0; 1]%Z 2 1.
Proof.
  assert (Hone : ∀ a, is_draw 2 1 a →
    seed_count (λ s, Demo.rng s 2 1 = a) [0; 1]%Z = 1).
  { intros a (Hlen & _ & Hlt).
    destruct a as [|i [|? ?]]; try discriminate Hlen.
    apply Forall_cons in Hlt as [Hlt _].
    destruct i as [|[|i]]; [by vm_compute | by vm_compute | lia]. }
  intros a b Ha Hb. by rewrite (Hone a Ha), (Hone b Hb).
Qed.

Lemma groupby_sample_cells_witness :
  ∃ (cells : list (list value * list nat)) (out : DataFrame),
    groupby_sample Demo.rng sampling_frac sampling_seed Demo.df_cells
      ["grid_id_50km"; "year_month"] = Ok out ∧
    cells.*1 = [[VNum 1; VStr "2020-01"]; [VNum 2; VStr "2020-01"]] ∧
    iloc Demo.df_cells (concat cells.*2) = Ok out.
Proof.
  destruct (groupby_sample_cells Demo.rng sampling_seed
              Demo.df_cells ["grid_id_50km"; "year_month"]
              [replicate 50 (VNum 1) ++ [VNum 2]; replicate 51 (VStr "2020-01")]
              demo_rng_ok eq_refl)
    as (_ & Hrun & _).
  destruct Hrun as (cells & out & Hout & Hkeys & Hiloc & _).
  - apply (bool_decide_unpack _). vm_compute. exact I.
  - exists cells, out. split; [exact Hout|]. split; [|exact Hiloc].
    rewrite Hkeys. vm_compute; reflexivity.
Defined.

(** ** Left join, then grouping: records with no coarse group (C7) *)

Lemma match_rows_unmatched nl lk nr rk i :
  i < nl → (∀ j, j < nr → rk !!! j ≠ lk !!! i) →
  (i, None) ∈ match_rows nl lk nr rk.
Proof.
  intros Hi Hno. unfold match_rows. apply list_elem_of_bind. exists i.
  split; [|apply elem_of_seq; lia].
  destruct (filter _ (seq 0 nr)) as [|j js] eqn:Hf; [left|].
  assert (Hj : j ∈ filter (λ j, rk !!! j = lk !!! i) (seq 0 nr))
    by (rewrite Hf; left).
  apply list_elem_of_filter in Hj as [Heq Hj%elem_of_seq].
  destruct (Hno j); [lia | done].
Qed.

Lemma gather_right_unmatched pairs s p i :
  pairs !! p = Some (i, None) → gather_right pairs s !!! p = VNull.
Proof.
  intros Hp. apply list_lookup_total_correct.
  unfold gather_right. by rewrite list_lookup_fmap, Hp.
Qed.

(** A left row with no partner is kept, and every column that comes from the
    right table is null there. *)
Lemma merge_left_unmatched l r key out :
  merge_left l r key = Ok out →
  ∃ lk rk,
    getitem l key = Ok lk ∧ getitem r key = Ok rk ∧
    nrows out = length (match_rows (nrows l) lk (nrows r) rk) ∧
    ∀ i, i < nrows l → (∀ j, j < nrows r → rk !!! j ≠ lk !!! i) →
      ∃ p, p < nrows out ∧
        match_rows (nrows l) lk (nrows r) rk !! p = Some (i, None) ∧
        ∀ c s, (c, s) ∈ drop (length (columns l)) (columns out) → s !!! p = VNull.
Proof.
  unfold merge_left. intros H. inv_run.
  match goal with
  | Hl : getitem l key = Ok ?a, Hr : getitem r key = Ok ?b |- _ =>
      exists a, b; set (pairs := match_rows (nrows l) a (nrows r) b)
  end.
  split; [done|]. split; [done|]. split; [done|]. simpl.
  intros i Hi Hno.
  destruct (proj1 (list_elem_of_lookup _ _)
              (match_rows_unmatched _ _ _ _ _ Hi Hno)) as [p Hp].
  exists p. split; [by eapply lookup_lt_Some|]. split; [done|].
  intros c s. rewrite drop_app_length'; [|by rewrite length_fmap].
  intros ([c0 s0] & [= -> ->] & _)%list_elem_of_fmap.
  by eapply gather_right_unmatched.
Qed.

Lemma notna_key_row ks i (s : Series) :
  notna_key (row_key ks i) → s ∈ ks → s !!! i ≠ VNull.
Proof.
  unfold notna_key, row_key. rewrite Forall_fmap, Forall_forall. intros H Hs.
  by apply (H s).
Qed.

Lemma suffix_x_ne (c : string) : c +:+ "_x" ≠ "grid_id_50km".
Proof.
  intros H.
  do 12 (destruct c as [|? c]; [discriminate H|];
         match type of H with
         | String ?a ?c0 +:+ ?t = ?r => change (String a (c0 +:+ t) = r) in H
         end; injection H as _ H).
  destruct c; discriminate H.
Qed.

Lemma suffix_y_ne (c : string) : c +:+ "_y" ≠ "grid_id_50km".
Proof.
  intros H.
  do 12 (destruct c as [|? c]; [discriminate H|];
         match type of H with
         | String ?a ?c0 +:+ ?t = ?r => change (String a (c0 +:+ t) = r) in H
         end; injection H as _ H).
  destruct c; discriminate H.
Qed.

Lemma suffix_x_ne_key (c : string) : c +:+ "_x" ≠ "grid_id".
Proof.
  intros H.
  do 7 (destruct c as [|? c]; [discriminate H|];
         match type of H with
         | String ?a ?c0 +:+ ?t = ?r => change (String a (c0 +:+ t) = r) in H
         end; injection H as _ H).
  destruct c; discriminate H.
Qed.

(** A label on both sides of the join, other than the key, is on neither
    side of the result: both columns come out under a suffixed label. *)
Lemma merge_left_shared_label l r key out c :
  merge_left l r key = Ok out →
  c ≠ key → c ∈ col_names l → c ∈ col_names r →
  (∀ c', c' +:+ "_x" ≠ c) → (∀ c', c' +:+ "_y" ≠ c) →
  c ∉ col_names out.
Proof.
  unfold merge_left. intros H Hkey Hl Hr Hx Hy. inv_run.
  unfold col_names; simpl. rewrite fmap_app, <-!list_fmap_compose.
  assert (Hrc : c ∈ (filter (λ p : string * Series, p.1 ≠ key) (columns r)).*1).
  { unfold col_names in Hr. apply list_elem_of_fmap in Hr as ([c0 s0] & -> & Hin).
    apply list_elem_of_fmap. exists (c0, s0). split; [done|].
    by apply list_elem_of_filter. }
  intros [Hin|Hin]%elem_of_app.
  - apply list_elem_of_fmap in Hin as ([c0 s0] & Hc & _). simpl in Hc.
    case_decide as Hd.
    + by apply (Hx c0).
    + subst c0. apply Hd. done.
  - apply list_elem_of_fmap in Hin as ([c0 s0] & Hc & _). simpl in Hc.
    case_decide as Hd.
    + by apply (Hy c0).
    + subst c0. by apply Hd.
Qed.

Lemma rename_column_keeps old new df c :
  c ≠ old → c ∈ col_names df → c ∈ col_names (rename_column old new df).
Proof.
  unfold col_names, rename_column; simpl. intros Hne Hc.
  apply list_elem_of_fmap in Hc as ([c0 s0] & -> & Hin).
  apply list_elem_of_fmap. exists (c0, s0). split; [done|].
  apply list_elem_of_fmap. exists (c0, s0). split; [|done].
  simpl in *. by rewrite decide_False.
Qed.


Lemma assoc_app_None c cols1 cols2 :
  assoc c cols1 = None → assoc c (cols1 ++ cols2) = assoc c cols2.
Proof.
  induction cols1 as [|[c' s'] cols1 IH]; simpl; [done|].
  destruct (decide (c' = c)); [done | apply IH].
Qed.

Lemma assoc_app_Some c cols1 cols2 s :
  assoc c cols1 = Some s → assoc c (cols1 ++ cols2) = Some s.
Proof.
  induction cols1 as [|[c' s'] cols1 IH]; simpl; [done|].
  destruct (decide (c' = c)); [done | apply IH].
Qed.

(** The key column of the join holds, row by row, the key of the left
    record the row comes from. *)
Lemma merge_left_key_column l r key out lk rk :
  merge_left l r key = Ok out →
  getitem l key = Ok lk → getitem r key = Ok rk →
  (∀ c', c' +:+ "_x" ≠ key) →
  getitem out key = Ok (gather_left (match_rows (nrows l) lk (nrows r) rk) lk).
Proof.
  unfold merge_left. intros H Hlk Hrk Hx. rewrite Hlk, Hrk in H. simpl in H.
  injection H as <-. unfold getitem in *. simpl.
  set (pairs := match_rows (nrows l) lk (nrows r) rk).
  set (rcols := filter (λ p : string * Series, p.1 ≠ key) (columns r)).
  destruct (assoc key (columns l)) as [s|] eqn:Hs; [|done]. injection Hlk as ->.
  erewrite assoc_app_Some; [done|].
  clear Hrk. induction (columns l) as [|[c0 s0] cols IH]; [done|].
  simpl in *. destruct (decide (c0 = key)) as [->|Hne].
  - injection Hs as ->.
    destruct (decide (key ≠ key ∧ key ∈ rcols.*1)) as [[Hk _]|_]; [done|].
    by rewrite decide_True.
  - destruct (decide (c0 ≠ key ∧ c0 ∈ rcols.*1)).
    + rewrite decide_False by apply Hx. by apply IH.
    + rewrite decide_False by done. by apply IH.
Qed.

(** A column that only the right table has comes out under its own label,
    with the cell of the partner, or null where there is none. *)
Lemma merge_left_right_column l r key out lk rk c s :
  merge_left l r key = Ok out →
  getitem l key = Ok lk → getitem r key = Ok rk →
  c ≠ key → c ∉ col_names l →
  (∀ c', c' +:+ "_x" ≠ c) → (∀ c', c' +:+ "_y" ≠ c) →
  getitem r c = Ok s →
  getitem out c = Ok (gather_right (match_rows (nrows l) lk (nrows r) rk) s).
Proof.
  unfold merge_left. intros H Hlk Hrk Hkey Hl Hx Hy Hs.
  rewrite Hlk, Hrk in H. simpl in H. injection H as <-.
  unfold getitem in *. simpl.
  set (pairs := match_rows (nrows l) lk (nrows r) rk).
  set (rcols := filter (λ p : string * Series, p.1 ≠ key) (columns r)).
  rewrite assoc_app_None.
  2:{ apply assoc_None_names. rewrite <-list_fmap_compose. intros Hin.
      apply list_elem_of_fmap in Hin as ([c0 s0] & Hc & Hin). simpl in Hc.
      case_decide.
      - by apply (Hx c0).
      - subst c0. apply Hl. unfold col_names. apply list_elem_of_fmap.
        by exists (c, s0). }
  destruct (assoc c (columns r)) as [s'|] eqn:Hs'; [|done]. injection Hs as ->.
  clear Hrk Hlk. subst rcols.
  induction (columns r) as [|[c0 s0] cols IH]; [done|].
  simpl in Hs'. destruct (decide (c0 = c)) as [->|Hne].
  - injection Hs' as ->. rewrite filter_cons_True by done. simpl.
    destruct (decide (c ∈ col_names l)); [done|]. by rewrite decide_True.
  - destruct (decide (c0 = key)) as [->|Hk].
    + rewrite filter_cons_False by (simpl; by intros ?). by apply IH.
    + rewrite filter_cons_True by done. simpl.
      destruct (decide (c0 ∈ col_names l)).
      * rewrite decide_False by apply Hy. by apply IH.
      * rewrite decide_False by done. by apply IH.
Qed.

(** The grouping sees the rows with no null in their key, and no others. *)
Lemma sample_cells_notna draw frac seed ks n cells :
  choice_ok draw →
  sample_cells draw frac seed ks n = Ok cells →
  (∀ k rows, (k, rows) ∈ cells →
     notna_key k ∧ rows ⊆ group_rows ks n k ∧
     ∀ i, i ∈ group_rows ks n k → notna_key (row_key ks i)) ∧
  (∀ i, i ∈ concat cells.*2 → i < n ∧ notna_key (row_key ks i)).
Proof.
  intros Hch Hcells. apply sample_cells_Ok in Hcells as [Hkeys Hall].
  rewrite Forall_forall in Hall.
  assert (Hcell : ∀ k rows, (k, rows) ∈ cells →
            notna_key k ∧ rows ⊆ group_rows ks n k).
  { intros k rows Hin. split.
    - assert (Hk : k ∈ group_keys ks n).
      { rewrite <-Hkeys. apply list_elem_of_fmap. by exists (k, rows). }
      by apply elem_of_group_keys in Hk as [? _].
    - specialize (Hall _ Hin); simpl in Hall.
      apply sample_rows_Ok in Hall as (? & _ & _ & _ & _ & _ & ?);
        [done | done | apply NoDup_group_rows]. }
  split.
  - intros k rows Hin. destruct (Hcell _ _ Hin) as [Hk Hsub].
    split; [done|]. split; [done|].
    by intros i [_ ->]%elem_of_group_rows.
  - intros i (rows & Hrows & Hi)%elem_of_concat.
    apply list_elem_of_fmap in Hrows as ([k r] & -> & Hc).
    destruct (Hcell _ _ Hc) as [Hk Hsub].
    apply Hsub, elem_of_group_rows in Hi as [? ->]. done.
Qed.

Lemma assoc_fmap_take_at c cols idx :
  assoc c (prod_map id (λ s : Series, take_at s idx) <$> cols)
  = (λ s : Series, take_at s idx) <$> assoc c cols.
Proof.
  induction cols as [|[c' s] cols IH]; simpl; [done|].
  by destruct (decide (c' = c)).
Qed.

Lemma mapM_getitem_elem df keys ks key s :
  mapM (getitem df) keys = Ok ks → key ∈ keys → getitem df key = Ok s → s ∈ ks.
Proof.
  intros HF%mapM_Ok Hkey Hs.
  induction HF as [|k s' keys ks Hk _ IH]; [by apply elem_of_nil in Hkey|].
  apply elem_of_cons in Hkey as [->|Hkey]; [|right; by apply IH].
  rewrite Hs in Hk. injection Hk as <-. left.
Qed.

(** No sampled record has a null in a grouping column. *)
Lemma groupby_sample_notna draw frac seed df keys out key s :
  choice_ok draw →
  groupby_sample draw frac seed df keys = Ok out →
  key ∈ keys → getitem out key = Ok s → Forall (λ v, v ≠ VNull) s.
Proof.
  intros Hch Hrun Hkey Hs. unfold groupby_sample in Hrun. inv_run.
  match goal with
  | Hks : mapM (getitem df) keys = Ok ?ks,
    Hc : sample_cells _ _ _ _ _ = Ok ?cells, Hi : iloc _ _ = Ok out |- _ =>
      destruct (sample_cells_notna _ _ _ _ _ _ Hch Hc) as [_ Hrows];
      apply iloc_Ok in Hi as (_ & _ & _ & Hcols);
      rename Hks into Hks'; rename cells into cs
  end.
  unfold getitem in Hs. rewrite Hcols, assoc_fmap_take_at in Hs.
  destruct (assoc key (columns df)) as [s0|] eqn:Hs0; [|done].
  simpl in Hs. injection Hs as <-.
  unfold take_at. rewrite Forall_fmap. apply Forall_forall. intros i Hi.
  destruct (Hrows i Hi) as [_ Hna]. simpl.
  eapply notna_key_row; [done|].
  eapply mapM_getitem_elem; [done | done |]. unfold getitem. by rewrite Hs0.
Qed.

Section Loading.
Context (E : Externals).

Lemma merge_grid_Ok df w merged w' :
  merge_grid E df w = (Ok merged, w') →
  ∃ grid left right,
    files w !! grid_file = Some grid ∧ nrows left = nrows df ∧
    nrows right = nrows grid ∧
    merge_left left right "grid_id" = Ok merged ∧ w' = w.
Proof.
  unfold merge_grid. intros H.
  apply M_bind_Ok in H as (grid & ? & [Hgrid ->]%read_csv_Ok & H).
  inv_run.
  repeat match goal with
  | H : setitem _ _ _ = Ok _ |- _ => apply setitem_Ok in H as (_ & ? & _)
  end.
  match goal with H : merge_left ?a ?b _ = Ok merged |- _ => exists grid, a, b end.
  done.
Qed.

(** A run of [load_and_sample_df] that returns, read back. *)
Lemma load_and_sample_df_Ok w out w' :
  load_and_sample_df E w = (Ok out, w') →
  ∃ df1 df2 d df3,
    (if bool_decide (is_Some (files w !! grid_file))
     then merge_grid E df1 w = (Ok df2, w) else df2 = df1) ∧
    getitem df2 "date" = Ok d ∧
    setitem df2 "year_month" (strftime_Ym E <$> d) = Ok df3 ∧
    groupby_sample (choice E) sampling_frac sampling_seed df3
      ["grid_id_50km"; "year_month"] = Ok out ∧
    files w' = <[output_sampled := out]> (files w).
Proof.
  unfold load_and_sample_df. intros H.
  apply M_bind_Ok in H as (df0 & ? & [Hin ->]%read_csv_Ok & H).
  apply M_bind_Ok in H as (df1 & ? & [Hdate ->]%lift_Ok & H).
  apply M_bind_Ok in H as (has_grid & ? & Hex & H).
  unfold path_exists in Hex. injection Hex as <- <-.
  apply M_bind_Ok in H as (df2 & w2 & Hmerge & H).
  assert (Hw2 : w2 = w ∧
    if bool_decide (is_Some (files w !! grid_file))
    then merge_grid E df1 w = (Ok df2, w) else df2 = df1).
  { destruct (bool_decide (is_Some (files w !! grid_file))).
    - pose proof Hmerge as (?&?&?&_&_&_&_&->)%merge_grid_Ok. done.
    - by apply M_ret_Ok in Hmerge as [-> ->]. }
  destruct Hw2 as [-> Hmerge'].
  apply M_bind_Ok in H as (d & ? & [Hd ->]%lift_Ok & H).
  apply M_bind_Ok in H as (df3 & ? & [Hym ->]%lift_Ok & H).
  apply M_bind_Ok in H as (df_sampled & ? & [Hs ->]%lift_Ok & H).
  apply M_bind_Ok in H as (? & ? & [_ ->]%lift_Ok & H).
  apply M_bind_Ok in H as (? & ? & [_ ->]%lift_Ok & H).
  apply M_bind_Ok in H as ([] & w3 & Hcsv & H).
  apply M_ret_Ok in H as [<- ->]. apply to_csv_Ok in Hcsv as [_ ->].
  exists df1, df2, d, df3. done.
Qed.

(** A run that returns with the mapping table there, stage by stage. *)
Lemma load_and_sample_df_grid_Ok w w' df grid out :
  files w !! input_file = Some df → files w !! grid_file = Some grid →
  load_and_sample_df E w = (Ok out, w') →
  ∃ dated left right merged dates full,
    convert_column (to_datetime E) "date" df = Ok dated ∧
    cast_grid_id E dated = Ok left ∧
    cast_grid_id E (rename_column "grid_id_10km" "grid_id" grid) = Ok right ∧
    merge_left left right "grid_id" = Ok merged ∧
    getitem merged "date" = Ok dates ∧
    setitem merged "year_month" (strftime_Ym E <$> dates) = Ok full ∧
    groupby_sample (choice E) sampling_frac sampling_seed full
      ["grid_id_50km"; "year_month"] = Ok out ∧
    write_error E output_sampled = None ∧
    w' = mkWorld (<[output_sampled := out]> (files w)) (environ w)
           (trace w ++ [EvWrite output_sampled]).
Proof.
  intros Hin Hgrid. unfold load_and_sample_df. intros H.
  apply M_bind_Ok in H as (df0 & ? & [Hin' ->]%read_csv_Ok & H).
  rewrite Hin in Hin'. injection Hin' as <-.
  apply M_bind_Ok in H as (dated & ? & [Hdate ->]%lift_Ok & H).
  apply M_bind_Ok in H as (has_grid & ? & Hex & H).
  unfold path_exists in Hex. injection Hex as <- <-.
  rewrite Hgrid, bool_decide_eq_true_2 in H by (by eexists).
  apply M_bind_Ok in H as (merged & w2 & Hmerge & H).
  unfold merge_grid in Hmerge.
  apply M_bind_Ok in Hmerge as (grid' & ? & [Hgrid' ->]%read_csv_Ok & Hmerge).
  rewrite Hgrid in Hgrid'. injection Hgrid' as <-.
  apply M_bind_Ok in Hmerge as (g0 & ? & [Hg0 ->]%lift_Ok & Hmerge).
  apply M_bind_Ok in Hmerge as (g1 & ? & [Hg1 ->]%lift_Ok & Hmerge).
  apply M_bind_Ok in Hmerge as (right & ? & [Hright ->]%lift_Ok & Hmerge).
  apply M_bind_Ok in Hmerge as (d0 & ? & [Hd0 ->]%lift_Ok & Hmerge).
  apply M_bind_Ok in Hmerge as (d1 & ? & [Hd1 ->]%lift_Ok & Hmerge).
  apply M_bind_Ok in Hmerge as (left & ? & [Hleft ->]%lift_Ok & Hmerge).
  apply lift_Ok in Hmerge as [Hmerge ->].
  apply M_bind_Ok in H as (dates & ? & [Hd ->]%lift_Ok & H).
  apply M_bind_Ok in H as (full & ? & [Hym ->]%lift_Ok & H).
  apply M_bind_Ok in H as (df_sampled & ? & [Hs ->]%lift_Ok & H).
  apply M_bind_Ok in H as (? & ? & [_ ->]%lift_Ok & H).
  apply M_bind_Ok in H as (? & ? & [_ ->]%lift_Ok & H).
  apply M_bind_Ok in H as ([] & w3 & Hcsv & H).
  apply M_ret_Ok in H as [<- ->]. apply to_csv_Ok in Hcsv as [Hwr ->].
  exists dated, left, right, merged, dates, full.
  split; [done|]. split.
  { unfold cast_grid_id. rewrite Hd0; simpl. by rewrite Hd1. }
  split.
  { unfold cast_grid_id. rewrite Hg0; simpl. by rewrite Hg1. }
  done.
Qed.
End Loading.

Lemma cast_grid_id_Ok E t t' :
  cast_grid_id E t = Ok t' →
  nrows t' = nrows t ∧ col_names t' = col_names t ∧
  ∃ g g', getitem t "grid_id" = Ok g ∧ mapM (astype_int E) g = Ok g' ∧
          getitem t' "grid_id" = Ok (astype_str E <$> g') ∧
          ∀ c, c ≠ "grid_id" → getitem t' c = getitem t c.
Proof.
  unfold cast_grid_id. intros H.
  apply result_bind_Ok in H as (g & Hg & H).
  apply result_bind_Ok in H as (g' & Hg' & Hset).
  split; [by apply setitem_Ok in Hset as (_ & ? & _)|]. split.
  { rewrite (setitem_names _ _ _ _ Hset). rewrite decide_True; [done|].
    by eapply getitem_Ok_names. }
  exists g, g'. split; [done|]. split; [done|]. split.
  - by rewrite (getitem_setitem _ _ _ _ "grid_id" Hset), decide_True.
  - intros c Hc. by rewrite (getitem_setitem _ _ _ _ c Hset), decide_False.
Qed.

(** C7: when the mapping table is there and brings the coarse identifier,
    the loader joins the primary table (dates converted, fine identifier
    cast) to the mapping table (fine identifier renamed and cast), adds the
    month, groups and samples.  A record whose fine identifier has no
    partner in the mapping table is kept by the join, on one row that
    carries its fine identifier and a null coarse identifier; that row is in
    no cell of the grouping and is not sampled.  Every cell has a key with
    no null, is made of rows with a coarse identifier only, and its sample
    has the size the sampler computes from the number of those rows.  The
    sampled table has no null coarse identifier. *)
Theorem null_coarse_group_not_sampled :
  ∀ (E : Externals) (w w' : World) (df grid out : DataFrame),
  choice_ok (choice E) →
  files w !! input_file = Some df →
  files w !! grid_file = Some grid →
  "grid_id_50km" ∈ col_names grid →
  load_and_sample_df E w = (Ok out, w') →
  ∃ dated left right merged dates full fine lk rk coarse ym cells,
    convert_column (to_datetime E) "date" df = Ok dated ∧
    cast_grid_id E dated = Ok left ∧
    cast_grid_id E (rename_column "grid_id_10km" "grid_id" grid) = Ok right ∧
    merge_left left right "grid_id" = Ok merged ∧
    getitem merged "date" = Ok dates ∧
    setitem merged "year_month" (strftime_Ym E <$> dates) = Ok full ∧
    getitem left "grid_id" = Ok lk ∧ getitem right "grid_id" = Ok rk ∧
    getitem full "grid_id" = Ok fine ∧
    getitem full "grid_id_50km" = Ok coarse ∧
    getitem full "year_month" = Ok ym ∧
    sample_cells (choice E) sampling_frac sampling_seed [coarse; ym] (nrows full)
      = Ok cells ∧
    iloc full (concat cells.*2) = Ok out ∧
    (∀ i, i < nrows df → (∀ j, j < nrows grid → rk !!! j ≠ lk !!! i) →
       ∃ p, p < nrows full ∧
         match_rows (nrows df) lk (nrows grid) rk !! p = Some (i, None) ∧
         fine !!! p = lk !!! i ∧
         coarse !!! p = VNull ∧
         (p ∉ concat cells.*2) ∧
         ∀ key sampled, (key, sampled) ∈ cells →
           p ∉ group_rows [coarse; ym] (nrows full) key) ∧
    (∀ key sampled, (key, sampled) ∈ cells →
       notna_key key ∧
       sampled ⊆ group_rows [coarse; ym] (nrows full) key ∧
       sample_size sampling_frac (length (group_rows [coarse; ym] (nrows full) key))
         = Ok (length sampled) ∧
       ∀ p, p ∈ group_rows [coarse; ym] (nrows full) key → coarse !!! p ≠ VNull) ∧
    (∀ s, getitem out "grid_id_50km" = Ok s → Forall (λ v, v ≠ VNull) s).
Proof.
  intros * Hch Hin Hgrid Hg50 Hload.
  apply (load_and_sample_df_grid_Ok _ _ _ _ _ _ Hin Hgrid) in Hload
    as (dated & left & right & merged & dates & full &
        Hdate & Hleft & Hright & Hmerge & Hd & Hym & Hs & _ & _).
  destruct (cast_grid_id_Ok _ _ _ Hleft)
    as (Hnl & Hcl & d0 & d1 & _ & _ & Hlk & Hlother).
  destruct (cast_grid_id_Ok _ _ _ Hright)
    as (Hnr & Hcr & g0 & g1 & _ & _ & Hrk & Hrother).
  set (lk := astype_str E <$> d1) in *. set (rk := astype_str E <$> g1) in *.
  assert (Hnd : nrows dated = nrows df).
  { apply convert_column_Ok in Hdate as (? & ? & _ & _ & Hset).
    by apply setitem_Ok in Hset as (_ & ? & _). }
  simpl in Hnr. rewrite Hnd in Hnl.
  pose proof Hs as Hs'. unfold groupby_sample in Hs'.
  apply result_bind_Ok in Hs' as (ks & Hks & Hs').
  apply result_bind_Ok in Hs' as (cells & Hcells & Hiloc).
  simpl in Hks.
  apply result_bind_Ok in Hks as (coarse & Hcoarse & Hks).
  apply result_bind_Ok in Hks as (rest & Hks & [= <-]).
  apply result_bind_Ok in Hks as (ym & Hym' & [= <-]).
  (* the coarse identifier comes from the mapping table *)
  assert (Hr50 : "grid_id_50km" ∈ col_names right).
  { rewrite Hcr. by apply rename_column_keeps. }
  assert (Hl50 : "grid_id_50km" ∉ col_names left).
  { intros Hl50.
    apply (getitem_Ok_names full "grid_id_50km" coarse) in Hcoarse.
    rewrite (setitem_names _ _ _ _ Hym) in Hcoarse.
    assert (Hm50 : "grid_id_50km" ∈ col_names merged).
    { case_decide; [done|].
      apply elem_of_app in Hcoarse as [?|Hc]; [done|].
      by apply list_elem_of_singleton in Hc. }
    revert Hm50.
    apply (merge_left_shared_label _ _ _ _ _ Hmerge);
      [done | done | done | apply suffix_x_ne | apply suffix_y_ne]. }
  destruct (getitem_present _ _ Hr50) as [r50 Hr50'].
  assert (Hne : "grid_id_50km" ≠ "grid_id") by discriminate.
  pose proof (merge_left_right_column _ _ _ _ _ _ _ _ Hmerge Hlk Hrk
                Hne Hl50 suffix_x_ne suffix_y_ne Hr50') as Hm50.
  pose proof (merge_left_key_column _ _ _ _ _ _ Hmerge Hlk Hrk suffix_x_ne_key)
    as Hmkey.
  rewrite Hnl, Hnr in Hm50, Hmkey.
  set (pairs := match_rows (nrows df) lk (nrows grid) rk) in *.
  assert (Hcoarse' : coarse = gather_right pairs r50).
  { rewrite (getitem_setitem _ _ _ _ "grid_id_50km" Hym), decide_False in Hcoarse
      by done. rewrite Hm50 in Hcoarse. by injection Hcoarse. }
  assert (Hfine : getitem full "grid_id" = Ok (gather_left pairs lk)).
  { by rewrite (getitem_setitem _ _ _ _ "grid_id" Hym), decide_False. }
  assert (Hnfull : nrows full = length pairs).
  { apply setitem_Ok in Hym as (_ & -> & _).
    unfold merge_left in Hmerge. rewrite Hlk, Hrk in Hmerge. simpl in Hmerge.
    injection Hmerge as <-. simpl. by rewrite Hnl, Hnr. }
  destruct (sample_cells_notna _ _ _ _ _ _ Hch Hcells) as [Hcell Hrows].
  exists dated, left, right, merged, dates, full, (gather_left pairs lk), lk, rk,
         coarse, ym, cells.
  do 13 (split; [done|]). split; [|split].
  - intros i Hi Hno.
    destruct (proj1 (list_elem_of_lookup _ _)
                (match_rows_unmatched _ _ _ _ _ Hi Hno)) as [p Hp].
    fold pairs in Hp.
    assert (Hnull : coarse !!! p = VNull).
    { rewrite Hcoarse'. by eapply gather_right_unmatched. }
    assert (Hna : ¬ notna_key (row_key [coarse; ym] p)).
    { intros Hna. eapply (notna_key_row [coarse; ym] p coarse); [done|left|done]. }
    exists p. split; [rewrite Hnfull; by eapply lookup_lt_Some|].
    split; [done|]. split.
    { apply list_lookup_total_correct.
      unfold gather_left. by rewrite list_lookup_fmap, Hp. }
    split; [done|]. split.
    + intros Hi'. by destruct (Hrows p Hi').
    + intros key sampled Hc Hp'. destruct (Hcell _ _ Hc) as (_ & _ & Hg).
      by apply Hna, Hg.
  - intros key sampled Hc. destruct (Hcell _ _ Hc) as (Hk & Hsub & Hg).
    split; [done|]. split; [done|]. split.
    + apply sample_cells_Ok in Hcells as [_ Hall].
      rewrite Forall_forall in Hall. specialize (Hall _ Hc); simpl in Hall.
      apply sample_rows_Ok in Hall as (k & Hksz & _ & _ & Hlen & _);
        [|done|apply NoDup_group_rows].
      by rewrite Hlen.
    + intros p Hp. eapply (notna_key_row [coarse; ym] p coarse); [by apply Hg|left].
  - intros s Hsout. eapply groupby_sample_notna; [done | done | left | done].
Qed.

Lemma null_coarse_group_not_sampled_witness :
  load_and_sample_df Demo.ext Demo.w_grid
    = (Ok Demo.df_forty_sampled, (load_and_sample_df Demo.ext Demo.w_grid).2) ∧
  ∀ s, getitem Demo.df_forty_sampled "grid_id_50km" = Ok s →
       Forall (λ v, v ≠ VNull) s.
Proof.
  assert (H : load_and_sample_df Demo.ext Demo.w_grid
    = (Ok Demo.df_forty_sampled, (load_and_sample_df Demo.ext Demo.w_grid).2)).
  { refine (run_fst_eq (load_and_sample_df Demo.ext Demo.w_grid)
              Demo.df_forty_sampled _). vm_compute. reflexivity. }
  split; [exact H|].
  destruct (null_coarse_group_not_sampled Demo.ext Demo.w_grid
              (load_and_sample_df Demo.ext Demo.w_grid).2 Demo.df_forty
              Demo.grid_half Demo.df_forty_sampled)
    as (dated & left & right & merged & dates & full & fine & lk & rk & coarse &
        ym & cells & _ & _ & _ & _ & _ & _ & _ & _ & _ & _ & _ & _ & _ & _ & _ & Hout).
  - exact demo_choice_ok.
  - vm_compute. reflexivity.
  - vm_compute. reflexivity.
  - apply (bool_decide_unpack _). vm_compute. exact I.
  - exact H.
  - exact Hout.
Defined.

(** ** Determinism (C6) *)

Lemma value_dec_enc v : value_dec (value_enc v) = v.
Proof.
  destruct v as [|z|s|t]; simpl; try done. f_equal.
  rewrite <-list_fmap_compose.
  rewrite <-(String.string_of_list_ascii_of_string s) at 2. f_equal.
  rewrite <-(list_fmap_id (String.list_ascii_of_string s)) at 2.
  apply list_fmap_ext. intros _ a _. simpl. unfold ascii_code.
  by rewrite N2Z.id, Ascii.ascii_N_embedding.
Qed.

Lemma value_enc_inj a b : value_enc a = value_enc b → a = b.
Proof. intros H. by rewrite <-(value_dec_enc a), <-(value_dec_enc b), H. Qed.

#[global] Instance value_le_total : Total value_le.
Proof.
  intros a b. unfold value_le.
  destruct (trichotomy lexico (value_enc a) (value_enc b)) as [?|[?%value_enc_inj|?]];
    auto.
Qed.

#[global] Instance value_le_trans : Transitive value_le.
Proof.
  intros a b c [Hab| ->] [Hbc| ->]; unfold value_le; auto.
  left. by etrans.
Qed.

#[global] Instance value_le_antisym : AntiSymm (=) value_le.
Proof.
  intros a b [Hab| ->] [Hba|Heq]; try done.
  destruct (irreflexivity lexico (value_enc a)). by etrans.
Qed.

Lemma np_unique_Permutation g1 g2 : g1 ≡ₚ g2 → np_unique g1 = np_unique g2.
Proof.
  intros Hp. unfold np_unique. apply (Sorted_unique value_le).
  - apply Sorted_merge_sort, _.
  - apply Sorted_merge_sort, _.
  - rewrite !merge_sort_Permutation.
    apply NoDup_Permutation; [apply NoDup_remove_dups..|].
    intros x. by rewrite !elem_of_remove_dups, Hp.
Qed.

Lemma group_counts_Permutation g1 g2 :
  g1 ≡ₚ g2 → group_counts g1 = group_counts g2.
Proof.
  intros Hp. unfold group_counts. rewrite (np_unique_Permutation _ _ Hp).
  apply list_fmap_ext. intros _ g _. simpl. by rewrite Hp.
Qed.

(** The fold of a group depends on how many rows every group has, not on
    where the rows are. *)
Lemma fold_of_group_Permutation n g1 g2 g :
  g1 ≡ₚ g2 → fold_of_group n g1 g = fold_of_group n g2 g.
Proof.
  intros Hp. unfold fold_of_group.
  by rewrite (group_counts_Permutation _ _ Hp), (np_unique_Permutation _ _ Hp).
Qed.

Ltac step_lift :=
  rewrite lift_bind;
  match goal with
  | |- match ?r with Ok _ => _ | Err _ => _ end = _ =>
      destruct r; simpl; [|done]
  end.

Lemma merge_grid_run E df grid w :
  files w !! grid_file = Some grid →
  merge_grid E df w = (merge_grid_of E df grid, w).
Proof.
  intros Hgrid. unfold merge_grid, merge_grid_of.
  rewrite (M_bind_run_Ok _ _ _ grid w) by (by apply read_csv_Ok).
  do 6 step_lift. done.
Qed.

Lemma load_and_sample_df_run E w :
  load_and_sample_df E w =
  match sample_of_inputs E (files w !! input_file) (files w !! grid_file) with
  | Ok out =>
      match write_error E output_sampled with
      | Some e => (Err e, w)
      | None =>
          (Ok out, mkWorld (<[output_sampled := out]> (files w)) (environ w)
                     (trace w ++ [EvWrite output_sampled]))
      end
  | Err e => (Err e, w)
  end.
Proof.
  unfold load_and_sample_df, sample_of_inputs.
  unfold mbind at 1, M_bind at 1, read_csv at 1.
  destruct (files w !! input_file) as [df|]; [|done].
  step_lift.
  unfold mbind at 1, M_bind at 1, path_exists at 1.
  destruct (files w !! grid_file) as [grid|] eqn:Hgrid; simpl.
  - unfold mbind at 1, M_bind at 1. rewrite (merge_grid_run _ _ _ _ Hgrid).
    destruct (merge_grid_of E _ grid); simpl; [|done].
    do 5 step_lift. rewrite to_csv_bind.
    by destruct (write_error E output_sampled).
  - unfold mbind at 1, M_bind at 1. simpl.
    do 5 step_lift. rewrite to_csv_bind.
    by destruct (write_error E output_sampled).
Qed.

(** C6, as stated, fails in its last part: two sampled sets with the same
    groups in the same order of first appearance, of the same size, get
    different fold assignments, because the assignment goes by the number
    of rows of every group. *)
Lemma fold_assignment_not_by_first_appearance :
  first_appearance (VNum <$> [0; 0; 1; 2; 3; 4; 5; 6; 7; 8; 9; 10]%Z)
    = first_appearance (VNum <$> [0; 1; 2; 3; 4; 5; 6; 7; 8; 9; 10; 10]%Z) ∧
  fold_of_group 10 (VNum <$> [0; 0; 1; 2; 3; 4; 5; 6; 7; 8; 9; 10]%Z) (VNum 0) = 0 ∧
  fold_of_group 10 (VNum <$> [0; 1; 2; 3; 4; 5; 6; 7; 8; 9; 10; 10]%Z) (VNum 0) = 1 ∧
  GroupKFold_split 10 (VNum <$> [0; 0; 1; 2; 3; 4; 5; 6; 7; 8; 9; 10]%Z)
    ≠ GroupKFold_split 10 (VNum <$> [0; 1; 2; 3; 4; 5; 6; 7; 8; 9; 10; 10]%Z).
Proof. repeat split; by vm_compute. Qed.

(** C6, amended: the sampler and the cross-validator are deterministic.
    What [load_and_sample_df] returns and writes is a function of the
    contents of its two input files (the seed is the constant 42): two
    worlds that agree on them, whatever else they hold, give the same
    result.  The partition is [GroupKFold_split 10] of the group column,
    with no random draw, and the fold of a group is a function of the
    number of rows of every group: it is the same for two columns that are
    permutations of each other, however their rows are ordered. *)
Theorem sampling_and_folds_deterministic :
  ∀ (E : Externals) (w1 w2 : World) (g1 g2 : Series),
  files w1 !! input_file = files w2 !! input_file →
  files w1 !! grid_file = files w2 !! grid_file →
  g1 ≡ₚ g2 →
  (load_and_sample_df E w1).1 = (load_and_sample_df E w2).1 ∧
  (∀ out, (load_and_sample_df E w1).1 = Ok out →
     files (load_and_sample_df E w1).2 !! output_sampled = Some out ∧
     files (load_and_sample_df E w2).2 !! output_sampled = Some out) ∧
  (∀ g, fold_of_group 10 g1 g = fold_of_group 10 g2 g) ∧
  is_ok (GroupKFold_split 10 g1) = is_ok (GroupKFold_split 10 g2).
Proof.
  intros * Hin Hgrid Hp. rewrite !load_and_sample_df_run, Hin, Hgrid.
  split; [|split; [|split]].
  - destruct (sample_of_inputs _ _ _); [|done].
    by destruct (write_error E output_sampled).
  - intros out. destruct (sample_of_inputs _ _ _) as [out'|e]; simpl; [|done].
    destruct (write_error E output_sampled); simpl; [done|].
    intros [= ->]. by rewrite !lookup_insert_eq.
  - intros g. by apply fold_of_group_Permutation.
  - unfold GroupKFold_split. rewrite (np_unique_Permutation _ _ Hp).
    by repeat case_decide.
Qed.

Lemma sampling_and_folds_deterministic_witness :
  (load_and_sample_df Demo.ext Demo.w_grid).1
    = (load_and_sample_df Demo.ext Demo.w_grid_later).1 ∧
  ∀ g, fold_of_group 10 (VNum <$> [0; 0; 1; 2; 3; 4; 5; 6; 7; 8; 9; 10]%Z) g
       = fold_of_group 10
           (reverse (VNum <$> [0; 0; 1; 2; 3; 4; 5; 6; 7; 8; 9; 10]%Z)) g.
Proof.
  destruct (sampling_and_folds_deterministic Demo.ext Demo.w_grid Demo.w_grid_later
              (VNum <$> [0; 0; 1; 2; 3; 4; 5; 6; 7; 8; 9; 10]%Z)
              (reverse (VNum <$> [0; 0; 1; 2; 3; 4; 5; 6; 7; 8; 9; 10]%Z)))
    as (Hsame & _ & Hfold & _).
  - vm_compute. reflexivity.
  - vm_compute. reflexivity.
  - symmetry. apply reverse_Permutation.
  - split; [exact Hsame | exact Hfold].
Defined.

(** * Further properties of the script *)

(** ** How many rows a cell gives *)

(** X3: with the fraction 0.03 of [load_and_sample_df], on a cell of up to
    a hundred thousand rows, the sampler asks for a size within one half of
    0.03 n, never above n, and a cell gives no row at all exactly when it
    has 16 rows or fewer. *)
Theorem sample_size_threshold :
  ∀ n : nat, (Z.of_nat n ≤ 100000)%Z →
  ∃ k, sample_size sampling_frac n = Ok k ∧ k ≤ n ∧
       (Z.abs (100 * Z.of_nat k - 3 * Z.of_nat n) ≤ 50)%Z ∧
       (k = 0 ↔ n ≤ 16).
Proof.
  intros n Hn.
  destruct (sample_size_exact_le n Hn) as (k & Hk & Hle & Hround).
  exists k. split; [done|]. split; [done|].
  unfold py_round in Hround; simpl in Hround.
  change (Z.pos (100 * 1)) with 100%Z in Hround.
  pose proof (Z.div_mod (3 * Z.of_nat n) 100 ltac:(lia)) as Hdm.
  pose proof (Z.mod_pos_bound (3 * Z.of_nat n) 100 ltac:(lia)) as Hr.
  set (q := (3 * Z.of_nat n / 100)%Z) in *.
  set (r := (3 * Z.of_nat n mod 100)%Z) in *.
  repeat case_decide; try destruct (Z.even q); lia.
Qed.

Lemma sample_size_threshold_witness :
  ∃ k, sample_size sampling_frac 17 = Ok k ∧ k ≤ 17 ∧
       (Z.abs (100 * Z.of_nat k - 3 * Z.of_nat 17) ≤ 50)%Z ∧
       (k = 0 ↔ 17 ≤ 16).
Proof.
  apply (sample_size_threshold 17). apply Z.leb_le. vm_compute. reflexivity.
Defined.

(** ** What the imputation step and the loader leave behind *)




Lemma iloc_wf df idx out : iloc df idx = Ok out → wf_df out.
Proof.
  intros (_ & Hrows & _ & Hcols)%iloc_Ok. unfold wf_df.
  rewrite Hcols, Hrows, Forall_fmap. apply Forall_forall. intros [c s] _; simpl.
  unfold take_at. by rewrite length_fmap.
Qed.

(** X6: the table [load_and_sample_df] returns is well formed (every column
    has one cell per row) and has the four columns the training step works
    with: [date], [grid_id], [grid_id_50km] and [year_month]. *)
Theorem load_and_sample_df_shape :
  ∀ (E : Externals) (w w' : World) (out : DataFrame),
  load_and_sample_df E w = (Ok out, w') →
  wf_df out ∧
  Forall (λ c, c ∈ col_names out) ["date"; "grid_id"; "grid_id_50km"; "year_month"].
Proof.
  intros * Hload. rewrite load_and_sample_df_run in Hload.
  destruct (sample_of_inputs _ _ _) as [out'|e] eqn:Hs; [|done].
  destruct (write_error E output_sampled); [done|].
  injection Hload as -> _. unfold sample_of_inputs in Hs.
  destruct (files w !! input_file) as [df0|]; [|done].
  apply result_bind_Ok in Hs as (df1 & _ & Hs).
  apply result_bind_Ok in Hs as (df2 & _ & Hs).
  apply result_bind_Ok in Hs as (d & Hd & Hs).
  apply result_bind_Ok in Hs as (df3 & Hym & Hs).
  apply result_bind_Ok in Hs as (sampled & Hsample & Hs).
  apply result_bind_Ok in Hs as (g & Hg & Hs).
  apply result_bind_Ok in Hs as (g50 & Hg50 & [= ->]).
  unfold groupby_sample in Hsample.
  apply result_bind_Ok in Hsample as (ks & _ & Hsample).
  apply result_bind_Ok in Hsample as (cells & _ & Hiloc).
  split; [by eapply iloc_wf|].
  apply iloc_Ok in Hiloc as (Hnames & _).
  pose proof (setitem_names _ _ _ _ Hym) as Hn3.
  repeat apply Forall_cons_2; [| by eapply getitem_Ok_names..| | done].
  - rewrite Hnames, Hn3. apply getitem_Ok_names in Hd.
    case_decide; [done | apply elem_of_app; by left].
  - rewrite Hnames, Hn3. case_decide; [done|]. apply elem_of_app. right. left.
Qed.

Lemma load_and_sample_df_shape_witness :
  load_and_sample_df Demo.ext Demo.w_grid
    = (Ok Demo.df_forty_sampled, (load_and_sample_df Demo.ext Demo.w_grid).2) ∧
  wf_df Demo.df_forty_sampled.
Proof.
  assert (H : load_and_sample_df Demo.ext Demo.w_grid
    = (Ok Demo.df_forty_sampled, (load_and_sample_df Demo.ext Demo.w_grid).2)).
  { refine (run_fst_eq (load_and_sample_df Demo.ext Demo.w_grid)
              Demo.df_forty_sampled _). vm_compute. reflexivity. }
  split; [exact H|].
  exact (proj1 (load_and_sample_df_shape Demo.ext Demo.w_grid
                  (load_and_sample_df Demo.ext Demo.w_grid).2
                  Demo.df_forty_sampled H)).
Defined.

(** ** What [main] does (C4) *)

(** C4: [main] never reaches the imputation step.  Whatever it is run on,
    with whatever learner, it raises, at the latest in the first fold of
    [run_outer_cv]: no model is fitted, so none is handed to step 4,
    [predict] is never called, and the imputed table is never written.  The
    world it leaves is the one it started in, but for the sampled snapshot
    when the loader got as far as writing it. *)
Theorem main_never_imputes :
  ∀ (E : Externals) (L : Learner) (w : World),
  ∃ e w', main E L w = (Err e, w') ∧
    environ w' = environ w ∧
    (trace w' = trace w ∨ trace w' = trace w ++ [EvWrite output_sampled]) ∧
    (∀ p, p ≠ output_sampled → files w' !! p = files w !! p) ∧
    files w' !! imputed_out = files w !! imputed_out.
Proof.
  intros. unfold main.
  assert (Hstop : ∀ e : exn, ∃ e0 w', (Err (A := unit) e, w) = (Err e0, w') ∧
    environ w' = environ w ∧
    (trace w' = trace w ∨ trace w' = trace w ++ [EvWrite output_sampled]) ∧
    (∀ p, p ≠ output_sampled → files w' !! p = files w !! p) ∧
    files w' !! imputed_out = files w !! imputed_out).
  { intros e. exists e, w. auto. }
  pose proof (load_and_sample_df_run E w) as Hrun.
  destruct (sample_of_inputs _ _ _) as [out|e];
    [|rewrite (M_bind_run_Err _ _ _ _ _ Hrun); apply Hstop].
  destruct (write_error E output_sampled);
    [rewrite (M_bind_run_Err _ _ _ _ _ Hrun); apply Hstop|].
  rewrite (M_bind_run_Ok _ _ _ _ _ Hrun). clear Hstop.
  set (w1 := mkWorld _ _ _).
  assert (Hstop : ∀ e : exn, ∃ e0 w', (Err (A := unit) e, w1) = (Err e0, w') ∧
    environ w' = environ w ∧
    (trace w' = trace w ∨ trace w' = trace w ++ [EvWrite output_sampled]) ∧
    (∀ p, p ≠ output_sampled → files w' !! p = files w !! p) ∧
    files w' !! imputed_out = files w !! imputed_out).
  { intros e. exists e, w1. split; [done|]. split; [done|]. split; [by right|].
    split.
    - intros p Hp. simpl. by rewrite lookup_insert_ne.
    - simpl. rewrite lookup_insert_ne; [done|]. by vm_compute. }
  unfold mbind at 1, M_bind at 1, read_csv at 1.
  destruct (files w1 !! ml_input_file) as [df_ml|]; [|apply Hstop].
  rewrite lift_bind. destruct (convert_column _ _ _) as [df1|e]; [|apply Hstop].
  rewrite lift_bind. destruct (getitem df1 "grid_id") as [g|e]; [|apply Hstop].
  rewrite lift_bind. destruct (setitem df1 _ _) as [df2|e]; [|apply Hstop].
  destruct (run_outer_cv_needs_date E L df2 feature_cols target_col "grid_id_50km"
              best_params_XGB OUTPUT_ML_DIR w1) as [e He].
  { by apply (bool_decide_unpack _); vm_compute. }
  rewrite (M_bind_run_Err _ _ _ _ _ He). apply Hstop.
Qed.

(** ** The left join when the mapping table has no repeated identifier *)

Lemma filter_at_most_one {A} (P : A → Prop) `{∀ x, Decision (P x)} (l : list A) :
  NoDup l → (∀ x y, x ∈ l → y ∈ l → P x → P y → x = y) →
  length (filter P l) ≤ 1.
Proof.
  intros Hnd Huniq.
  assert (Hnd' : NoDup (filter P l)) by by apply NoDup_filter.
  destruct (filter P l) as [|x [|y fl]] eqn:Hf; simpl; [lia | lia |].
  assert (Hx : x ∈ filter P l) by (rewrite Hf; left).
  assert (Hy : y ∈ filter P l) by (rewrite Hf; right; left).
  apply list_elem_of_filter in Hx as [HPx Hx], Hy as [HPy Hy].
  pose proof (Huniq x y Hx Hy HPx HPy) as ->.
  apply NoDup_cons in Hnd' as [Hnin _]. destruct Hnin. left.
Qed.

Lemma bind_fst_id {B} (f : nat → list (nat * B)) (l : list nat) :
  (∀ i, i ∈ l → (f i).*1 = [i]) → (l ≫= f).*1 = l.
Proof.
  induction l as [|i l IH]; intros Hf; [done|].
  cbn [mbind list_bind]. rewrite fmap_app, (Hf i) by left.
  rewrite IH; [done|]. intros j Hj. apply Hf. by right.
Qed.

Lemma match_rows_unique_keys nl lk nr rk :
  (∀ j j', j < nr → j' < nr → rk !!! j = rk !!! j' → j = j') →
  (match_rows nl lk nr rk).*1 = seq 0 nl.
Proof.
  intros Huniq. unfold match_rows. apply bind_fst_id. intros i _.
  pose proof (filter_at_most_one (λ j, rk !!! j = lk !!! i) (seq 0 nr)
                (NoDup_seq 0 nr)) as Hlen.
  destruct (filter _ (seq 0 nr)) as [|j [|j' js]]; [done | done |].
  simpl in Hlen. exfalso. enough (S (S (length js)) ≤ 1) by lia. apply Hlen.
  intros x y Hx%elem_of_seq Hy%elem_of_seq Hpx Hpy.
  apply Huniq; [lia | lia | congruence].
Qed.

Lemma fmap_lookup_total_seq (s : Series) :
  (λ i, s !!! i) <$> seq 0 (length s) = s.
Proof.
  apply list_eq. intros i. rewrite list_lookup_fmap.
  destruct (s !! i) as [x|] eqn:Hi.
  - rewrite (lookup_seq_lt _ _ _ (lookup_lt_Some _ _ _ Hi)). simpl.
    by rewrite (list_lookup_total_correct _ _ _ Hi).
  - rewrite lookup_seq_ge; [done|]. by apply lookup_ge_None.
Qed.

Lemma gather_left_id pairs (s : Series) :
  pairs.*1 = seq 0 (length s) → gather_left pairs s = s.
Proof.
  intros Hp. unfold gather_left.
  transitivity ((λ i, s !!! i) <$> pairs.*1).
  - by rewrite <-list_fmap_compose.
  - rewrite Hp. apply fmap_lookup_total_seq.
Qed.

Lemma fst_filter_names (key : string) (cols : list (string * Series)) :
  (filter (λ p : string * Series, p.1 ≠ key) cols).*1
  = filter (λ c, c ≠ key) cols.*1.
Proof.
  induction cols as [|[c s] cols IH]; [done|].
  rewrite fmap_cons, !filter_cons; simpl.
  destruct (decide (c ≠ key)); [rewrite fmap_cons; simpl|]; by rewrite IH.
Qed.

(** X7: when the mapping table lists no fine identifier twice and shares no
    other column name with the primary table, the left join keeps the
    primary table as it is, row for row and column for column, and only
    appends the mapping table's columns. *)
Theorem merge_left_unique_keys :
  ∀ (l r out : DataFrame) (key : string) (rk : Series),
  merge_left l r key = Ok out →
  wf_df l →
  getitem r key = Ok rk →
  (∀ j j', j < nrows r → j' < nrows r → rk !!! j = rk !!! j' → j = j') →
  (∀ c, c ∈ col_names l → c ≠ key → c ∉ col_names r) →
  nrows out = nrows l ∧
  (∃ added, columns out = columns l ++ added ∧
            added.*1 = filter (λ c, c ≠ key) (col_names r)) ∧
  (∀ c s, getitem l c = Ok s → getitem out c = Ok s).
Proof.
  intros * Hmerge Hwf Hrk Huniq Hclash. unfold merge_left in Hmerge.
  apply result_bind_Ok in Hmerge as (lk & Hlk & Hmerge).
  apply result_bind_Ok in Hmerge as (rk' & Hrk' & [= <-]).
  rewrite Hrk in Hrk'. injection Hrk' as <-.
  pose proof (match_rows_unique_keys (nrows l) lk (nrows r) rk Huniq) as Hfst.
  set (pairs := match_rows (nrows l) lk (nrows r) rk) in *.
  set (rcols := filter (λ p : string * Series, p.1 ≠ key) (columns r)).
  assert (Hlen : length pairs = nrows l).
  { by rewrite <-(length_fmap fst), Hfst, length_seq. }
  assert (Hleft : prod_map
            (λ c, if decide (c ≠ key ∧ c ∈ rcols.*1) then c +:+ "_x" else c)
            (gather_left pairs) <$> columns l = columns l).
  { rewrite <-(list_fmap_id (columns l)) at 2. apply list_fmap_ext.
    intros i [c s] Hi; simpl. unfold wf_df in Hwf. rewrite Forall_forall in Hwf.
    apply list_elem_of_lookup_2 in Hi.
    pose proof (Hwf _ Hi) as Hs; simpl in Hs. f_equal.
    - case_decide as Hc; [|done]. destruct Hc as [Hne Hin].
      destruct (Hclash c); [| done |].
      + apply list_elem_of_fmap. by exists (c, s).
      + apply list_elem_of_fmap in Hin as ([c' s'] & -> & Hin).
        apply list_elem_of_filter in Hin as [_ Hin].
        apply list_elem_of_fmap. by exists (c', s').
    - apply gather_left_id. by rewrite Hs. }
  simpl. rewrite Hleft. split; [done|]. split.
  - eexists. split; [done|]. rewrite <-list_fmap_compose.
    transitivity (rcols.*1).
    + apply list_fmap_ext. intros i [c s] Hi; simpl.
      apply list_elem_of_lookup_2, list_elem_of_filter in Hi as [Hne Hin].
      simpl in Hne. case_decide as Hc; [|done].
      destruct (Hclash c Hc Hne). apply list_elem_of_fmap. by exists (c, s).
    + unfold rcols, col_names. apply fst_filter_names.
  - intros c s Hs. unfold getitem in *. simpl.
    destruct (assoc c (columns l)) as [s'|] eqn:Hc; [|done].
    injection Hs as ->. by rewrite (assoc_app_Some _ _ _ _ Hc).
Qed.

Lemma merge_left_unique_keys_witness :
  merge_left Demo.df_three Demo.grid_once "grid_id" = Ok Demo.df_three_merged ∧
  nrows Demo.df_three_merged = nrows Demo.df_three ∧
  ∀ c s, getitem Demo.df_three c = Ok s → getitem Demo.df_three_merged c = Ok s.
Proof.
  assert (H : merge_left Demo.df_three Demo.grid_once "grid_id"
              = Ok Demo.df_three_merged) by (vm_compute; reflexivity).
  destruct (merge_left_unique_keys Demo.df_three Demo.grid_once
              Demo.df_three_merged "grid_id" [VStr "1"; VStr "2"] H)
    as (Hrows & _ & Hcols).
  - by apply (bool_decide_unpack _); vm_compute.
  - vm_compute. reflexivity.
  - intros [|[|j]] [|[|j']] Hj Hj'; simpl in *; try lia; try done.
  - intros c [->|[->|Hc%elem_of_nil]%elem_of_cons]%elem_of_cons Hne; [done| |done].
    by apply (bool_decide_unpack _); vm_compute.
  - split; [exact H|]. split; [exact Hrows | exact Hcols].
Defined.

(** ** GroupKFold: too few groups, and no empty fold *)

Lemma np_unique_length_le groups (vals : list value) :
  (∀ g, g ∈ groups → g ∈ vals) → length (np_unique groups) ≤ length vals.
Proof.
  intros Hsub. unfold np_unique. rewrite merge_sort_Permutation.
  apply submseteq_length, NoDup_submseteq; [apply NoDup_remove_dups|].
  intros g Hg. apply Hsub. by rewrite elem_of_remove_dups in Hg.
Qed.

(** X8: when the group column takes fewer than ten distinct values,
    [run_outer_cv] raises the ValueError of GroupKFold before anything is
    fitted or written. *)
Theorem run_outer_cv_few_groups :
  ∀ (E : Externals) (L : Learner) (df X : DataFrame) (features : list string)
    (target group_col : string) (params : hyperparams) (output_dir : string)
    (w : World) (y groups vals : Series),
  getitem_list df features = Ok X →
  getitem df target = Ok y →
  getitem df group_col = Ok groups →
  (∀ g, g ∈ groups → g ∈ vals) → length vals < 10 →
  run_outer_cv E L df features target group_col params output_dir w
  = (Err (ValueError
            "Cannot have number of splits greater than the number of groups"), w).
Proof.
  intros * HX Hy Hg Hsub Hlen. unfold run_outer_cv.
  rewrite lift_bind, HX, lift_bind, Hy, lift_bind, Hg, lift_bind.
  unfold GroupKFold_split. rewrite decide_False by lia.
  pose proof (np_unique_length_le groups vals Hsub).
  by rewrite decide_True by lia.
Qed.

Lemma run_outer_cv_few_groups_witness :
  run_outer_cv Demo.ext Demo.lrn Demo.df_fine ["date"; "grid_id"] "aod" "grid_id"
    best_params_XGB "out" Demo.w0
  = (Err (ValueError
            "Cannot have number of splits greater than the number of groups"),
     Demo.w0).
Proof.
  apply (run_outer_cv_few_groups Demo.ext Demo.lrn Demo.df_fine
           (mkDF 6 [("date", VTime <$> [1; 2; 3; 31; 32; 33]%Z);
                    ("grid_id", VNum <$> [1; 2; 3; 1; 2; 3]%Z)])
           ["date"; "grid_id"] "aod" "grid_id" best_params_XGB "out" Demo.w0
           (VNum <$> [10; 11; 12; 13; 14; 15]%Z)
           (VNum <$> [1; 2; 3; 1; 2; 3]%Z)
           (VNum <$> [1; 2; 3]%Z)).
  - vm_compute. reflexivity.
  - vm_compute. reflexivity.
  - vm_compute. reflexivity.
  - intros g Hg. apply (bool_decide_unpack _).
    repeat (apply elem_of_cons in Hg as [->|Hg]; [by vm_compute|]).
    by apply elem_of_nil in Hg.
  - simpl. lia.
Defined.

Lemma foldr_min_le (d : nat) (l : list nat) (x : nat) :
  x ∈ l → foldr Nat.min d l ≤ x.
Proof.
  induction l as [|a l IH]; [by intros ?%elem_of_nil|].
  intros [->|Hx]%elem_of_cons; simpl; [lia|]. specialize (IH Hx). lia.
Qed.

Lemma argmin_first_zero (ws : list nat) (k : nat) :
  Forall (λ x, 0 < x) ws → 0 < k → argmin (ws ++ replicate k 0) = length ws.
Proof.
  intros Hws Hk. unfold argmin.
  assert (Hz : (ws ++ replicate k 0) !! length ws = Some 0).
  { rewrite lookup_app_r, Nat.sub_diag by lia. apply lookup_replicate_2. lia. }
  assert (Hmin : min_list (ws ++ replicate k 0) = 0).
  { enough (min_list (ws ++ replicate k 0) ≤ 0) by lia.
    apply foldr_min_le. by eapply list_elem_of_lookup_2. }
  rewrite Hmin.
  assert (Hfind : list_find (λ x, x = 0) (ws ++ replicate k 0) = Some (length ws, 0)).
  { apply list_find_Some. split; [done|]. split; [done|].
    intros j y Hj Hlt. rewrite lookup_app_l in Hj by done.
    rewrite Forall_forall in Hws. apply list_elem_of_lookup_2, Hws in Hj. lia. }
  by rewrite Hfind.
Qed.

Lemma insert_by_Permutation w i l : insert_by w i l ≡ₚ i :: l.
Proof.
  induction l as [|j l IH]; simpl; [done|].
  case_decide; [done|]. rewrite IH. apply Permutation_swap.
Qed.

Lemma argsort_Permutation counts : argsort counts ≡ₚ seq 0 (length counts).
Proof.
  unfold argsort. induction (seq 0 (length counts)) as [|i l IH]; simpl; [done|].
  by rewrite insert_by_Permutation, IH.
Qed.

(** The first groups to be placed, as many as there are folds, go one to
    each fold, in order. *)
Lemma assign_prefix counts pre :
  ∀ ws k g2f,
  Forall (λ x, 0 < x) ws → length pre ≤ k → NoDup pre →
  Forall (λ gi, gi < length g2f ∧ 0 < counts !!! gi) pre →
  length (foldl (assign_step counts) (ws ++ replicate k 0, g2f) pre).2
    = length g2f ∧
  (∀ i gi, pre !! i = Some gi →
     (foldl (assign_step counts) (ws ++ replicate k 0, g2f) pre).2 !!! gi
     = length ws + i) ∧
  (∀ g, g ∉ pre →
     (foldl (assign_step counts) (ws ++ replicate k 0, g2f) pre).2 !!! g
     = g2f !!! g).
Proof.
  induction pre as [|gi pre IH]; intros ws k g2f Hws Hk Hnd Hpre.
  - simpl. split; [done|]. split; [|done].
    intros i gi Hi. by rewrite lookup_nil in Hi.
  - apply NoDup_cons in Hnd as [Hgi Hnd].
    apply Forall_cons in Hpre as [[Hlt Hpos] Hpre]. simpl in Hk.
    destruct k as [|k]; [lia|].
    assert (Hstep : assign_step counts (ws ++ replicate (S k) 0, g2f) gi
                    = ((ws ++ [counts !!! gi]) ++ replicate k 0,
                       <[gi := length ws]> g2f)).
    { unfold assign_step; cbn [fst snd].
      rewrite argmin_first_zero by (done || lia). f_equal.
      rewrite alter_app_r_alt, Nat.sub_diag by lia. simpl.
      by rewrite <-(assoc_L (++)). }
    cbn [foldl]. rewrite !Hstep.
    destruct (IH (ws ++ [counts !!! gi]) k (<[gi := length ws]> g2f))
      as (Hlen & Hin & Hout).
    + apply Forall_app. split; [done|]. by apply Forall_singleton.
    + lia.
    + done.
    + eapply Forall_impl; [exact Hpre|]. intros g [? ?]. by rewrite length_insert.
    + rewrite length_insert in Hlen. split; [done|]. split.
      * intros [|i] g Hi; simpl in Hi.
        -- injection Hi as <-. rewrite Hout by done.
           rewrite list_lookup_total_insert_eq by done. lia.
        -- rewrite (Hin i g Hi), length_app. simpl. lia.
      * intros g Hg. apply not_elem_of_cons in Hg as [Hne Hg].
        rewrite Hout by done. by rewrite list_lookup_total_insert_ne.
Qed.

Lemma assign_rest counts post :
  ∀ st g, g ∉ post →
  (foldl (assign_step counts) st post).2 !!! g = st.2 !!! g.
Proof.
  induction post as [|gi post IH]; intros st g Hg; [done|].
  apply not_elem_of_cons in Hg as [Hne Hg]. cbn [foldl].
  rewrite IH by done. unfold assign_step; simpl.
  destruct (decide (gi < length st.2)).
  - by rewrite list_lookup_total_insert_ne.
  - by rewrite list_insert_ge by lia.
Qed.

(** With at least as many groups as folds, every fold gets a group. *)
Lemma group_to_fold_onto n counts f :
  n ≤ length counts → Forall (λ c, 0 < c) counts → f < n →
  ∃ gi, gi < length counts ∧ group_to_fold n counts !!! gi = f.
Proof.
  intros Hn Hpos Hf. unfold group_to_fold.
  set (order := reverse (argsort counts)).
  assert (Hperm : order ≡ₚ seq 0 (length counts)).
  { unfold order. by rewrite reverse_Permutation, argsort_Permutation. }
  assert (Hnd : NoDup order) by (rewrite Hperm; apply NoDup_seq).
  assert (Hlen : length order = length counts) by (by rewrite Hperm, length_seq).
  assert (Hlt : ∀ gi, gi ∈ order → gi < length counts).
  { intros gi. rewrite Hperm, elem_of_seq. lia. }
  rewrite <-(take_drop n order) in Hnd |- *.
  apply NoDup_app in Hnd as (Hnd1 & Hdisj & _). rewrite foldl_app.
  destruct (assign_prefix counts (take n order) [] n
              (replicate (length counts) 0)) as (_ & Hin & _).
  { constructor. }
  { rewrite length_take. lia. }
  { done. }
  { apply Forall_forall. intros gi Hgi%elem_of_take.
    destruct Hgi as (i & Hgi & _). apply list_elem_of_lookup_2, Hlt in Hgi.
    rewrite length_replicate. split; [done|].
    apply lookup_lt_is_Some_2 in Hgi as [c Hc].
    rewrite (list_lookup_total_correct _ _ _ Hc).
    rewrite Forall_forall in Hpos. by eapply Hpos, list_elem_of_lookup_2. }
  assert (Hf' : is_Some (take n order !! f)).
  { apply lookup_lt_is_Some_2. rewrite length_take. lia. }
  destruct Hf' as [gi Hgi]. exists gi.
  change ([] ++ replicate n 0) with (replicate n 0) in Hin. split.
  - apply Hlt. rewrite <-(take_drop n order). apply elem_of_app. left.
    by eapply list_elem_of_lookup_2.
  - rewrite assign_rest; [by rewrite (Hin f gi Hgi)|].
    apply Hdisj. by eapply list_elem_of_lookup_2.
Qed.

Lemma elem_of_np_unique groups g : g ∈ np_unique groups ↔ g ∈ groups.
Proof. unfold np_unique. by rewrite merge_sort_Permutation, elem_of_remove_dups. Qed.

Lemma NoDup_np_unique groups : NoDup (np_unique groups).
Proof. unfold np_unique. rewrite merge_sort_Permutation. apply NoDup_remove_dups. Qed.

Lemma group_counts_pos groups : Forall (λ c, 0 < c) (group_counts groups).
Proof.
  unfold group_counts. rewrite Forall_fmap. apply Forall_forall.
  intros g Hg. rewrite elem_of_np_unique in Hg. simpl.
  assert (Hin : g ∈ filter (λ x, x = g) groups).
  { apply list_elem_of_filter. by split. }
  destruct (filter _ groups); [by apply elem_of_nil in Hin | simpl; lia].
Qed.

Lemma index_of_lookup (u : list value) (gi : nat) (g : value) :
  NoDup u → u !! gi = Some g → index_of u g = gi.
Proof.
  intros Hnd Hgi. unfold index_of.
  assert (Hfind : list_find (λ x, x = g) u = Some (gi, g)).
  { apply list_find_Some. split; [done|]. split; [done|].
    intros j y Hj Hlt ->. pose proof (NoDup_lookup u j gi g Hnd Hj Hgi). lia. }
  by rewrite Hfind.
Qed.

(** Every fold validates at least one row. *)
Lemma test_indices_nonempty n groups f :
  n ≤ length (np_unique groups) → f < n → ∃ j, j ∈ test_indices n groups f.
Proof.
  intros Hn Hf.
  destruct (group_to_fold_onto n (group_counts groups) f) as (gi & Hgi & Hfold).
  { unfold group_counts. by rewrite length_fmap. }
  { apply group_counts_pos. }
  { done. }
  unfold group_counts in Hgi. rewrite length_fmap in Hgi.
  apply lookup_lt_is_Some_2 in Hgi as [g Hg].
  pose proof (proj1 (elem_of_np_unique groups g) (list_elem_of_lookup_2 _ _ _ Hg))
    as Hin.
  apply list_elem_of_lookup in Hin as [j Hj]. exists j.
  apply elem_of_test_indices. split; [by eapply lookup_lt_Some|].
  rewrite (list_lookup_total_correct _ _ _ Hj). unfold fold_of_group.
  by rewrite (index_of_lookup _ gi g (NoDup_np_unique groups) Hg).
Qed.

(** X9: no fold of a GroupKFold partition is empty on either side: every
    fold validates at least one row and trains on at least one row, so the
    training loop never meets an empty partition. *)
Theorem GroupKFold_split_no_empty_fold :
  ∀ (n_splits : nat) (groups : Series) (outer_cv : list (list nat * list nat))
    (f : nat) (trn val : list nat),
  GroupKFold_split n_splits groups = Ok outer_cv →
  outer_cv !! f = Some (trn, val) →
  val ≠ [] ∧ trn ≠ [].
Proof.
  intros * Hsplit Hf.
  destruct (GroupKFold_split_lookup _ _ _ _ _ _ Hsplit Hf) as (Hlt & Hn & -> & ->).
  assert (Hgroups : n_splits ≤ length (np_unique groups)).
  { unfold GroupKFold_split in Hsplit. repeat case_decide; try done. lia. }
  split.
  - destruct (test_indices_nonempty n_splits groups f Hgroups Hlt) as [j Hj].
    intros Hnil. rewrite Hnil in Hj. by apply elem_of_nil in Hj.
  - set (f' := if decide (f = 0) then 1 else 0).
    assert (Hf' : f' < n_splits ∧ f' ≠ f).
    { unfold f'. case_decide; lia. }
    destruct Hf' as [Hf'lt Hf'ne].
    destruct (test_indices_nonempty n_splits groups f' Hgroups Hf'lt) as [j Hj].
    apply elem_of_test_indices in Hj as [Hj Hfold].
    assert (Hin : j ∈ train_indices n_splits groups f).
    { apply elem_of_train_indices. split; [done | congruence]. }
    intros Hnil. rewrite Hnil in Hin. by apply elem_of_nil in Hin.
Qed.

Lemma GroupKFold_split_no_empty_fold_witness :
  ∃ outer_cv trn val,
    GroupKFold_split 10 (VNum <$> [0; 0; 1; 2; 3; 4; 5; 6; 7; 8; 9; 10]%Z)
      = Ok outer_cv ∧
    outer_cv !! 9 = Some (trn, val) ∧ val ≠ [] ∧ trn ≠ [].
Proof.
  eexists _, _, _. split; [vm_compute; reflexivity|]. split; [reflexivity|].
  match goal with |- ?val ≠ [] ∧ ?trn ≠ [] =>
    eapply (GroupKFold_split_no_empty_fold 10
              (VNum <$> [0; 0; 1; 2; 3; 4; 5; 6; 7; 8; 9; 10]%Z) _ 9 trn val)
  end.
  - vm_compute. reflexivity.
  - reflexivity.
Defined.

(** ** What a completed run of [run_outer_cv] leaves on disk *)

Lemma getitem_iloc df idx out c s :
  iloc df idx = Ok out → getitem out c = Ok s →
  ∃ s0, getitem df c = Ok s0 ∧ s = take_at s0 idx.
Proof.
  intros (_ & _ & _ & Hcols)%iloc_Ok. unfold getitem.
  rewrite Hcols, assoc_fmap_take_at.
  destruct (assoc c (columns df)) as [s0|]; simpl; [|done].
  intros [= <-]. by exists s0.
Qed.

Lemma getitem_list_two df c1 c2 out :
  getitem_list df [c1; c2] = Ok out →
  ∃ s1 s2, getitem df c1 = Ok s1 ∧ getitem df c2 = Ok s2 ∧
           out = mkDF (nrows df) [(c1, s1); (c2, s2)].
Proof.
  unfold getitem_list. intros H. apply result_bind_Ok in H as (cols & Hcols & [= <-]).
  simpl in Hcols.
  apply result_bind_Ok in Hcols as ([c1' s1] & H1 & Hcols).
  apply result_bind_Ok in H1 as (s1' & H1 & [= <- <-]).
  apply result_bind_Ok in Hcols as (rest & H2 & [= <-]).
  apply result_bind_Ok in H2 as ([c2' s2] & H2 & [= <-]).
  apply result_bind_Ok in H2 as (s2' & H2 & [= <- <-]).
  by exists s1', s2'.
Qed.

Lemma setitem_new df c s out :
  setitem df c s = Ok out → c ∉ col_names df →
  out = mkDF (nrows df) (columns df ++ [(c, s)]).
Proof.
  unfold setitem. case_decide; [|done]. intros [= <-] Hc. f_equal.
  unfold col_names in Hc. induction (columns df) as [|[c' s'] cols IH]; [done|].
  simpl in *. apply not_elem_of_cons in Hc as [Hne Hc].
  rewrite decide_False by done. by rewrite IH.
Qed.

Section Records.
Context (E : Externals) (L : Learner).

Lemma train_fold_record X y params trn_idx val_idx st w st' w' :
  train_fold E L X y params trn_idx val_idx st w = (Ok st', w') →
  ∃ m imp_df train_df eval_df,
    fold_record L X y params trn_idx val_idx m imp_df train_df eval_df ∧
    dfs_importance L st' = dfs_importance L st ++ [imp_df] ∧
    train_dfs L st' = train_dfs L st ++ [train_df] ∧
    eval_dfs L st' = eval_dfs L st ++ [eval_df] ∧
    model_xgb L st' = Some m.
Proof.
  intros (X_trn & X_val & y_trn & y_val & ids_trn & ids_val & jobs & m & imp &
          ptrn & pval & train0 & train_df & eval0 & eval_df &
          HXt & HXv & Hyt & Hyv & Hit & Ht0 & Hiv & He0 & Hfit & Himp & Hpt & Ht &
          Hpv & He & -> & _)%train_fold_Ok.
  exists m, imp, train_df, eval_df. simpl. split; [|done].
  unfold iloc_series in Hyt, Hyv.
  destruct (decide (Forall _ trn_idx)); [|done]. injection Hyt as <-.
  destruct (decide (Forall _ val_idx)); [|done]. injection Hyv as <-.
  apply getitem_list_two in Hit as (dt & gt & Hdt & Hgt & ->).
  apply getitem_list_two in Hiv as (dv & gv & Hdv & Hgv & ->).
  apply (getitem_iloc _ _ _ _ _ HXt) in Hdt as (date & Hdate & ->).
  apply (getitem_iloc _ _ _ _ _ HXt) in Hgt as (gid & Hgid & ->).
  apply (getitem_iloc _ _ _ _ _ HXv) in Hdv as (date' & Hdate' & ->).
  apply (getitem_iloc _ _ _ _ _ HXv) in Hgv as (gid' & Hgid' & ->).
  rewrite Hdate in Hdate'. injection Hdate' as <-.
  rewrite Hgid in Hgid'. injection Hgid' as <-.
  pose proof (iloc_Ok _ _ _ HXt) as (_ & Hnt & _).
  pose proof (iloc_Ok _ _ _ HXv) as (_ & Hnv & _).
  apply setitem_new in Ht0 as ->; [|by apply (bool_decide_unpack _); vm_compute].
  apply setitem_new in Ht as ->; [|by apply (bool_decide_unpack _); vm_compute].
  apply setitem_new in He0 as ->; [|by apply (bool_decide_unpack _); vm_compute].
  apply setitem_new in He as ->; [|by apply (bool_decide_unpack _); vm_compute].
  simpl. rewrite Hnt, Hnv.
  exists X_trn, X_val, date, gid, jobs, ptrn, pval. done.
Qed.

(** The training loop, fold by fold: one record per fold, in order, and the
    model it leaves is the one of the last fold. *)
Lemma cv_loop_records X y params outer_cv st w st' w' :
  cv_loop E L X y params outer_cv st w = (Ok st', w') →
  ∃ recs : list (Model L * (DataFrame * DataFrame * DataFrame)),
    Forall2 (λ (fold : list nat * list nat)
               (r : Model L * (DataFrame * DataFrame * DataFrame)),
               fold_record L X y params (fst fold) (snd fold) (fst r)
                 (fst (fst (snd r))) (snd (fst (snd r))) (snd (snd r)))
            outer_cv recs ∧
    dfs_importance L st'
      = dfs_importance L st ++ ((λ r, fst (fst (snd r))) <$> recs) ∧
    train_dfs L st' = train_dfs L st ++ ((λ r, snd (fst (snd r))) <$> recs) ∧
    eval_dfs L st' = eval_dfs L st ++ ((λ r, snd (snd r)) <$> recs) ∧
    model_xgb L st' = from_option (λ r, Some (fst r)) (model_xgb L st) (last recs) ∧
    files w' = files w.
Proof.
  revert st w. induction outer_cv as [|[trn val] rest IH]; intros st w; simpl.
  - intros [<- ->]%M_ret_Ok. exists []. by rewrite !app_nil_r.
  - intros (st1 & w1 & H1 & Hrest)%M_bind_Ok.
    assert (Hw : files w1 = files w).
    { apply train_fold_Ok in H1
        as (?&?&?&?&?&?&?&?&?&?&?&?&?&?&?&_&_&_&_&_&_&_&_&_&_&_&_&_&_&_&->).
      done. }
    apply train_fold_record in H1
      as (m & imp & trn_df & evl_df & Hrec & Hi & Ht & He & Hm).
    destruct (IH _ _ Hrest) as (recs & Hrecs & Hi' & Ht' & He' & Hm' & Hw').
    exists ((m, (imp, trn_df, evl_df)) :: recs). split; [by constructor|].
    rewrite Hi', Ht', He', Hi, Ht, He, Hw', Hw, Hm'. simpl.
    rewrite <-!(assoc_L (++)). do 3 (split; [done|]). split; [|done].
    destruct recs as [|r recs']; simpl; [done|].
    destruct (last (r :: recs')) eqn:Hl; [done | by apply last_None in Hl].
Qed.

(** A save loop that returns has put every fold's three tables under the
    fold's three paths, when no two of the paths are the same. *)
Lemma save_loop_files output_dir st fold_ids w w' :
  save_loop E L output_dir st fold_ids w = (Ok (), w') →
  NoDup (concat (fold_paths output_dir <$> fold_ids)) →
  (∀ i, i ∈ fold_ids →
     files w' !! fold_file output_dir i "_XGB_feature_importance.csv"
       = dfs_importance L st !! i ∧
     files w' !! fold_file output_dir i "_XGB_traindf.csv" = train_dfs L st !! i ∧
     files w' !! fold_file output_dir i "_XGB_evaldf.csv" = eval_dfs L st !! i) ∧
  (∀ p, p ∉ concat (fold_paths output_dir <$> fold_ids) →
     files w' !! p = files w !! p).
Proof.
  revert w. induction fold_ids as [|i rest IH]; intros w; simpl.
  - intros [_ ->]%M_ret_Ok _. split; [by intros i ?%elem_of_nil | done].
  - intros Hrun Hnd.
    apply M_bind_Ok in Hrun as (imp & ? & [Himp ->]%lift_Ok & Hrun).
    apply M_bind_Ok in Hrun as ([] & w1 & [_ ->]%to_csv_Ok & Hrun).
    apply M_bind_Ok in Hrun as (trn & ? & [Htrn ->]%lift_Ok & Hrun).
    apply M_bind_Ok in Hrun as ([] & w2 & [_ ->]%to_csv_Ok & Hrun).
    apply M_bind_Ok in Hrun as (evl & ? & [Hevl ->]%lift_Ok & Hrun).
    apply M_bind_Ok in Hrun as ([] & w3 & [_ ->]%to_csv_Ok & Hrun).
    unfold list_get in Himp, Htrn, Hevl.
    destruct (dfs_importance L st !! i) as [imp'|] eqn:Hi1; [|done].
    destruct (train_dfs L st !! i) as [trn'|] eqn:Hi2; [|done].
    destruct (eval_dfs L st !! i) as [evl'|] eqn:Hi3; [|done].
    injection Himp as ->. injection Htrn as ->. injection Hevl as ->.
    apply NoDup_cons in Hnd as [Hp1 Hnd].
    apply NoDup_cons in Hnd as [Hp2 Hnd].
    apply NoDup_cons in Hnd as [Hp3 Hnd].
    destruct (IH _ Hrun Hnd) as [Hin Hout]. simpl in Hout.
    assert (Hhead :
      files w' !! fold_file output_dir i "_XGB_feature_importance.csv" = Some imp ∧
      files w' !! fold_file output_dir i "_XGB_traindf.csv" = Some trn ∧
      files w' !! fold_file output_dir i "_XGB_evaldf.csv" = Some evl).
    { apply not_elem_of_cons in Hp1 as [Hne12 Hp1].
      apply not_elem_of_cons in Hp1 as [Hne13 Hp1].
      apply not_elem_of_cons in Hp2 as [Hne23 Hp2].
      rewrite !Hout by done. split; [|split].
      - rewrite !lookup_insert_ne by done. apply lookup_insert_eq.
      - rewrite lookup_insert_ne by done. apply lookup_insert_eq.
      - apply lookup_insert_eq. }
    split.
    + intros j [->|Hj]%elem_of_cons.
      * by rewrite Hi1, Hi2, Hi3.
      * by apply Hin.
    + intros p Hp. apply not_elem_of_cons in Hp as [? Hp].
      apply not_elem_of_cons in Hp as [? Hp].
      apply not_elem_of_cons in Hp as [? Hp]. rewrite Hout by done.
      by rewrite !lookup_insert_ne.
Qed.
End Records.

(** The path of a fold's file is the directory, the separator and the name. *)
Lemma fold_file_eq (output_dir : string) (i : nat) (suffix : string) :
  fold_file output_dir i suffix
  = output_dir +:+ (path_sep output_dir +:+ ("fold_" +:+ pretty (i + 1) +:+ suffix)).
Proof.
  unfold fold_file, path_join, path_sep. cbn [foldl]. unfold join2.
  change (starts_with_slash ("fold_" +:+ pretty (i + 1) +:+ suffix)) with false.
  cbv iota. by destruct (bool_decide (output_dir = "") || ends_with_slash output_dir).
Qed.

Lemma fold_paths_eq (output_dir : string) (fold_ids : list nat) :
  concat (fold_paths output_dir <$> fold_ids)
  = (λ name, output_dir +:+ (path_sep output_dir +:+ name))
      <$> concat (fold_names <$> fold_ids).
Proof.
  induction fold_ids as [|i rest IH]; [done|].
  cbn [fmap list_fmap concat]. rewrite fmap_app, <-IH. f_equal.
  unfold fold_paths, fold_names. by rewrite !fold_file_eq.
Qed.

(** The thirty paths of a run are thirty different paths, whatever the
    output directory. *)
Lemma fold_paths_NoDup (output_dir : string) :
  NoDup (concat (fold_paths output_dir <$> seq 0 10)).
Proof.
  rewrite fold_paths_eq. apply NoDup_fmap_2.
  - intros a b Hab. apply (inj (String.app output_dir)) in Hab.
    by apply (inj (String.app (path_sep output_dir))) in Hab.
  - by apply (bool_decide_unpack _); vm_compute.
Qed.

(** X10: what a run of [run_outer_cv] that returns has left on disk.  For
    every fold [i] of the split, the three files named after [i + 1] hold
    the tables of that very fold: the importance table of the model fitted
    on the training rows of fold [i] (without the identifying columns), the
    training table and the validation table with the date, the fine
    identifier, the observed target and that model's predictions, row for
    row of the fold's partition.  No other file of the store is touched, and
    the model returned is the one of the last fold. *)
Theorem run_outer_cv_saved_folds :
  ∀ (E : Externals) (L : Learner) (df : DataFrame) (features : list string)
    (target group_col : string) (params : hyperparams) (output_dir : string)
    (w w' : World) (m : Model L),
  run_outer_cv E L df features target group_col params output_dir w = (Ok m, w') →
  ∃ X y groups outer_cv,
    getitem_list df features = Ok X ∧ getitem df target = Ok y ∧
    getitem df group_col = Ok groups ∧
    GroupKFold_split 10 groups = Ok outer_cv ∧
    (∀ i trn_idx val_idx, outer_cv !! i = Some (trn_idx, val_idx) →
       ∃ m_i imp_df train_df eval_df,
         fold_record L X y params trn_idx val_idx m_i imp_df train_df eval_df ∧
         (i = 9 → m_i = m) ∧
         files w' !! fold_file output_dir i "_XGB_feature_importance.csv"
           = Some imp_df ∧
         files w' !! fold_file output_dir i "_XGB_traindf.csv" = Some train_df ∧
         files w' !! fold_file output_dir i "_XGB_evaldf.csv" = Some eval_df) ∧
    (∀ p, p ∉ concat (fold_paths output_dir <$> seq 0 10) →
       files w' !! p = files w !! p).
Proof.
  intros * H. unfold run_outer_cv in H.
  apply M_bind_Ok in H as (X & ? & [HX ->]%lift_Ok & H).
  apply M_bind_Ok in H as (y & ? & [Hy ->]%lift_Ok & H).
  apply M_bind_Ok in H as (groups & ? & [Hg ->]%lift_Ok & H).
  apply M_bind_Ok in H as (outer_cv & ? & [Hsplit ->]%lift_Ok & H).
  apply M_bind_Ok in H as (st & w1 & Hloop & H).
  apply M_bind_Ok in H as ([] & w2 & Hsave & H).
  apply cv_loop_records in Hloop as (recs & Hrecs & Hi & Ht & He & Hm & Hw).
  simpl in Hi, Ht, He, Hm.
  assert (w' = w2 ∧ model_xgb L st = Some m) as [-> Hmodel].
  { destruct (model_xgb L st); [by apply M_ret_Ok in H as [-> ->]|].
    by apply lift_Ok in H as [? _]. }
  exists X, y, groups, outer_cv. do 4 (split; [done|]).
  pose proof (GroupKFold_split_length _ _ _ Hsplit) as Hlen. rewrite Hlen in Hsave.
  apply save_loop_files in Hsave as [Hin Hout]; [|apply fold_paths_NoDup].
  split.
  - intros i trn_idx val_idx Hfold.
    destruct (Forall2_lookup_l _ _ _ _ _ Hrecs Hfold)
      as ([m_i [[imp trn] evl]] & Hr & Hrec).
    exists m_i, imp, trn, evl. split; [done|].
    assert (Hlt : i ∈ seq 0 10).
    { apply lookup_lt_Some in Hfold. rewrite Hlen in Hfold.
      apply elem_of_seq. lia. }
    destruct (Hin i Hlt) as (-> & -> & ->).
    split; [|by rewrite Hi, Ht, He, !list_lookup_fmap, Hr].
    intros ->. apply Forall2_length in Hrecs. rewrite Hlen in Hrecs.
    rewrite last_lookup, <-Hrecs in Hm. simpl in Hm. rewrite Hr in Hm. simpl in Hm.
    rewrite Hmodel in Hm. by injection Hm.
  - intros p Hp. by rewrite Hout, Hw.
Qed.

Lemma run_outer_cv_saved_folds_witness :
  demo_cv_run = (Ok Demo.cv_model, demo_cv_run.2) ∧
  ∀ p, p ∉ concat (fold_paths "out" <$> seq 0 10) →
    files demo_cv_run.2 !! p = files Demo.w0 !! p.
Proof.
  assert (H1 : demo_cv_run = (Ok Demo.cv_model, demo_cv_run.2)).
  { refine (run_fst_eq demo_cv_run Demo.cv_model _). vm_compute. reflexivity. }
  split; [exact H1|].
  destruct (run_outer_cv_saved_folds Demo.ext Demo.lrn Demo.df_ml Demo.features
              "aod" "grid_id_50km" best_params_XGB "out" Demo.w0 demo_cv_run.2
              Demo.cv_model H1) as (_ & _ & _ & _ & _ & _ & _ & _ & _ & Hout).
  exact Hout.
Defined.

(** ** The importance table *)

(** X11: the importance table of a fold.  Whenever the table can be built
    (the regressor reports one importance per name), its two columns are,
    row by row, the (name, importance) pairs of the model in some order, no
    pair lost and none repeated, and the importances never increase from one
    row to the next.  With distinct names every name is on exactly one row.
    Nothing is said about the order of rows of equal importance. *)
Theorem importance_frame_sorted :
  ∀ (names : list string) (imp : Series) (out : DataFrame),
  importance_frame names imp = Ok out →
  ∃ rows : list (value * value),
    out = mkDF (length names) [("feature", rows.*1); ("importance", rows.*2)] ∧
    rows ≡ₚ zip (VStr <$> names) imp ∧
    rows.*1 ≡ₚ VStr <$> names ∧
    (NoDup names → NoDup rows.*1) ∧
    (∀ i j a b, i ≤ j → rows.*2 !! i = Some a → rows.*2 !! j = Some b →
                value_le b a).
Proof.
  intros names imp out. unfold importance_frame. case_decide as Hlen; [|done].
  intros [= <-].
  set (R := λ a b : value * value, value_le b.2 a.2).
  set (rows := merge_sort R (zip (VStr <$> names) imp)).
  assert (Hperm : rows ≡ₚ zip (VStr <$> names) imp) by apply merge_sort_Permutation.
  assert (Hfst : rows.*1 ≡ₚ VStr <$> names).
  { rewrite Hperm. rewrite fst_zip; [done|]. rewrite length_fmap. lia. }
  exists rows. split; [|split; [done|split; [done|split]]].
  - f_equal. rewrite Hperm, length_zip, length_fmap. lia.
  - intros Hnd. rewrite Hfst. apply NoDup_fmap_2; [|done]. by intros ?? [=].
  - assert (Hsorted : StronglySorted R rows).
    { apply StronglySorted_merge_sort.
      - intros a b c Hab Hbc. unfold R in *. by etrans.
      - intros a b. unfold R. destruct (total value_le b.2 a.2); auto. }
    intros i j a b Hij Ha Hb.
    rewrite list_lookup_fmap in Ha, Hb.
    destruct (rows !! i) as [ra|] eqn:Hra; [|done].
    destruct (rows !! j) as [rb|] eqn:Hrb; [|done].
    simpl in *. injection Ha as <-. injection Hb as <-.
    destruct (decide (i = j)) as [->|Hne].
    + rewrite Hra in Hrb. injection Hrb as <-.
      destruct (total value_le ra.2 ra.2); done.
    + clear -Hsorted Hra Hrb Hij Hne. revert i j Hra Hrb Hij Hne.
      induction Hsorted as [|x l Hs IH Hall]; intros i j Hra Hrb Hij Hne; [done|].
      destruct i as [|i], j as [|j]; simpl in *; try lia.
      * injection Hra as ->. rewrite Forall_forall in Hall.
        apply Hall. apply list_elem_of_lookup. eauto.
      * apply (IH i j); auto; lia.
Qed.

Lemma importance_frame_sorted_witness :
  importance_frame ["a"; "b"; "c"] [VNum 2; VNum 7; VNum 5]
    = Ok (mkDF 3 [("feature", [VStr "b"; VStr "c"; VStr "a"]);
                  ("importance", [VNum 7; VNum 5; VNum 2])]) ∧
  ∃ rows : list (value * value),
    mkDF 3 [("feature", [VStr "b"; VStr "c"; VStr "a"]);
            ("importance", [VNum 7; VNum 5; VNum 2])]
      = mkDF (length ["a"; "b"; "c"]) [("feature", rows.*1); ("importance", rows.*2)] ∧
    rows ≡ₚ zip (VStr <$> ["a"; "b"; "c"]) [VNum 2; VNum 7; VNum 5] ∧
    rows.*1 ≡ₚ VStr <$> ["a"; "b"; "c"] ∧
    (NoDup ["a"; "b"; "c"] → NoDup rows.*1) ∧
    (∀ i j a b, i ≤ j → rows.*2 !! i = Some a → rows.*2 !! j = Some b →
                value_le b a).
Proof.
  assert (H : importance_frame ["a"; "b"; "c"] [VNum 2; VNum 7; VNum 5]
    = Ok (mkDF 3 [("feature", [VStr "b"; VStr "c"; VStr "a"]);
                  ("importance", [VNum 7; VNum 5; VNum 2])])).
  { vm_compute. reflexivity. }
  split; [exact H|].
  exact (importance_frame_sorted ["a"; "b"; "c"] [VNum 2; VNum 7; VNum 5] _ H).
Defined.

(** ** A primary table that already carries the coarse identifier *)



(** ** A write that is refused *)

Section Refusal.
Context (E : Externals) (L : Learner).

Lemma list_get_total {A} `{Inhabited A} (l : list A) (i : nat) :
  i < length l → list_get l i = Ok (l !!! i).
Proof.
  intros Hi. unfold list_get. apply lookup_lt_is_Some_2 in Hi as [x Hx].
  by rewrite Hx, (list_lookup_total_correct _ _ _ Hx).
Qed.

(** With every table there, the save loop is the writing of the folds'
    files in order. *)
Lemma save_loop_write_all output_dir st fold_ids w :
  Forall (λ i, i < length (dfs_importance L st) ∧ i < length (train_dfs L st) ∧
               i < length (eval_dfs L st)) fold_ids →
  save_loop E L output_dir st fold_ids w
  = write_all E (concat (fold_tables L output_dir st <$> fold_ids)) w.
Proof.
  intros HF. revert w. induction HF as [|i rest (Hi & Ht & He) _ IH]; intros w; [done|].
  cbn [save_loop fmap list_fmap concat fold_tables app write_all].
  rewrite lift_bind, (list_get_total _ _ Hi), !to_csv_bind.
  destruct (write_error E _); [done|].
  rewrite lift_bind, (list_get_total _ _ Ht), !to_csv_bind.
  destruct (write_error E _); [done|].
  rewrite lift_bind, (list_get_total _ _ He), !to_csv_bind.
  destruct (write_error E _); [done|]. apply IH.
Qed.

Lemma fold_tables_paths output_dir st fold_ids :
  (concat (fold_tables L output_dir st <$> fold_ids)).*1
  = concat (fold_paths output_dir <$> fold_ids).
Proof.
  induction fold_ids as [|i rest IH]; [done|].
  cbn [fmap list_fmap concat]. by rewrite fmap_app, IH.
Qed.

(** Writing stops at the first path that is refused; what was written
    before it is in the store. *)
Lemma write_all_refusal (l : list (string * DataFrame)) :
  ∀ w k pd e,
  list_find (λ pd : string * DataFrame, is_Some (write_error E pd.1)) l = Some (k, pd) →
  write_error E pd.1 = Some e →
  ∃ w', write_all E l w = (Err e, w') ∧
    environ w' = environ w ∧
    trace w' = trace w ++ (EvWrite <$> (take k l).*1) ∧
    (∀ q, q ∈ (take k l).*1 → is_Some (files w' !! q)) ∧
    (∀ q, q ∉ (take k l).*1 → files w' !! q = files w !! q).
Proof.
  induction l as [|[p0 d0] l IH]; intros w k pd e Hfind He; [done|].
  cbn [write_all]. rewrite to_csv_bind. cbn [list_find] in Hfind.
  destruct (write_error E p0) as [e0|] eqn:H0.
  - rewrite decide_True in Hfind by (simpl; rewrite H0; by eexists).
    injection Hfind as <- <-. simpl in He. rewrite H0 in He. injection He as <-.
    exists w. simpl. rewrite app_nil_r. split; [done|]. split; [done|].
    split; [done|]. split; [by intros q ?%elem_of_nil | done].
  - rewrite decide_False in Hfind
      by (simpl; rewrite H0; by intros [? ?]).
    destruct (list_find _ l) as [[k' pd']|] eqn:Hl; [|done].
    injection Hfind as <- <-.
    destruct (IH (mkWorld (<[p0:=d0]> (files w)) (environ w)
                    (trace w ++ [EvWrite p0])) k' pd' e eq_refl He)
      as (w' & Hrun & Henv & Htr & Hin & Hout).
    exists w'. split; [done|]. split; [done|]. simpl in *. split; [|split].
    + rewrite Htr. by rewrite <-(assoc_L (++)).
    + intros q Hq. destruct (decide (q ∈ (take k' l).*1)) as [Hq'|Hq'];
        [by apply Hin|].
      apply elem_of_cons in Hq as [->|Hq]; [|done].
      rewrite (Hout _ Hq'), lookup_insert_eq. by eexists.
    + intros q Hq. apply not_elem_of_cons in Hq as [Hne Hq].
      rewrite (Hout _ Hq). by rewrite lookup_insert_ne.
Qed.
End Refusal.

(** X13: a write that is refused stops the save loop where it stands.  When
    the tables of the folds are there and the system refuses one of the
    paths, the loop raises the exception of the first path refused; the
    files before it, in the order of the loop, have been written and are in
    the store, and no other path is touched: the files of a run are all or
    nothing with respect to the folds, not with respect to the writes. *)
Theorem save_loop_stops_at_refusal :
  ∀ (E : Externals) (L : Learner) (output_dir : string) (st : cv_state L)
    (fold_ids : list nat) (w : World) (k : nat) (p : string) (e : exn),
  Forall (λ i, i < length (dfs_importance L st) ∧ i < length (train_dfs L st) ∧
               i < length (eval_dfs L st)) fold_ids →
  list_find (λ q, is_Some (write_error E q))
    (concat (fold_paths output_dir <$> fold_ids)) = Some (k, p) →
  write_error E p = Some e →
  ∃ w', save_loop E L output_dir st fold_ids w = (Err e, w') ∧
    trace w' = trace w
               ++ (EvWrite <$> take k (concat (fold_paths output_dir <$> fold_ids))) ∧
    (∀ q, q ∈ take k (concat (fold_paths output_dir <$> fold_ids)) →
       is_Some (files w' !! q)) ∧
    (∀ q, q ∉ take k (concat (fold_paths output_dir <$> fold_ids)) →
       files w' !! q = files w !! q).
Proof.
  intros * HF Hfind He.
  rewrite (save_loop_write_all E L _ _ _ _ HF).
  rewrite <-(fold_tables_paths L output_dir st fold_ids) in Hfind |- *.
  rewrite list_find_fmap in Hfind.
  destruct (list_find _ _) as [[k' [p' d']]|] eqn:Hl; [|done].
  injection Hfind as <- <-.
  destruct (write_all_refusal E _ w k' (p', d') e Hl He)
    as (w' & Hrun & _ & Htr & Hin & Hout).
  exists w'. rewrite <-fmap_take. done.
Qed.

Lemma save_loop_stops_at_refusal_witness :
  ∃ w', save_loop Demo.ext_locked Demo.lrn "out" Demo.st_one [0] Demo.w0
        = (Err (OSError "Cannot save file into a non-existent directory"), w') ∧
    trace w' = trace Demo.w0
               ++ (EvWrite <$> take 1 (concat (fold_paths "out" <$> [0]))) ∧
    (∀ q, q ∈ take 1 (concat (fold_paths "out" <$> [0])) → is_Some (files w' !! q)) ∧
    (∀ q, q ∉ take 1 (concat (fold_paths "out" <$> [0])) →
       files w' !! q = files Demo.w0 !! q).
Proof.
  apply (save_loop_stops_at_refusal Demo.ext_locked Demo.lrn "out" Demo.st_one [0]
           Demo.w0 1 "out/fold_1_XGB_traindf.csv").
  - apply (bool_decide_unpack _). vm_compute. exact I.
  - vm_compute. reflexivity.
  - vm_compute. reflexivity.
Defined.
